(** * ccswitch: the profile registry and switch engine of [ccswitch.py]

    A shallow embedding of [ClaudeAccountSwitcher] (src/ccswitch.py).

    - JSON values are an inductive type; a Python [dict] is an association
      list in insertion order with unique keys.
    - The file system is a finite map from paths to files.  A file is
      represented by what [json.load] yields when the file is opened under
      each of the four encodings the program tries.
    - Methods are computations in a state-and-exception monad over the
      [world] (files, console, clock); everything the program cannot
      control (clock readings, the process list, I/O failures) is read from
      an [env] of oracles.

    Modelling restrictions, all on inputs the program does not create
    itself: strings are byte strings and the [str] methods act on ASCII;
    JSON numbers are integers; [int(s)] accepts an optional [-] followed by
    decimal digits; a registry document is read into a typed record
    (see [registry_of_data]). *)

From Stdlib Require Import ZArith List String Ascii Lia DecimalString DecimalZ DecimalPos.
From stdpp Require Import base tactics option list gmap strings countable.

Local Open Scope string_scope.
Local Open Scope Z_scope.
Set Warnings "-register-all".

(** ** Python values *)

Inductive json : Type :=
| JNull
| JBool (b : bool)
| JInt (z : Z)
| JStr (s : string)
| JList (l : list json)
| JDict (d : list (string * json)).

(** [None] of Python is [JNull]; [{}] is [JDict []]. *)
Abbreviation dict := (list (string * json)).

(** Truthiness, as used by [if x:] and [not x]. *)
Definition truthy (j : json) : bool :=
  match j with
  | JNull => false
  | JBool b => b
  | JInt z => negb (z =? 0)
  | JStr s => negb (String.eqb s "")
  | JList l => match l with [] => false | _ => true end
  | JDict d => match d with [] => false | _ => true end
  end.

Module Dict.

(** [key in d] *)
Fixpoint contains (key : string) (d : dict) : bool :=
  match d with
  | [] => false
  | (k, _) :: d' => if String.eqb k key then true else contains key d'
  end.

(** [d.get(key)] *)
Fixpoint get (key : string) (d : dict) : option json :=
  match d with
  | [] => None
  | (k, v) :: d' => if String.eqb k key then Some v else get key d'
  end.

(** [d[key] = v]: an existing key keeps its position, a new one goes last. *)
Fixpoint set (key : string) (v : json) (d : dict) : dict :=
  match d with
  | [] => [(key, v)]
  | (k, v') :: d' =>
      if String.eqb k key then (k, v) :: d' else (k, v') :: set key v d'
  end.

(** [del d[key]] *)
Fixpoint del (key : string) (d : dict) : dict :=
  match d with
  | [] => []
  | (k, v) :: d' => if String.eqb k key then d' else (k, v) :: del key d'
  end.

Definition keys (d : dict) : list string := map fst d.

End Dict.

(** [j is None] *)
Definition is_none (j : json) : bool :=
  match j with
  | JNull => true
  | _ => false
  end.

(** ** [str] methods and conversions *)

Definition is_digit (c : ascii) : bool :=
  ((48 <=? nat_of_ascii c) && (nat_of_ascii c <=? 57))%nat.

Definition lower_ascii (c : ascii) : ascii :=
  if ((65 <=? nat_of_ascii c) && (nat_of_ascii c <=? 90))%nat
  then ascii_of_nat (nat_of_ascii c + 32) else c.

Fixpoint all_chars (p : ascii -> bool) (s : string) : bool :=
  match s with
  | EmptyString => true
  | String c s' => p c && all_chars p s'
  end.

(** [s.isdigit()] *)
Definition isdigit (s : string) : bool :=
  match s with
  | EmptyString => false
  | _ => all_chars is_digit s
  end.

(** [s.lower()] *)
Fixpoint lower (s : string) : string :=
  match s with
  | EmptyString => EmptyString
  | String c s' => String (lower_ascii c) (lower s')
  end.

(** [str(n)] for an [int] *)
Definition str (z : Z) : string := NilZero.string_of_int (Z.to_int z).

(** [int(s)]; [None] stands for the [ValueError] of a malformed literal. *)
Definition int (s : string) : option Z :=
  option_map Z.of_int (NilZero.int_of_string s).

(** [needle in hay] for two strings. *)
Fixpoint is_prefix (p s : string) : bool :=
  match p, s with
  | EmptyString, _ => true
  | String a p', String b s' => Ascii.eqb a b && is_prefix p' s'
  | String _ _, EmptyString => false
  end.

Fixpoint substring_in (needle hay : string) : bool :=
  is_prefix needle hay ||
  match hay with
  | EmptyString => false
  | String _ hay' => substring_in needle hay'
  end.

(** ** Exceptions *)

Inductive exn : Type :=
| UnicodeDecodeError
| JSONDecodeError
| FileNotFoundError
| ValueError (msg : string)
| IOError
| EOFError
| AttributeError
| TypeError
| KeyError
| IndexError
| Unmodelled.

(** [isinstance(e, ValueError)]: both decode errors derive from it. *)
Definition is_ValueError (e : exn) : bool :=
  match e with
  | UnicodeDecodeError | JSONDecodeError | ValueError _ => true
  | _ => false
  end.

(** [isinstance(e, IOError)], that is [OSError]. *)
Definition is_IOError (e : exn) : bool :=
  match e with
  | IOError | FileNotFoundError => true
  | _ => false
  end.

Definition is_FileNotFoundError (e : exn) : bool :=
  match e with
  | FileNotFoundError => true
  | _ => false
  end.

(** [isinstance(e, Exception)]; [Unmodelled] marks a run that left the
    model and is never caught. *)
Definition is_Exception (e : exn) : bool :=
  match e with
  | Unmodelled => false
  | _ => true
  end.

(** [str(e)] *)
Definition exn_str (e : exn) : string :=
  match e with
  | UnicodeDecodeError => "codec can't decode bytes"
  | JSONDecodeError => "Expecting value"
  | FileNotFoundError => "No such file or directory"
  | ValueError msg => msg
  | IOError => "Input/output error"
  | EOFError => "EOF when reading a line"
  | AttributeError => "object has no attribute"
  | TypeError => "unsupported operand"
  | KeyError => "key"
  | IndexError => "list index out of range"
  | Unmodelled => "unmodelled"
  end.

(** ** Paths and files *)

Inductive stem : Type :=
| Sequence                 (* backup_dir / 'sequence' *)
| ClaudeConfig             (* home_dir / '.claude' *)
| ClaudeAltConfig          (* home_dir / '.claude' / '.claude' *)
| Configs (n : Z)          (* configs_dir / f"{n}" *)
| Credentials (n : Z).     (* credentials_dir / f"{n}" *)

Inductive suffix : Type := dot_json | dot_tmp.

Definition path : Type := stem * suffix.

Definition with_suffix (p : path) (s : suffix) : path := (fst p, s).

Definition sequence_file : path := (Sequence, dot_json).
Definition claude_config_file : path := (ClaudeConfig, dot_json).
Definition claude_alt_config_file : path := (ClaudeAltConfig, dot_json).
Definition configs_file (n : Z) : path := (Configs n, dot_json).
Definition credentials_file (n : Z) : path := (Credentials n, dot_json).

Definition suffix_str (s : suffix) : string :=
  match s with dot_json => ".json" | dot_tmp => ".tmp" end.

Definition path_str (p : path) : string :=
  match fst p with
  | Sequence => "~/.claude-switch-backup/sequence"
  | ClaudeConfig => "~/.claude"
  | ClaudeAltConfig => "~/.claude/.claude"
  | Configs n => "~/.claude-switch-backup/configs/" +:+ str n
  | Credentials n => "~/.claude-switch-backup/credentials/" +:+ str n
  end +:+ suffix_str (snd p).

#[global] Instance stem_eq_dec : EqDecision stem.
Proof. solve_decision. Defined.

#[global] Instance suffix_eq_dec : EqDecision suffix.
Proof. solve_decision. Defined.

Definition stem_code (s : stem) : Z + (Z + nat) :=
  match s with
  | Configs n => inl n
  | Credentials n => inr (inl n)
  | Sequence => inr (inr 0%nat)
  | ClaudeConfig => inr (inr 1%nat)
  | ClaudeAltConfig => inr (inr 2%nat)
  end.

Definition stem_decode (c : Z + (Z + nat)) : stem :=
  match c with
  | inl n => Configs n
  | inr (inl n) => Credentials n
  | inr (inr 0%nat) => Sequence
  | inr (inr 1%nat) => ClaudeConfig
  | inr (inr _) => ClaudeAltConfig
  end.

#[global] Instance stem_countable : Countable stem.
Proof. apply (inj_countable' stem_code stem_decode). by intros []. Defined.

Definition suffix_code (s : suffix) : bool :=
  match s with dot_json => true | dot_tmp => false end.

Definition suffix_decode (b : bool) : suffix :=
  if b then dot_json else dot_tmp.

#[global] Instance suffix_countable : Countable suffix.
Proof. apply (inj_countable' suffix_code suffix_decode). by intros []. Defined.

Inductive encoding : Type := utf_8 | utf_8_sig | latin_1 | cp1252.

(** What [open(p, 'r', encoding=e)] followed by [json.load] yields. *)
Inductive decoded : Type :=
| DecodeFails               (* UnicodeDecodeError *)
| ParseFails                (* json.JSONDecodeError *)
| Parsed (j : json).

(** The bytes of a file, seen through the four codecs.  Python's latin-1
    codec decodes every byte string; the record does not build that in, so
    what is proved about the readers also covers a codec list in which
    every entry can fail. *)
Record file : Type := File {
  as_utf_8 : decoded;
  as_utf_8_sig : decoded;
  as_latin_1 : decoded;
  as_cp1252 : decoded
}.

Definition json_load (e : encoding) (f : file) : decoded :=
  match e with
  | utf_8 => as_utf_8 f
  | utf_8_sig => as_utf_8_sig f
  | latin_1 => as_latin_1 f
  | cp1252 => as_cp1252 f
  end.

(** [json.dump(j, f, indent=2)] escapes everything outside ASCII, so the
    bytes written read back as [j] under every codec. *)
Definition json_dump (j : json) : file :=
  File (Parsed j) (Parsed j) (Parsed j) (Parsed j).

(** ** The world and the oracles *)

Record world : Type := World {
  files : gmap path file;
  stdin : list string;      (* lines still to be read by [input] *)
  stdout : list string;     (* lines printed so far, oldest first *)
  clock : nat               (* number of clock readings taken *)
}.

(** How [open(p, 'w')] followed by [json.dump] ends. *)
Inductive write_outcome : Type :=
| WriteOk
| OpenFails                 (* nothing was created or truncated *)
| DumpFails (partial : file).

Record env : Type := Env {
  now : nat -> string;              (* the n-th [datetime.now().isoformat()] *)
  tasklist_shows_claude : bool;     (* 'Claude' in result.stdout *)
  tasklist_runs : bool;             (* subprocess.run did not raise *)
  write_to : path -> write_outcome; (* fate of writing the file at a path *)
  replace_to : path -> bool;        (* does renaming onto this path succeed *)
  unlink_at : path -> bool          (* does deleting this path succeed *)
}.

(** ** Computations *)

Inductive res (A : Type) : Type :=
| Ret (a : A)
| Raise (e : exn).
Arguments Ret {A} a.
Arguments Raise {A} e.

Definition M (A : Type) : Type := world -> res A * world.

Definition ret {A} (a : A) : M A := fun w => (Ret a, w).
Definition raise {A} (e : exn) : M A := fun w => (Raise e, w).
Definition lift {A} (r : res A) : M A := fun w => (r, w).

Definition bind {A B} (m : M A) (k : A -> M B) : M B := fun w =>
  match m w with
  | (Ret a, w') => k a w'
  | (Raise e, w') => (Raise e, w')
  end.

(** [try: m except ...: h]; [h e = None] when no clause matches [e]. *)
Definition try_except {A} (m : M A) (h : exn -> option (M A)) : M A := fun w =>
  match m w with
  | (Ret a, w') => (Ret a, w')
  | (Raise e, w') =>
      match h e with
      | Some k => k w'
      | None => (Raise e, w')
      end
  end.

Declare Scope py_scope.
Delimit Scope py_scope with py.
Notation "x <- m ;; k" := (bind m (fun x => k))
  (at level 100, m at next level, right associativity) : py_scope.
Notation "m ;; k" := (bind m (fun _ => k))
  (at level 100, right associativity) : py_scope.
Local Open Scope py_scope.

Definition set_files (fs : gmap path file) (w : world) : world :=
  World fs (stdin w) (stdout w) (clock w).

(** [print(line)] *)
Definition print (line : string) : M unit := fun w =>
  (Ret tt, World (files w) (stdin w) (stdout w ++ [line]) (clock w)).

(** [input(prompt)] *)
Definition input (prompt : string) : M string := fun w =>
  match stdin w with
  | [] => (Raise EOFError, World (files w) [] (stdout w ++ [prompt]) (clock w))
  | line :: rest =>
      (Ret line, World (files w) rest (stdout w ++ [prompt]) (clock w))
  end.

(** [p.exists()] *)
Definition exists_ (p : path) : M bool := fun w =>
  (Ret (bool_decide (is_Some (files w !! p))), w).

(** Pure steps that can raise. *)
Definition rbind {A B} (r : res A) (k : A -> res B) : res B :=
  match r with
  | Ret a => k a
  | Raise e => Raise e
  end.

Notation "x <~ r ;; k" := (rbind r (fun x => k))
  (at level 100, r at next level, right associativity) : py_scope.

(** [key in data] *)
Definition py_in (key : string) (data : json) : res bool :=
  match data with
  | JDict d => Ret (Dict.contains key d)
  | JList l =>
      Ret (existsb (fun x => match x with
                             | JStr s => String.eqb s key
                             | _ => false
                             end) l)
  | JStr s => Ret (substring_in key s)
  | _ => Raise TypeError
  end.

(** [data[key]] for a string key *)
Definition getitem (data : json) (key : string) : res json :=
  match data with
  | JDict d =>
      match Dict.get key d with
      | Some v => Ret v
      | None => Raise KeyError
      end
  | _ => Raise TypeError
  end.

(** [isinstance(j, int)]; [bool] is a subclass of [int]. *)
Definition isinstance_int (j : json) : bool :=
  match j with JInt _ | JBool _ => true | _ => false end.

Definition isinstance_list (j : json) : bool :=
  match j with JList _ => true | _ => false end.

Definition isinstance_dict (j : json) : bool :=
  match j with JDict _ => true | _ => false end.

(** ** The registry document *)

Record registry : Type := Registry {
  activeAccountNumber : Z;
  lastUpdated : json;
  sequence : list Z;
  accounts : dict
}.

Definition json_of_registry (data : registry) : json :=
  JDict [("activeAccountNumber", JInt (activeAccountNumber data));
         ("lastUpdated", lastUpdated data);
         ("sequence", JList (map JInt (sequence data)));
         ("accounts", JDict (accounts data))].

Definition required_fields : list string :=
  ["activeAccountNumber"; "lastUpdated"; "sequence"; "accounts"].

(** The loop [for field in required_fields: if field not in data: raise]. *)
Fixpoint check_required (fields : list string) (place : string) (data : json)
  : res unit :=
  match fields with
  | [] => Ret tt
  | field :: rest =>
      present <~ py_in field data ;;
      if negb present
      then Raise (ValueError
                    ("Missing required field '" +:+ field +:+ "' in " +:+ place))
      else check_required rest place data
  end.

(** The checks shared by [load_sequence] (place "sequence file") and
    [save_sequence] (place "data"). *)
Definition validate_sequence_data (place : string) (data : json) : res unit :=
  _ <~ check_required required_fields place data ;;
  a <~ getitem data "activeAccountNumber" ;;
  if negb (isinstance_int a)
  then Raise (ValueError "activeAccountNumber must be an integer")
  else
    s <~ getitem data "sequence" ;;
    if negb (isinstance_list s)
    then Raise (ValueError "sequence must be a list")
    else
      acc <~ getitem data "accounts" ;;
      if negb (isinstance_dict acc)
      then Raise (ValueError "accounts must be a dictionary")
      else Ret tt.

Fixpoint ints_of (l : list json) : option (list Z) :=
  match l with
  | [] => Some []
  | JInt z :: l' => option_map (cons z) (ints_of l')
  | _ :: _ => None
  end.

(** The typed view of a validated document.  A document that passes the
    checks of the program but has a boolean active number, a sequence
    entry that is not an integer, or a fifth top-level key does not fit
    [registry]; reading it ends the run with [Unmodelled]. *)
Definition registry_of_data (data : json) : res registry :=
  match data with
  | JDict d =>
      match Dict.get "activeAccountNumber" d, Dict.get "lastUpdated" d,
            Dict.get "sequence" d, Dict.get "accounts" d with
      | Some (JInt a), Some t, Some (JList l), Some (JDict acc) =>
          match ints_of l with
          | Some s =>
              if (length d =? 4)%nat then Ret (Registry a t s acc)
              else Raise Unmodelled
          | None => Raise Unmodelled
          end
      | _, _, _, _ => Raise Unmodelled
      end
  | _ => Raise Unmodelled
  end.

(** ** Config payloads *)

Definition required_oauth_fields : list string := ["emailAddress"; "accountUuid"].

Fixpoint first_missing (fields : list string) (d : dict) : option string :=
  match fields with
  | [] => None
  | field :: rest =>
      if negb (Dict.contains field d) then Some field
      else first_missing rest d
  end.

Definition validate_claude_config (config_data : json) : bool * string :=
  match config_data with
  | JDict d =>
      if negb (Dict.contains "oauthAccount" d)
      then (false, "Config must contain 'oauthAccount' section")
      else
        match Dict.get "oauthAccount" d with
        | Some (JDict oauth_account) =>
            match first_missing required_oauth_fields oauth_account with
            | Some field =>
                (false, "oauthAccount missing required field: '" +:+ field +:+ "'")
            | None => (true, "Config is valid")
            end
        | _ => (false, "'oauthAccount' must be a dictionary")
        end
  | _ => (false, "Config data must be a dictionary")
  end.

Definition encodings_to_try : list encoding := [utf_8; utf_8_sig; latin_1; cp1252].

Definition encodings_repr : string := "['utf-8', 'utf-8-sig', 'latin-1', 'cp1252']".

(** [max(l)] of a non-empty list *)
Definition max_list (x : Z) (l : list Z) : Z := fold_left Z.max l x.


(** ** Helpers of the switch engine *)

(** [j.get(key, default)] *)
Definition py_get (j : json) (key : string) (dflt : json) : res json :=
  match j with
  | JDict d => Ret (default dflt (Dict.get key d))
  | _ => Raise AttributeError
  end.

(** What an f-string shows for a value; containers are abbreviated. *)
Definition fmt (j : json) : string :=
  match j with
  | JNull => "None"
  | JBool true => "True"
  | JBool false => "False"
  | JInt z => str z
  | JStr s => s
  | JList _ => "[...]"
  | JDict _ => "{...}"
  end.

Definition set_activeAccountNumber (n : Z) (data : registry) : registry :=
  Registry n (lastUpdated data) (sequence data) (accounts data).

Definition set_lastUpdated (t : json) (data : registry) : registry :=
  Registry (activeAccountNumber data) t (sequence data) (accounts data).

Definition set_sequence (s : list Z) (data : registry) : registry :=
  Registry (activeAccountNumber data) (lastUpdated data) s (accounts data).

Definition set_accounts (acc : dict) (data : registry) : registry :=
  Registry (activeAccountNumber data) (lastUpdated data) (sequence data) acc.

(** The argument of [switch_to_account] and [remove_account]: a string from
    the command line, or an [int] from [switch_to_next_account]. *)
Inductive target : Type :=
| TStr (s : string)
| TInt (z : Z).

(** [str(target_account)] *)
Definition target_str (t : target) : string :=
  match t with
  | TStr s => s
  | TInt z => str z
  end.

(** [int(target_account)] *)
Definition target_int (t : target) : res Z :=
  match t with
  | TStr s =>
      match int s with
      | Some z => Ret z
      | None => Raise (ValueError "invalid literal for int() with base 10")
      end
  | TInt z => Ret z
  end.

(** The loop over [data['accounts'].items()] that looks a profile up by
    email; [wanted] is [str(target_account).lower()]. *)
Fixpoint find_by_email (items : dict) (wanted : string) : res (option Z) :=
  match items with
  | [] => Ret None
  | (acc_num, acc_info) :: rest =>
      address <~ py_get acc_info "emailAddress" (JStr "") ;;
      match address with
      | JStr s =>
          if String.eqb (lower s) wanted
          then
            match int acc_num with
            | Some n => Ret (Some n)
            | None => Raise (ValueError "invalid literal for int() with base 10")
            end
          else find_by_email rest wanted
      | _ => Raise AttributeError
      end
  end.

(** "Find the account number based on input", the block shared by
    [switch_to_account] and [remove_account]. *)
Definition resolve_account (data : registry) (target_account : target)
  : res (option Z) :=
  if isdigit (target_str target_account)
  then
    n <~ target_int target_account ;;
    if bool_decide (n ∈ sequence data) then Ret (Some n) else Ret None
  else find_by_email (accounts data) (lower (target_str target_account)).

(** [l.index(x)]; [None] stands for [ValueError]. *)
Fixpoint list_index (x : Z) (l : list Z) : option nat :=
  match l with
  | [] => None
  | y :: l' => if y =? x then Some 0%nat else option_map S (list_index x l')
  end.

(** [l.remove(x)] on a list that contains [x]: the first occurrence goes. *)
Fixpoint list_remove (x : Z) (l : list Z) : list Z :=
  match l with
  | [] => []
  | y :: l' => if y =? x then l' else y :: list_remove x l'
  end.

(** [l[i]] *)
Definition list_item (l : list Z) (i : nat) : res Z :=
  match l !! i with
  | Some x => Ret x
  | None => Raise IndexError
  end.

(** The [try]/[except ValueError] of [switch_to_next_account]. *)
Definition next_in_sequence (current_active : Z) (seq : list Z) : res Z :=
  match list_index current_active seq with
  | Some current_index =>
      let next_index := ((current_index + 1) mod length seq)%nat in
      list_item seq next_index
  | None => list_item seq 0%nat
  end.

Inductive command : Type :=
| add_account_cmd
| switch_cmd
| switch_to_cmd (t : string)
| remove_account_cmd (t : string).

Section Switcher.

(** Everything below runs against one fixed set of oracles. *)
Variable E : env.

(** [datetime.now().isoformat()] *)
Definition datetime_now : M string := fun w =>
  (Ret (now E (clock w)),
   World (files w) (stdin w) (stdout w) (S (clock w))).

(** [with open(p, 'r', encoding=e) as f: json.load(f)] *)
Definition open_json_load (p : path) (e : encoding) : M json := fun w =>
  match files w !! p with
  | None => (Raise FileNotFoundError, w)
  | Some f =>
      match json_load e f with
      | DecodeFails => (Raise UnicodeDecodeError, w)
      | ParseFails => (Raise JSONDecodeError, w)
      | Parsed j => (Ret j, w)
      end
  end.

(** [with open(p, 'w', encoding='utf-8') as f: json.dump(j, f, indent=2)] *)
Definition open_json_dump (p : path) (j : json) : M unit := fun w =>
  match write_to E p with
  | WriteOk => (Ret tt, set_files (<[p := json_dump j]> (files w)) w)
  | OpenFails => (Raise IOError, w)
  | DumpFails partial =>
      (Raise IOError, set_files (<[p := partial]> (files w)) w)
  end.

(** [src.replace(dst)] *)
Definition path_replace (src dst : path) : M unit := fun w =>
  match files w !! src with
  | None => (Raise FileNotFoundError, w)
  | Some f =>
      if replace_to E dst
      then (Ret tt, set_files (<[dst := f]> (delete src (files w))) w)
      else (Raise IOError, w)
  end.

(** [p.unlink()] *)
Definition unlink (p : path) : M unit := fun w =>
  match files w !! p with
  | None => (Raise FileNotFoundError, w)
  | Some _ =>
      if unlink_at E p
      then (Ret tt, set_files (delete p (files w)) w)
      else (Raise IOError, w)
  end.

(** The constructor: the directories are taken to exist; the registry is
    created, not atomically, when it is missing.  Opening the file and
    dumping the document are one step here, so the clock is read before
    it. *)
Definition __init__ : M unit :=
  present <- exists_ sequence_file ;;
  if negb present
  then
    t <- datetime_now ;;
    open_json_dump sequence_file
      (JDict [("activeAccountNumber", JInt 0);
              ("lastUpdated", JStr t);
              ("sequence", JList []);
              ("accounts", JDict [])])
  else ret tt.

Fixpoint load_sequence_from (encodings : list encoding) : M registry :=
  match encodings with
  | [] =>
      print ("ERROR: Could not read " +:+ path_str sequence_file +:+
             " with any of the attempted encodings: " +:+ encodings_repr) ;;
      raise UnicodeDecodeError
  | encoding :: rest =>
      try_except
        (data <- open_json_load sequence_file encoding ;;
         lift (validate_sequence_data "sequence file" data) ;;
         lift (registry_of_data data))
        (fun e =>
           match e with
           | UnicodeDecodeError => Some (load_sequence_from rest)
           | JSONDecodeError =>
               Some (print ("ERROR: Invalid JSON in " +:+ path_str sequence_file) ;;
                     raise e)
           | FileNotFoundError =>
               Some (print ("ERROR: Sequence file " +:+ path_str sequence_file +:+
                            " not found") ;;
                     raise e)
           | ValueError msg => Some (print ("ERROR: " +:+ msg) ;; raise e)
           | _ => None
           end)
  end.

Definition load_sequence : M registry := load_sequence_from encodings_to_try.

Definition save_sequence (data : registry) : M unit :=
  try_except
    (lift (validate_sequence_data "data" (json_of_registry data)) ;;
     let temp_file := with_suffix sequence_file dot_tmp in
     open_json_dump temp_file (json_of_registry data) ;;
     path_replace temp_file sequence_file)
    (fun e =>
       if is_IOError e
       then Some (print ("ERROR: Could not write to sequence file: " +:+ exn_str e) ;;
                  raise e)
       else if is_ValueError e
       then Some (print ("ERROR: Invalid data format: " +:+ exn_str e) ;; raise e)
       else None).

(** Returns [JNull] where the program returns [None]. *)
Fixpoint load_config_file_from (encodings : list encoding) (file_path : path)
  : M json :=
  match encodings with
  | [] =>
      print ("ERROR: Could not read " +:+ path_str file_path +:+
             " with any of the attempted encodings: " +:+ encodings_repr) ;;
      ret JNull
  | encoding :: rest =>
      try_except
        (open_json_load file_path encoding)
        (fun e =>
           match e with
           | UnicodeDecodeError => Some (load_config_file_from rest file_path)
           | JSONDecodeError =>
               Some (print ("ERROR: Invalid JSON in " +:+ path_str file_path) ;;
                     ret JNull)
           | FileNotFoundError =>
               Some (print ("ERROR: Config file " +:+ path_str file_path +:+
                            " not found") ;;
                     ret JNull)
           | _ => None
           end)
  end.

Definition load_config_file (file_path : path) : M json :=
  load_config_file_from encodings_to_try file_path.

Definition save_config_file (file_path : path) (data : json) : M bool :=
  try_except
    (let '(is_valid, message) := validate_claude_config data in
     if negb is_valid
     then print ("ERROR: Invalid config data - " +:+ message) ;; ret false
     else
       let temp_file := with_suffix file_path dot_tmp in
       open_json_dump temp_file data ;;
       path_replace temp_file file_path ;;
       ret true)
    (fun e =>
       if is_IOError e
       then Some (print ("ERROR: Could not write to config file " +:+
                         path_str file_path +:+ ": " +:+ exn_str e) ;;
                  ret false)
       else None).

Definition get_next_account_number : M Z :=
  data <- load_sequence ;;
  match sequence data with
  | [] => ret 1
  | x :: l => ret (max_list x l + 1)
  end.

Definition get_claude_config : M json :=
  main_present <- exists_ claude_config_file ;;
  main_data <- (if main_present : bool then load_config_file claude_config_file
                else ret JNull) ;;
  if negb (is_none main_data) then ret main_data
  else
    alt_present <- exists_ claude_alt_config_file ;;
    alt_data <- (if alt_present : bool then load_config_file claude_alt_config_file
                 else ret JNull) ;;
    if negb (is_none alt_data) then ret alt_data
    else ret (JDict []).

Definition save_claude_config (config_data : json) : M bool :=
  save_config_file claude_config_file config_data.

Definition backup_account (account_number : Z) (config_data credentials_data : json)
  : M bool :=
  if account_number <=? 0
  then print ("ERROR: Invalid account number " +:+ str account_number) ;; ret false
  else
    let config_file := configs_file account_number in
    config_saved <- save_config_file config_file config_data ;;
    let cred_file := credentials_file account_number in
    cred_saved <- save_config_file cred_file credentials_data ;;
    ret (config_saved && cred_saved).

(** *** The switch engine *)

Definition is_claude_running : M bool :=
  if tasklist_runs E then ret (tasklist_shows_claude E) else ret false.

Definition add_account : M bool :=
  print "Adding current account to managed accounts..." ;;
  try_except
    (current_config <- get_claude_config ;;
     if negb (truthy current_config)
     then
       print "ERROR: No Claude Code configuration found. Please log in to Claude Code first." ;;
       ret false
     else
       let '(is_valid, message) := validate_claude_config current_config in
       if negb is_valid
       then print ("ERROR: Invalid Claude Code config - " +:+ message) ;; ret false
       else
         oauth_account <- lift (getitem current_config "oauthAccount") ;;
         email <- lift (py_get oauth_account "emailAddress" (JStr "Unknown")) ;;
         uuid <- lift (py_get oauth_account "accountUuid" (JStr "Unknown")) ;;
         display_name <- lift (py_get oauth_account "displayName" (JStr "Unknown")) ;;
         account_number <- get_next_account_number ;;
         added <- datetime_now ;;
         let account_info :=
           JDict [("email", email); ("uuid", uuid);
                  ("displayName", display_name); ("added", JStr added)] in
         data <- load_sequence ;;
         let data := set_sequence (sequence data ++ [account_number]) data in
         let data :=
           set_accounts (Dict.set (str account_number) account_info (accounts data))
                        data in
         let data := set_activeAccountNumber account_number data in
         updated <- datetime_now ;;
         let data := set_lastUpdated (JStr updated) data in
         save_sequence data ;;
         success <- backup_account account_number current_config current_config ;;
         if success : bool
         then
           print ("Account '" +:+ fmt email +:+ "' added successfully as account #" +:+
                  str account_number) ;;
           ret true
         else
           print ("ERROR: Failed to backup account #" +:+ str account_number) ;;
           ret false)
    (fun e =>
       if is_Exception e
       then Some (print ("ERROR: Failed to add account: " +:+ exn_str e) ;; ret false)
       else None).

(** [try: data = self.load_sequence() except (json.JSONDecodeError,
    ValueError, FileNotFoundError): ...; return False], with [None] for the
    early return. *)
Definition load_sequence_or_report : M (option registry) :=
  try_except
    (data <- load_sequence ;; ret (Some data))
    (fun e =>
       if is_ValueError e || is_FileNotFoundError e
       then Some (print "ERROR: Could not load account sequence data." ;; ret None)
       else None).

(** The second [input] of the liveness check, in its [except] clause. *)
Definition confirm_after_probe_failure : M bool :=
  print "WARNING: Could not determine if Claude Code is running. Please ensure it's closed before switching." ;;
  response <- input "Continue anyway? (y/N): " ;;
  if negb (String.eqb (lower response) "y")
  then print "Account switch cancelled." ;; ret false
  else ret true.

(** The liveness check; the result says whether the switch goes on. *)
Definition confirm_not_running : M bool :=
  try_except
    (running <- is_claude_running ;;
     if running : bool
     then
       print "WARNING: Claude Code appears to be running." ;;
       print "Please close Claude Code before switching accounts to avoid conflicts." ;;
       response <- input "Continue anyway? (y/N): " ;;
       if negb (String.eqb (lower response) "y")
       then print "Account switch cancelled." ;; ret false
       else ret true
     else ret true)
    (fun e => if is_Exception e then Some confirm_after_probe_failure else None).

(** The best-effort backup of the outgoing profile. *)
Definition backup_current (data : registry) : M unit :=
  try_except
    (current_config <- get_claude_config ;;
     if truthy current_config
     then
       let current_account_num := activeAccountNumber data in
       if 0 <? current_account_num
       then backup_account current_account_num current_config current_config ;; ret tt
       else ret tt
     else ret tt)
    (fun e =>
       if is_Exception e
       then Some (print ("WARNING: Could not backup current config: " +:+ exn_str e))
       else None).

Definition switch_to_account (target_account : target) : M bool :=
  loaded <- load_sequence_or_report ;;
  match loaded with
  | None => ret false
  | Some data =>
      found <- lift (resolve_account data target_account) ;;
      match found with
      | None =>
          print ("ERROR: Account '" +:+ target_str target_account +:+ "' not found.") ;;
          ret false
      | Some account_number =>
          let config_file := configs_file account_number in
          present <- exists_ config_file ;;
          if negb present
          then
            print ("ERROR: Configuration file for account #" +:+ str account_number +:+
                   " not found.") ;;
            ret false
          else
            proceed <- confirm_not_running ;;
            if negb proceed then ret false
            else
              target_config <- load_config_file config_file ;;
              if is_none target_config
              then
                print ("ERROR: Could not load config for account #" +:+
                       str account_number) ;;
                ret false
              else
                let '(is_valid, message) := validate_claude_config target_config in
                if negb is_valid
                then
                  print ("ERROR: Invalid config for account #" +:+ str account_number +:+
                         " - " +:+ message) ;;
                  ret false
                else
                  backup_current data ;;
                  applied <- save_claude_config target_config ;;
                  if negb applied
                  then
                    print "ERROR: Failed to save new Claude Code configuration." ;;
                    ret false
                  else
                    let data := set_activeAccountNumber account_number data in
                    updated <- datetime_now ;;
                    let data := set_lastUpdated (JStr updated) data in
                    saved <- try_except
                               (save_sequence data ;; ret true)
                               (fun e =>
                                  if is_Exception e
                                  then Some (print ("ERROR: Could not update sequence file: "
                                                    +:+ exn_str e) ;;
                                             ret false)
                                  else None) ;;
                    if negb saved then ret false
                    else
                      target_email <-
                        lift (info <~ py_get (JDict (accounts data))
                                             (str account_number) (JDict []) ;;
                              py_get info "email" (JStr "Unknown")) ;;
                      print ("Switched to account #" +:+ str account_number +:+ ": " +:+
                             fmt target_email) ;;
                      ret true
      end
  end.

Definition switch_to_next_account : M bool :=
  data <- load_sequence ;;
  let current_active := activeAccountNumber data in
  match sequence data with
  | [] => print "No accounts registered." ;; ret false
  | _ :: _ =>
      next_account <- lift (next_in_sequence current_active (sequence data)) ;;
      switch_to_account (TInt next_account)
  end.

(** The best-effort removal of the two backup files. *)
Definition unlink_backups (account_number : Z) : M unit :=
  try_except
    (let config_file := configs_file account_number in
     let cred_file := credentials_file account_number in
     config_present <- exists_ config_file ;;
     (if config_present : bool then unlink config_file else ret tt) ;;
     cred_present <- exists_ cred_file ;;
     (if cred_present : bool then unlink cred_file else ret tt))
    (fun e =>
       if is_Exception e
       then Some (print ("WARNING: Could not remove config files for account #" +:+
                         str account_number +:+ ": " +:+ exn_str e))
       else None).

Definition remove_account (target_account : target) : M bool :=
  loaded <- load_sequence_or_report ;;
  match loaded with
  | None => ret false
  | Some data =>
      found <- lift (resolve_account data target_account) ;;
      match found with
      | None =>
          print ("ERROR: Account '" +:+ target_str target_account +:+ "' not found.") ;;
          ret false
      | Some account_number =>
          account_email <-
            lift (info <~ py_get (JDict (accounts data))
                                 (str account_number) (JDict []) ;;
                  py_get info "emailAddress" (JStr "Unknown")) ;;
          print ("Removing account #" +:+ str account_number +:+ ": " +:+
                 fmt account_email) ;;
          response <- input "Are you sure you want to remove this account? (y/N): " ;;
          if negb (String.eqb (lower response) "y")
          then print "Account removal cancelled." ;; ret false
          else
            let data :=
              if bool_decide (account_number ∈ sequence data)
              then set_sequence (list_remove account_number (sequence data)) data
              else data in
            let data :=
              if Dict.contains (str account_number) (accounts data)
              then set_accounts (Dict.del (str account_number) (accounts data)) data
              else data in
            let data :=
              if activeAccountNumber data =? account_number
              then
                match sequence data with
                | first :: _ => set_activeAccountNumber first data
                | [] => set_activeAccountNumber 0 data
                end
              else data in
            updated <- datetime_now ;;
            let data := set_lastUpdated (JStr updated) data in
            saved <- try_except
                       (save_sequence data ;; ret true)
                       (fun e =>
                          if is_Exception e
                          then Some (print ("ERROR: Could not save updated sequence: "
                                            +:+ exn_str e) ;;
                                     ret false)
                          else None) ;;
            if negb saved then ret false
            else
              unlink_backups account_number ;;
              print ("Account #" +:+ str account_number +:+ " removed successfully.") ;;
              ret true
      end
  end.

(** [main], without [--list], which only prints.  An empty argument string
    is falsy and selects no command. *)
Definition main (args : command) : M unit :=
  __init__ ;;
  match args with
  | add_account_cmd => add_account ;; ret tt
  | switch_cmd => switch_to_next_account ;; ret tt
  | switch_to_cmd t =>
      if String.eqb t "" then ret tt else switch_to_account (TStr t) ;; ret tt
  | remove_account_cmd t =>
      if String.eqb t "" then ret tt else remove_account (TStr t) ;; ret tt
  end.

End Switcher.

(** * Specification vocabulary *)

(** ** Weakest preconditions and frames *)

Definition wp {A} (m : M A) (Q : res A → world → Prop) (w : world) : Prop :=
  Q (m w).1 (m w).2.

(** [w'] agrees with [w] on every path whose stem is in [K]. *)
Definition untouched (K : stem → Prop) (w w' : world) : Prop :=
  ∀ q : path, K q.1 → files w' !! q = files w !! q.

(** [m] never writes a path whose stem is in [K]. *)
Definition frame (K : stem → Prop) {A} (m : M A) : Prop :=
  ∀ w, untouched K w (m w).2.

(** The registry and its temporary sibling. *)
Definition registry_stem (s : stem) : Prop := s = Sequence.

(** ** The registry invariant *)

(** The metadata record [add_account] builds. *)
Definition account_record (j : json) : Prop :=
  ∃ email uuid display_name added,
    j = JDict [("email", email); ("uuid", uuid);
               ("displayName", display_name); ("added", added)].

Record registry_ok (data : registry) : Prop := RegistryOk {
  ok_keys : Dict.keys (accounts data) = map str (sequence data);
  ok_nodup : NoDup (sequence data);
  ok_positive : Forall (λ n, 1 ≤ n) (sequence data);
  ok_active :
    activeAccountNumber data = 0 ∨ activeAccountNumber data ∈ sequence data;
  ok_records : Forall (λ kv : string * json, account_record kv.2) (accounts data)
}.

(** The registry file holds [data], as [save_sequence] writes it. *)
Definition stored (w : world) (data : registry) : Prop :=
  files w !! sequence_file = Some (json_dump (json_of_registry data)).

Definition invariant (w : world) : Prop :=
  ∃ data, stored w data ∧ registry_ok data.

(** The registry right after a first run created it. *)
Definition initial (w : world) : Prop :=
  ∃ t, stored w (Registry 0 (JStr t) [] []).

(** What the host application and the user may change between two
    invocations: the live config files, the console and the clock. *)
Definition outside_change (w w' : world) : Prop :=
  ∀ q : path,
    q ≠ claude_config_file → q ≠ claude_alt_config_file →
    files w' !! q = files w !! q.

Inductive reachable : world → Prop :=
| reach_initial w : initial w → reachable w
| reach_command E args w : reachable w → reachable (main E args w).2
| reach_outside w w' : reachable w → outside_change w w' → reachable w'.

(** The registry [remove_account] builds for the profile [n], before the
    time stamp. *)
Definition removed (n : Z) (data : registry) : registry :=
  let data :=
    if bool_decide (n ∈ sequence data)
    then set_sequence (list_remove n (sequence data)) data
    else data in
  let data :=
    if Dict.contains (str n) (accounts data)
    then set_accounts (Dict.del (str n) (accounts data)) data
    else data in
  if activeAccountNumber data =? n
  then
    match sequence data with
    | first :: _ => set_activeAccountNumber first data
    | [] => set_activeAccountNumber 0 data
    end
  else data.

(** The identifier [get_next_account_number] hands out. *)
Definition next_id (data : registry) : Z :=
  match sequence data with
  | [] => 1
  | x :: l => max_list x l + 1
  end.

(** The oracles let the atomic write of [p] go through. *)
Definition write_succeeds (E : env) (p : path) : Prop :=
  write_to E (with_suffix p dot_tmp) = WriteOk ∧ replace_to E p = true.

Definition valid_config (data : json) : Prop :=
  (validate_claude_config data).1 = true.

(** Either the registry file is as it was and the call did not succeed, or
    the live config was written. *)
Definition switch_outcome (E : env) (kept : option file)
    (r : res bool) (w' : world) : Prop :=
  (files w' !! sequence_file = kept ∧ r ≠ Ret true) ∨
  (write_succeeds E claude_config_file ∧
   ∃ cfg, valid_config cfg ∧
          files w' !! claude_config_file = Some (json_dump cfg)).

(** How a call of [add_account] can end: the registry file is as it was
    and the call did not succeed, or the registry was saved as [data] and
    the call succeeded exactly when both copies of the backup were written. *)
Definition add_outcome (E : env) (kept : option file)
    (r : res bool) (w' : world) : Prop :=
  (files w' !! sequence_file = kept ∧ r ≠ Ret true) ∨
  (∃ data cfg,
     let n := activeAccountNumber data in
     write_succeeds E sequence_file ∧ stored w' data ∧
     ((r = Ret true ∧
       write_succeeds E (configs_file n) ∧
       write_succeeds E (credentials_file n) ∧
       files w' !! configs_file n = Some (json_dump cfg) ∧
       files w' !! credentials_file n = Some (json_dump cfg)) ∨
      r = Ret false)).

(** A payload with an identity section, in the words of the spec: a
    dictionary containing an 'oauthAccount' dictionary with both
    'emailAddress' and 'accountUuid' keys. *)
Definition has_identity (data : json) : Prop :=
  ∃ d oauth_account,
    data = JDict d ∧
    Dict.get "oauthAccount" d = Some (JDict oauth_account) ∧
    Dict.contains "emailAddress" oauth_account = true ∧
    Dict.contains "accountUuid" oauth_account = true.

(** The read of the Durable Store in the words of the spec: the candidate
    encodings are attempted in order and the first that decodes is
    accepted, whether its text then parses or not; when none decodes the
    read fails with a decoding error. *)
Fixpoint first_decoding (encodings : list encoding) (f : file) : decoded :=
  match encodings with
  | [] => DecodeFails
  | e :: rest =>
      match json_load e f with
      | DecodeFails => first_decoding rest f
      | outcome => outcome
      end
  end.

(** What [load_config_file] returns for the content of a path. *)
Definition read_config (content : option file) : json :=
  match content with
  | None => JNull
  | Some f =>
      match first_decoding encodings_to_try f with
      | Parsed j => j
      | _ => JNull
      end
  end.

(** The value of a computation that did not raise. *)
Definition option_ret {A} (r : res A) : option A :=
  match r with
  | Ret a => Some a
  | Raise _ => None
  end.

(** The world after one more line on the console. *)
Definition printed (w : world) (line : string) : world :=
  World (files w) (stdin w) (stdout w ++ [line]) (clock w).

(** ** Example runs *)

Definition clock_reading (n : nat) : string :=
  "2025-01-0" +:+ str (Z.of_nat (S n)) +:+ "T09:00:00".

(** Nothing fails and the host application is not running. *)
Definition quiet : env :=
  Env clock_reading false true (λ _, WriteOk) (λ _, true) (λ _, true).

(** Renaming onto the live config fails; everything else works. *)
Definition live_config_locked : env :=
  Env clock_reading false true (λ _, WriteOk)
      (λ p, negb (bool_decide (p = claude_config_file))) (λ _, true).

(** Writing the credentials copy of a backup fails. *)
Definition credentials_full : env :=
  Env clock_reading false true
      (λ p, match p.1 with Credentials _ => OpenFails | _ => WriteOk end)
      (λ _, true) (λ _, true).

Definition config_a : json :=
  JDict [("oauthAccount",
          JDict [("emailAddress", JStr "a@x.com"); ("accountUuid", JStr "u1")])].

(** The same account after the host application refreshed its token. *)
Definition config_a_refreshed : json :=
  JDict [("oauthAccount",
          JDict [("emailAddress", JStr "a@x.com"); ("accountUuid", JStr "u1")]);
         ("token", JStr "refreshed")].

Definition config_b : json :=
  JDict [("oauthAccount",
          JDict [("emailAddress", JStr "b@x.com"); ("accountUuid", JStr "u2")])].

(** A backup written by hand in Latin-1 with an accented letter: neither
    UTF-8 codec decodes it. *)
Definition latin_1_file (j : json) : file :=
  File DecodeFails DecodeFails (Parsed j) (Parsed j).

Definition legacy_backup : world :=
  World {[configs_file 1 := latin_1_file config_a]} [] [] 0.

(** What the user and the host application do between two invocations. *)
Definition type_lines (lines : list string) (w : world) : world :=
  World (files w) lines (stdout w) (clock w).

Definition log_in (live : json) (w : world) : world :=
  World (<[claude_config_file := json_dump live]> (files w))
        (stdin w) (stdout w) (clock w).

(** A first run on a machine where [a@x.com] is logged in. *)
Definition first_run : world :=
  (__init__ quiet (World {[claude_config_file := json_dump config_a]} [] [] 0)).2.

Definition one_account : world := (main quiet add_account_cmd first_run).2.

Definition two_accounts : world :=
  (main quiet add_account_cmd (log_in config_b one_account)).2.

Definition three_accounts : world :=
  (main quiet add_account_cmd (log_in config_a two_accounts)).2.

(** [a@x.com] is registered and active; the host application then
    refreshed the token in the live config. *)
Definition token_refreshed : world := log_in config_a_refreshed one_account.

Definition three_registry : registry :=
  Registry 3 (JStr "2025-01-07T09:00:00") [1; 2; 3]
    [("1", JDict [("email", JStr "a@x.com"); ("uuid", JStr "u1");
                  ("displayName", JStr "Unknown");
                  ("added", JStr "2025-01-02T09:00:00")]);
     ("2", JDict [("email", JStr "b@x.com"); ("uuid", JStr "u2");
                  ("displayName", JStr "Unknown");
                  ("added", JStr "2025-01-04T09:00:00")]);
     ("3", JDict [("email", JStr "a@x.com"); ("uuid", JStr "u1");
                  ("displayName", JStr "Unknown");
                  ("added", JStr "2025-01-06T09:00:00")])].

Definition third_removed : world :=
  (main quiet (remove_account_cmd "3") (type_lines ["y"] three_accounts)).2.

(** * The listing and the command line *)

(** [c * n] *)
Fixpoint replicate_char (c : ascii) (n : nat) : string :=
  match n with
  | O => EmptyString
  | S n' => String c (replicate_char c n')
  end.

(** [f"{s:<width}"] for a [str]: padded on the right, never cut. *)
Definition ljust (s : string) (width : nat) : string :=
  s +:+ replicate_char " " (width - String.length s).

(** [format(j, '<width')].  An [int] and a [bool] are formatted as
    integers; [None], a list and a dictionary reject the format spec. *)
Definition format_left (j : json) (width : nat) : res string :=
  match j with
  | JStr s => Ret (ljust s width)
  | JInt z => Ret (ljust (str z) width)
  | JBool b => Ret (ljust (if b then "1" else "0") width)
  | _ => Raise TypeError
  end.

Definition list_header : string :=
  ljust "#" 4 +:+ " " +:+ ljust "Display Name" 20 +:+ " " +:+
  ljust "Email" 30 +:+ " " +:+ ljust "UUID" 36 +:+ " " +:+ "Status".

(** The body of the loop of [list_accounts], up to the line it prints. *)
Definition list_row (active_account_num : Z) (accs : dict) (acc_num : Z)
  : res string :=
  account_info <~ py_get (JDict accs) (str acc_num) (JDict []) ;;
  display_name <~ py_get account_info "displayName" (JStr "Unknown") ;;
  email <~ py_get account_info "email" (JStr "Unknown") ;;
  uuid <~ py_get account_info "uuid" (JStr "Unknown") ;;
  let status := if acc_num =? active_account_num then "ACTIVE" else "" in
  shown_name <~ format_left display_name 20 ;;
  shown_email <~ format_left email 30 ;;
  shown_uuid <~ format_left uuid 36 ;;
  Ret (ljust (str acc_num) 4 +:+ " " +:+ shown_name +:+ " " +:+
       shown_email +:+ " " +:+ shown_uuid +:+ " " +:+ status).

(** [for acc_num in data['sequence']: ...] *)
Fixpoint list_rows (active_account_num : Z) (accs : dict) (seq : list Z)
  : M unit :=
  match seq with
  | [] => ret tt
  | acc_num :: rest =>
      row <- lift (list_row active_account_num accs acc_num) ;;
      print row ;;
      list_rows active_account_num accs rest
  end.

Definition list_accounts : M unit :=
  loaded <- load_sequence_or_report ;;
  match loaded with
  | None => ret tt
  | Some data =>
      let active_account_num := activeAccountNumber data in
      match sequence data with
      | [] => print "No accounts registered yet."
      | _ :: _ =>
          print list_header ;;
          print (replicate_char "-" 90) ;;
          list_rows active_account_num (accounts data) (sequence data)
      end
  end.

(** What [parser.parse_args()] returns. *)
Record cli_args : Type := CliArgs {
  arg_list : bool;
  arg_add_account : bool;
  arg_switch : bool;
  arg_switch_to : option string;
  arg_remove_account : option string
}.

(** [if args.x:] for an optional string argument. *)
Definition given (a : option string) : bool :=
  match a with
  | Some t => negb (String.eqb t "")
  | None => false
  end.

(** [main] with all its options; the help text is not modelled. *)
Definition main_cli (E : env) (args : cli_args) : M unit :=
  __init__ E ;;
  if arg_list args then list_accounts
  else if arg_add_account args then add_account E ;; ret tt
  else if arg_switch args then switch_to_next_account E ;; ret tt
  else if given (arg_switch_to args)
  then switch_to_account E (TStr (default "" (arg_switch_to args))) ;; ret tt
  else if given (arg_remove_account args)
  then remove_account E (TStr (default "" (arg_remove_account args))) ;; ret tt
  else ret tt.

(** ** Vocabulary of the further properties *)

(** No step of [m] writes a file. *)
Definition read_only {A} (m : M A) : Prop :=
  ∀ w, files (m w).2 = files w.

(** The record [add_account] stores for a payload at a clock reading. *)
Definition account_info_of (oauth_account : dict) (added : string) : json :=
  JDict [("email", default (JStr "Unknown") (Dict.get "emailAddress" oauth_account));
         ("uuid", default (JStr "Unknown") (Dict.get "accountUuid" oauth_account));
         ("displayName",
          default (JStr "Unknown") (Dict.get "displayName" oauth_account));
         ("added", JStr added)].

(** The identity section of a payload. *)
Definition oauth_account_of (config : json) : dict :=
  match config with
  | JDict d =>
      match Dict.get "oauthAccount" d with
      | Some (JDict o) => o
      | _ => []
      end
  | _ => []
  end.

(** The document [get_claude_config] finds in a file system. *)
Definition live_config (fs : gmap path file) : json :=
  let main_data := read_config (fs !! claude_config_file) in
  let alt_data := read_config (fs !! claude_alt_config_file) in
  if negb (is_none main_data) then main_data
  else if negb (is_none alt_data) then alt_data
  else JDict [].

(** [k] steps along the cycle of [switch_to_next_account]. *)
Fixpoint next_n (k : nat) (seq : list Z) (a : Z) : res Z :=
  match k with
  | O => Ret a
  | S k' => b <~ next_in_sequence a seq ;; next_n k' seq b
  end.

(** Every value a row of the listing shows can be formatted. *)
Definition formattable (j : json) : Prop :=
  match j with
  | JStr _ | JInt _ | JBool _ => True
  | _ => False
  end.

(** More example runs. *)

(** The host application is running and nobody answers the prompt. *)
Definition claude_running : env :=
  Env clock_reading true true (λ _, WriteOk) (λ _, true) (λ _, true).

(** The backup directory is read-only: no backup copy can be written. *)
Definition backups_locked : env :=
  Env clock_reading false true
      (λ p, match p.1 with
            | Configs _ | Credentials _ => OpenFails
            | _ => WriteOk
            end)
      (λ _, true) (λ _, true).

(** Backup files cannot be deleted. *)
Definition unlink_denied : env :=
  Env clock_reading false true (λ _, WriteOk) (λ _, true) (λ _, false).

(** A live config whose address is null: it has both required keys. *)
Definition config_null_email : json :=
  JDict [("oauthAccount",
          JDict [("emailAddress", JNull); ("accountUuid", JStr "u9")])].

(** A machine without any file. *)
Definition empty_world : world := World ∅ [] [] 0.

(** A registry document that lost its time stamp. *)
Definition registry_without_stamp : world :=
  World {[sequence_file :=
            json_dump (JDict [("activeAccountNumber", JInt 0);
                              ("sequence", JList []);
                              ("accounts", JDict [])])]} [] [] 0.

(** A registry document whose sequence is not a list. *)
Definition registry_with_bad_sequence : world :=
  World {[sequence_file :=
            json_dump (JDict [("activeAccountNumber", JInt 0);
                              ("lastUpdated", JStr "2025-01-01T09:00:00");
                              ("sequence", JStr "1,2");
                              ("accounts", JDict [])])]} [] [] 0.

(** A registry file that is not JSON. *)
Definition registry_corrupt : world :=
  World {[sequence_file := File ParseFails ParseFails ParseFails ParseFails;
          configs_file 1 := json_dump config_a]} ["y"] [] 0.

(** Only the alternative live config exists. *)
Definition only_alt_config : world :=
  World {[claude_alt_config_file := json_dump config_b]} [] [] 0.

(** The three values a row of the listing formats for the profile [n]. *)
Definition row_fields (accs : dict) (n : Z) : list json :=
  let info :=
    match Dict.get (str n) accs with
    | Some (JDict d) => d
    | _ => []
    end in
  [default (JStr "Unknown") (Dict.get "displayName" info);
   default (JStr "Unknown") (Dict.get "email" info);
   default (JStr "Unknown") (Dict.get "uuid" info)].

(** A first run and [--add-account] on a machine whose live config has a
    null address. *)
Definition null_email_registered : world :=
  (main quiet add_account_cmd
     (__init__ quiet
        (World {[claude_config_file := json_dump config_null_email]} [] [] 0)).2).2.

(** [--list] together with [--add-account]. *)
Definition list_and_add : cli_args := CliArgs true true false None None.

(** Renaming onto the registry fails; everything else works. *)
Definition registry_locked : env :=
  Env clock_reading false true (λ _, WriteOk)
      (λ p, negb (bool_decide (p = sequence_file))) (λ _, true).

(** Two profiles, the first one active, its token refreshed by the host
    application since the backup was made. *)
Definition refreshed_on_first : world :=
  World {[sequence_file :=
            json_dump (json_of_registry
                         (Registry 1 (JStr "2025-01-06T09:00:00") [1; 2]
                            (firstn 2 (accounts three_registry))));
          configs_file 1 := json_dump config_a;
          configs_file 2 := json_dump config_b;
          claude_config_file := json_dump config_a_refreshed]} [] [] 0.

(** * Basic facts *)

Lemma to_int_not_nil (z : Z) : Z.to_int z ≠ Decimal.Pos Decimal.Nil ∧ Z.to_int z ≠ Decimal.Neg Decimal.Nil.
Proof.
  destruct z as [|p|p]; simpl; split; try discriminate.
  - intros [= H]. by apply Unsigned.to_uint_nonnil in H.
  - intros [= H]. by apply Unsigned.to_uint_nonnil in H.
Qed.

Lemma int_str (z : Z) : int (str z) = Some z.
Proof.
  unfold int, str. destruct (to_int_not_nil z) as [H1 H2].
  rewrite NilZero.isi by done. simpl. by rewrite DecimalZ.of_to.
Qed.

Lemma str_inj (a b : Z) : str a = str b → a = b.
Proof.
  intros H. assert (Some a = Some b) as [= ->]; [|done].
  by rewrite <- !int_str, H.
Qed.

Lemma untouched_refl K w : untouched K w w.
Proof. by intros q _. Qed.

Lemma untouched_trans K w1 w2 w3 :
  untouched K w1 w2 → untouched K w2 w3 → untouched K w1 w3.
Proof. intros H12 H23 q Hq. rewrite H23, H12; done. Qed.

Lemma untouched_same K w w' : files w' = files w → untouched K w w'.
Proof. intros H q _. by rewrite H. Qed.

Section Frames.
Context (K : stem → Prop).

Lemma frame_ret {A} (a : A) : frame K (ret a).
Proof. intros w. apply untouched_refl. Qed.

Lemma frame_raise {A} e : frame K (@raise A e).
Proof. intros w. apply untouched_refl. Qed.

Lemma frame_lift {A} (r : res A) : frame K (lift r).
Proof. intros w. apply untouched_refl. Qed.

Lemma frame_bind {A B} (m : M A) (k : A → M B) :
  frame K m → (∀ a, frame K (k a)) → frame K (bind m k).
Proof.
  intros Hm Hk w. unfold bind. specialize (Hm w).
  destruct (m w) as [[a|e] w1]; simpl in *; [|done].
  eapply untouched_trans; [done|apply Hk].
Qed.

Lemma frame_try {A} (m : M A) h :
  frame K m → (∀ e k, h e = Some k → frame K k) → frame K (try_except m h).
Proof.
  intros Hm Hh w. unfold try_except. specialize (Hm w).
  destruct (m w) as [[a|e] w1]; simpl in *; [done|].
  destruct (h e) as [k|] eqn:He; [|done].
  eapply untouched_trans; [done|by eapply Hh].
Qed.

Lemma frame_print line : frame K (print line).
Proof. intros w. by apply untouched_same. Qed.

Lemma frame_input prompt : frame K (input prompt).
Proof. intros w. unfold input. destruct (stdin w); by apply untouched_same. Qed.

Lemma frame_exists p : frame K (exists_ p).
Proof. intros w. apply untouched_refl. Qed.

Lemma frame_datetime_now E : frame K (datetime_now E).
Proof. intros w. by apply untouched_same. Qed.

Lemma frame_open_json_load p e : frame K (open_json_load p e).
Proof.
  intros w. unfold open_json_load.
  destruct (files w !! p) as [f|]; [destruct (json_load e f)|]; apply untouched_refl.
Qed.

Lemma frame_open_json_dump E p j : ¬ K p.1 → frame K (open_json_dump E p j).
Proof.
  intros Hp w q Hq. unfold open_json_dump.
  destruct (write_to E p); simpl; try done;
    rewrite lookup_insert_ne; naive_solver.
Qed.

Lemma frame_path_replace E src dst :
  ¬ K src.1 → ¬ K dst.1 → frame K (path_replace E src dst).
Proof.
  intros Hs Hd w q Hq. unfold path_replace.
  repeat case_match; simpl; try done.
  rewrite lookup_insert_ne, lookup_delete_ne; naive_solver.
Qed.

Lemma frame_unlink E p : ¬ K p.1 → frame K (unlink E p).
Proof.
  intros Hp w q Hq. unfold unlink.
  repeat case_match; simpl; try done.
  rewrite lookup_delete_ne; naive_solver.
Qed.
End Frames.

Create HintDb frames.

#[local] Hint Resolve frame_open_json_dump frame_path_replace frame_unlink : frames.
#[local] Hint Extern 1 (¬ registry_stem _) => (intros ?; discriminate) : frames.

Ltac frame_step :=
  first
    [ solve [eauto 3 with frames]
    | apply frame_ret | apply frame_raise | apply frame_lift | apply frame_print
    | apply frame_input | apply frame_exists | apply frame_datetime_now
    | apply frame_open_json_load
    | apply frame_bind | apply frame_try
    | progress intros
    | progress simplify_eq
    | case_match ].

Ltac solve_frame := repeat frame_step.

Lemma frame_load_sequence_from K encs : frame K (load_sequence_from encs).
Proof.
  induction encs as [|e encs IH]; simpl; solve_frame.
Qed.
#[local] Hint Resolve frame_load_sequence_from : frames.

Lemma frame_load_config_file_from K encs p : frame K (load_config_file_from encs p).
Proof.
  induction encs as [|e encs IH]; simpl; solve_frame.
Qed.
#[local] Hint Resolve frame_load_config_file_from : frames.

Lemma frame_save_config_file K E p data :
  ¬ K p.1 → frame K (save_config_file E p data).
Proof.
  intros Hp. unfold save_config_file. solve_frame.
Qed.
#[local] Hint Resolve frame_save_config_file : frames.

Lemma ints_of_map l : ints_of (map JInt l) = Some l.
Proof. induction l as [|x l IH]; simpl; [done|by rewrite IH]. Qed.

Lemma validate_json_of_registry place data :
  validate_sequence_data place (json_of_registry data) = Ret tt.
Proof. reflexivity. Qed.

Lemma registry_of_json_of_registry data :
  registry_of_data (json_of_registry data) = Ret data.
Proof. destruct data. unfold registry_of_data. simpl. by rewrite ints_of_map. Qed.

Lemma load_sequence_stored w data :
  stored w data → load_sequence w = (Ret data, w).
Proof.
  intros H. unfold load_sequence, encodings_to_try.
  cbn [load_sequence_from].
  unfold try_except, bind, open_json_load. rewrite H.
  cbn [json_load json_dump as_utf_8]. unfold lift.
  by rewrite validate_json_of_registry, registry_of_json_of_registry.
Qed.

(** ** Lists and dictionaries *)

Lemma max_list_ge x l : x ≤ max_list x l ∧ ∀ y, y ∈ l → y ≤ max_list x l.
Proof.
  unfold max_list. revert x. induction l as [|a l IH]; intros x; simpl.
  - split; [lia|]. intros y Hy. by apply elem_of_nil in Hy.
  - destruct (IH (Z.max x a)) as [H1 H2]. split; [lia|].
    intros y [->|Hy]%elem_of_cons; [lia|auto].
Qed.

Lemma max_list_elem x l : max_list x l ∈ x :: l.
Proof.
  unfold max_list. revert x. induction l as [|a l IH]; intros x; simpl.
  - apply list_elem_of_here.
  - specialize (IH (Z.max x a)).
    apply elem_of_cons in IH as [H|H].
    + rewrite H. destruct (Z.max_spec x a) as [[_ ->]|[_ ->]];
        [apply list_elem_of_further, list_elem_of_here|apply list_elem_of_here].
    + by do 2 apply list_elem_of_further.
Qed.

Lemma next_id_greater data n : n ∈ sequence data → n < next_id data.
Proof.
  unfold next_id. destruct (sequence data) as [|x l]; intros Hn.
  - by apply elem_of_nil in Hn.
  - destruct (max_list_ge x l) as [H1 H2].
    apply elem_of_cons in Hn as [->|Hn]; [lia|]. specialize (H2 _ Hn). lia.
Qed.

Lemma next_id_positive data :
  Forall (λ n, 1 ≤ n) (sequence data) → 1 ≤ next_id data.
Proof.
  unfold next_id. destruct (sequence data) as [|x l]; [lia|].
  intros H. inversion H as [|? ? Hx _]; subst.
  destruct (max_list_ge x l) as [H1 _]. lia.
Qed.

Lemma list_remove_subseteq n l : list_remove n l ⊆ l.
Proof.
  induction l as [|y l IH]; simpl; [done|].
  intros m Hm. destruct (y =? n).
  - by apply list_elem_of_further.
  - apply elem_of_cons in Hm as [->|Hm];
      [apply list_elem_of_here|by apply list_elem_of_further, IH].
Qed.

Lemma list_remove_other n m l : m ∈ l → m ≠ n → m ∈ list_remove n l.
Proof.
  induction l as [|y l IH]; simpl; [done|].
  intros Hm Hne. destruct (Z.eqb_spec y n) as [->|Hy];
    apply elem_of_cons in Hm as [->|Hm]; try done.
  - apply list_elem_of_here.
  - by apply list_elem_of_further, IH.
Qed.

Lemma list_remove_nodup n l : NoDup l → NoDup (list_remove n l).
Proof.
  induction 1 as [|y l Hy Hl IH]; simpl; [constructor|].
  destruct (y =? n); [done|]. constructor; [|done].
  intros H. by apply list_remove_subseteq in H.
Qed.

Lemma list_remove_Forall (P : Z → Prop) n l : Forall P l → Forall P (list_remove n l).
Proof.
  induction 1 as [|y l Hy Hl IH]; simpl; [constructor|].
  destruct (y =? n); [done|by constructor].
Qed.

Lemma dict_del_Forall (P : string * json → Prop) k d :
  Forall P d → Forall P (Dict.del k d).
Proof.
  induction 1 as [|[k' v] d Hy Hl IH]; simpl; [constructor|].
  destruct (String.eqb k' k); [done|by constructor].
Qed.

Lemma dict_keys_set_fresh k v d :
  Dict.contains k d = false → Dict.set k v d = (d ++ [(k, v)])%list.
Proof.
  induction d as [|[k' v'] d IH]; simpl; [done|].
  destruct (String.eqb k' k); [done|]. intros H. by rewrite IH.
Qed.

Lemma dict_contains_keys k d : Dict.contains k d = true ↔ k ∈ Dict.keys d.
Proof.
  induction d as [|[k' v'] d IH]; simpl.
  - split; [done|]. intros H. by apply elem_of_nil in H.
  - destruct (String.eqb_spec k' k) as [->|Hne].
    + split; [intros _; apply list_elem_of_here|done].
    + rewrite IH. split; [apply list_elem_of_further|].
      intros [?|?]%elem_of_cons; [congruence|done].
Qed.

Lemma str_eqb a b : String.eqb (str a) (str b) = (a =? b).
Proof.
  destruct (String.eqb_spec (str a) (str b)) as [H|H];
    destruct (Z.eqb_spec a b) as [H'|H']; try done.
  - by apply str_inj in H.
  - by subst.
Qed.

Lemma dict_del_keys n acc seq :
  Dict.keys acc = map str seq →
  Dict.keys (Dict.del (str n) acc) = map str (list_remove n seq).
Proof.
  revert seq. induction acc as [|[k v] acc IH]; intros [|y seq]; simpl; try done.
  intros [= -> Hk]. rewrite str_eqb.
  destruct (y =? n); simpl; [done|]. by rewrite (IH seq).
Qed.

(** ** Rules for weakest preconditions *)

Lemma wp_mono {A} (m : M A) (Q Q' : res A → world → Prop) w :
  wp m Q w → (∀ r w', Q r w' → Q' r w') → wp m Q' w.
Proof. unfold wp. auto. Qed.

Lemma wp_bind {A B} (m : M A) (k : A → M B) Q w :
  wp m (λ r w', match r with
                | Ret a => wp (k a) Q w'
                | Raise e => Q (Raise e) w'
                end) w →
  wp (bind m k) Q w.
Proof. unfold wp, bind. by destruct (m w) as [[a|e] w1]. Qed.

Lemma wp_try {A} (m : M A) h Q w :
  wp m (λ r w', match r with
                | Ret a => Q (Ret a) w'
                | Raise e => match h e with
                             | Some k => wp k Q w'
                             | None => Q (Raise e) w'
                             end
                end) w →
  wp (try_except m h) Q w.
Proof.
  unfold wp, try_except. destruct (m w) as [[a|e] w1]; simpl; [done|].
  by destruct (h e).
Qed.

Lemma wp_frame K {A} (m : M A) w :
  frame K m → wp m (λ _ w', untouched K w w') w.
Proof. intros H. apply H. Qed.

Lemma wp_run {A} (m : M A) (Q : res A → world → Prop) w r w' :
  m w = (r, w') → Q r w' → wp m Q w.
Proof. unfold wp. by intros ->. Qed.

Lemma wp_ret {A} (a : A) (Q : res A → world → Prop) w :
  Q (Ret a) w → wp (ret a) Q w.
Proof. done. Qed.

Lemma wp_print_ret {A} line (a : A) (Q : res A → world → Prop) w :
  Q (Ret a) (printed w line) → wp (print line ;; ret a) Q w.
Proof. done. Qed.

Lemma frame_weaken (K K' : stem → Prop) {A} (m : M A) :
  (∀ s, K' s → K s) → frame K m → frame K' m.
Proof. intros HK Hm w q Hq. apply Hm. auto. Qed.

(** ** Frames of the methods *)

Lemma frame_save_sequence K E data :
  ¬ K Sequence → frame K (save_sequence E data).
Proof.
  intros Hp. unfold save_sequence. solve_frame.
Qed.
#[local] Hint Resolve frame_save_sequence : frames.

Lemma frame_load_sequence K : frame K load_sequence.
Proof. apply frame_load_sequence_from. Qed.
#[local] Hint Resolve frame_load_sequence  : frames.

Lemma frame_load_config_file K p : frame K (load_config_file p).
Proof. apply frame_load_config_file_from. Qed.
#[local] Hint Resolve frame_load_config_file  : frames.

Lemma frame_get_next_account_number K : frame K get_next_account_number.
Proof. unfold get_next_account_number. solve_frame. Qed.
#[local] Hint Resolve frame_get_next_account_number : frames.

Lemma frame_get_claude_config K : frame K get_claude_config.
Proof.
  unfold get_claude_config. solve_frame.
Qed.
#[local] Hint Resolve frame_get_claude_config : frames.

Lemma frame_backup_account K E n c1 c2 :
  ¬ K (Configs n) → ¬ K (Credentials n) → frame K (backup_account E n c1 c2).
Proof.
  intros H1 H2. unfold backup_account. solve_frame.
Qed.
#[local] Hint Resolve frame_backup_account : frames.

Lemma frame_is_claude_running K E : frame K (is_claude_running E).
Proof. unfold is_claude_running. solve_frame. Qed.
#[local] Hint Resolve frame_is_claude_running : frames.

Lemma frame_confirm_not_running K E : frame K (confirm_not_running E).
Proof.
  unfold confirm_not_running, confirm_after_probe_failure. solve_frame.
Qed.
#[local] Hint Resolve frame_confirm_not_running : frames.

Lemma frame_backup_current E data : frame registry_stem (backup_current E data).
Proof.
  unfold backup_current. solve_frame.
Qed.
#[local] Hint Resolve frame_backup_current : frames.

Lemma frame_unlink_backups E n : frame registry_stem (unlink_backups E n).
Proof.
  unfold unlink_backups. solve_frame.
Qed.
#[local] Hint Resolve frame_unlink_backups : frames.

Lemma frame_load_sequence_or_report K : frame K load_sequence_or_report.
Proof. unfold load_sequence_or_report. solve_frame. Qed.
#[local] Hint Resolve frame_load_sequence_or_report : frames.

(** ** What the two writers do *)

Lemma tmp_ne (p : path) : p.2 = dot_json → with_suffix p dot_tmp ≠ p.
Proof. destruct p as [s sfx]. simpl. intros -> [=]. Qed.

Lemma save_sequence_spec E data w :
  wp (save_sequence E data)
     (λ r w',
        untouched (λ s, s ≠ Sequence) w w' ∧
        ((r = Ret tt ∧ write_succeeds E sequence_file ∧ stored w' data) ∨
         (r = Raise IOError ∧ ¬ write_succeeds E sequence_file ∧
          files w' !! sequence_file = files w !! sequence_file))) w.
Proof.
  split; [apply (frame_save_sequence (λ s, s ≠ Sequence)); naive_solver|].
  assert (with_suffix sequence_file dot_tmp ≠ sequence_file) as Hne
    by by apply tmp_ne.
  unfold save_sequence, try_except, bind, lift, write_succeeds, stored.
  rewrite validate_json_of_registry.
  unfold open_json_dump, path_replace, set_files.
  destruct (write_to E (with_suffix sequence_file dot_tmp)) eqn:Hw; cbn.
  - rewrite lookup_insert_eq.
    destruct (replace_to E sequence_file) eqn:Hr; cbn.
    + left. by rewrite lookup_insert_eq.
    + right. split_and!; [done|by intros [_ [=]]|]. by rewrite lookup_insert_ne.
  - right. split_and!; [done|by intros [[=] _]|done].
  - right. split_and!; [done|by intros [[=] _]|]. by rewrite lookup_insert_ne.
Qed.

Lemma save_config_file_spec E p data w :
  p.2 = dot_json →
  wp (save_config_file E p data)
     (λ r w',
        untouched (λ s, s ≠ p.1) w w' ∧
        ((r = Ret true ∧ valid_config data ∧ write_succeeds E p ∧
          files w' !! p = Some (json_dump data)) ∨
         (r = Ret false ∧ files w' !! p = files w !! p ∧
          (valid_config data → ¬ write_succeeds E p) ∧
          (¬ valid_config data → files w' = files w)))) w.
Proof.
  intros Hp.
  split; [apply (frame_save_config_file (λ s, s ≠ p.1)); naive_solver|].
  pose proof (tmp_ne p Hp) as Hne.
  unfold save_config_file, valid_config, write_succeeds.
  destruct (validate_claude_config data) as [[] msg]; cbn.
  - unfold try_except, bind, open_json_dump, path_replace, set_files.
    destruct (write_to E (with_suffix p dot_tmp)) eqn:Hw; cbn.
    + rewrite lookup_insert_eq.
      destruct (replace_to E p) eqn:Hr; cbn.
      * left. by rewrite lookup_insert_eq.
      * right. split_and!; [done| |by intros _ [_ [=]]|done].
        by rewrite lookup_insert_ne.
    + right. split_and!; [done|done|by intros _ [[=] _]|done].
    + right. split_and!; [done| |by intros _ [[=] _]|done].
      by rewrite lookup_insert_ne.
  - right. split_and!; [done|done|done|done].
Qed.

(** ** The invariant under the three mutations *)

Lemma str_elem n (seq : list Z) : str n ∈ map str seq ↔ n ∈ seq.
Proof.
  rewrite list_elem_of_fmap. split.
  - intros (m & Hm & Hin). apply str_inj in Hm. by subst.
  - intros Hin. by exists n.
Qed.

Lemma registry_ok_initial t : registry_ok (Registry 0 (JStr t) [] []).
Proof.
  constructor; simpl; [done|constructor|constructor|by left|constructor].
Qed.

Lemma registry_ok_add data info t :
  registry_ok data → account_record info →
  let n := next_id data in
  registry_ok
    (set_lastUpdated t
       (set_activeAccountNumber n
          (set_accounts (Dict.set (str n) info (accounts data))
             (set_sequence (sequence data ++ [n]) data)))).
Proof.
  intros [Hkeys Hnodup Hpos Hact Hrec] Hinfo n.
  assert (n ∉ sequence data) as Hfresh.
  { intros Hin. apply next_id_greater in Hin. subst n. lia. }
  assert (Dict.contains (str n) (accounts data) = false) as Hnew.
  { destruct (Dict.contains (str n) (accounts data)) eqn:Hc; [|done].
    apply dict_contains_keys in Hc. rewrite Hkeys in Hc.
    by apply str_elem in Hc. }
  constructor; simpl.
  - rewrite (dict_keys_set_fresh _ _ _ Hnew). unfold Dict.keys in *.
    by rewrite !List.map_app, Hkeys.
  - apply list.NoDup_app. split_and!; [done| |apply NoDup_singleton].
    intros x Hx Hx'. apply list_elem_of_singleton in Hx'. by subst.
  - apply list.Forall_app. split; [done|].
    apply Forall_singleton. by apply next_id_positive.
  - right. apply elem_of_app. right. apply list_elem_of_here.
  - rewrite (dict_keys_set_fresh _ _ _ Hnew). apply list.Forall_app.
    split; [done|]. by apply Forall_singleton.
Qed.

Lemma registry_ok_activate data n t :
  registry_ok data → n ∈ sequence data →
  registry_ok (set_lastUpdated t (set_activeAccountNumber n data)).
Proof.
  intros [Hkeys Hnodup Hpos Hact Hrec] Hn.
  constructor; simpl; auto.
Qed.

Lemma find_by_email_key acc wanted n :
  find_by_email acc wanted = Ret (Some n) →
  ∃ k, k ∈ Dict.keys acc ∧ int k = Some n.
Proof.
  induction acc as [|[k v] acc IH]; simpl; [done|].
  destruct (py_get v "emailAddress" (JStr "")) as [[]|]; simpl; try done.
  destruct (String.eqb (lower s) wanted).
  - destruct (int k) as [m|] eqn:Hk; [|done].
    intros [= ->]. exists k. split; [apply list_elem_of_here|done].
  - intros H. destruct (IH H) as (k' & Hk' & Hint).
    exists k'. split; [by apply list_elem_of_further|done].
Qed.

Lemma resolve_account_elem data t n :
  registry_ok data → resolve_account data t = Ret (Some n) → n ∈ sequence data.
Proof.
  intros [Hkeys _ _ _ _]. unfold resolve_account.
  destruct (isdigit (target_str t)).
  - destruct (target_int t) as [m|]; simpl; [|done].
    case_bool_decide; [|done]. by intros [= <-].
  - intros (k & Hk & Hint)%find_by_email_key.
    rewrite Hkeys in Hk. apply list_elem_of_fmap in Hk as (m & -> & Hm).
    rewrite int_str in Hint. by simplify_eq.
Qed.

(** The registry [remove_account] saves for the profile [n]. *)
Lemma registry_ok_remove data n t :
  registry_ok data → n ∈ sequence data →
  let data1 :=
    if bool_decide (n ∈ sequence data)
    then set_sequence (list_remove n (sequence data)) data else data in
  let data2 :=
    if Dict.contains (str n) (accounts data1)
    then set_accounts (Dict.del (str n) (accounts data1)) data1 else data1 in
  let data3 :=
    if activeAccountNumber data2 =? n
    then match sequence data2 with
         | first :: _ => set_activeAccountNumber first data2
         | [] => set_activeAccountNumber 0 data2
         end
    else data2 in
  registry_ok (set_lastUpdated t data3).
Proof.
  intros [Hkeys Hnodup Hpos Hact Hrec] Hn.
  rewrite bool_decide_eq_true_2 by done. cbn zeta. simpl accounts.
  assert (Dict.contains (str n) (accounts data) = true) as ->.
  { apply dict_contains_keys. rewrite Hkeys. by apply str_elem. }
  cbn zeta. simpl activeAccountNumber. simpl sequence.
  assert (∀ a, (a = 0 ∨ a ∈ list_remove n (sequence data)) →
    registry_ok (Registry a t (list_remove n (sequence data))
                          (Dict.del (str n) (accounts data)))) as Hok.
  { intros a Ha. constructor; simpl.
    - by apply dict_del_keys.
    - by apply list_remove_nodup.
    - by apply list_remove_Forall.
    - done.
    - by apply dict_del_Forall. }
  destruct (Z.eqb_spec (activeAccountNumber data) n) as [Heq|Hne].
  - destruct (list_remove n (sequence data)) as [|first rest] eqn:Hrem; simpl.
    + apply Hok. by left.
    + apply Hok. right. apply list_elem_of_here.
  - apply Hok. destruct Hact as [?|Hin]; [by left|right].
    by apply list_remove_other.
Qed.

(** ** The invariant along a run *)

Lemma stored_untouched w w' data :
  untouched registry_stem w w' → stored w data → stored w' data.
Proof. unfold stored. intros H <-. by apply H. Qed.

Lemma stored_keep w w' data :
  files w' !! sequence_file = files w !! sequence_file →
  stored w data → stored w' data.
Proof. unfold stored. by intros ->. Qed.

Lemma invariant_untouched w w' :
  untouched registry_stem w w' → invariant w → invariant w'.
Proof.
  intros H (data & Hs & Hok). exists data. split; [|done].
  by eapply stored_untouched.
Qed.

Lemma wp_invariant_frame {A} (m : M A) w :
  frame registry_stem m → invariant w → wp m (λ _ w', invariant w') w.
Proof. intros Hm Hw. eapply invariant_untouched; [apply Hm|done]. Qed.

Lemma init_stored E w data : stored w data → __init__ E w = (Ret tt, w).
Proof.
  intros H. unfold __init__, bind, exists_.
  rewrite bool_decide_eq_true_2; [done|]. unfold stored in H. by rewrite H.
Qed.

Lemma get_next_account_number_stored w data :
  stored w data → get_next_account_number w = (Ret (next_id data), w).
Proof.
  intros H. unfold get_next_account_number, bind, next_id.
  rewrite (load_sequence_stored _ _ H). by destruct (sequence data).
Qed.

Lemma lookup_untouched K w w' (p : path) v :
  untouched K w w' → K p.1 → files w !! p = v → files w' !! p = v.
Proof. intros H Hp <-. by apply H. Qed.

Ltac solve_kept :=
  first [ reflexivity | by left | by right | done ].

(** Facts about single files follow the run across a step that leaves
    their stems alone. *)
Ltac transport Hf :=
  cbv beta in Hf;
  repeat match goal with
    | Hs : stored ?w _ |- _ =>
        match type of Hf with
        | untouched _ w _ =>
            apply (lookup_untouched _ _ _ sequence_file _ Hf) in Hs;
            [|solve_kept]
        end
    | Hs : files ?w !! ?p = _ |- _ =>
        match type of Hf with
        | untouched _ w _ =>
            apply (lookup_untouched _ _ _ p _ Hf) in Hs; [|solve_kept]
        end
    end.

(** One step of a run that leaves the stems in [K] alone. *)
Ltac wp_skip_in K x :=
  eapply wp_bind, wp_mono;
    [apply (wp_frame K); solve [solve_frame]|];
  cbn beta;
  let Hf := fresh "Hf" in
  let w1 := fresh "w" in
  intros [x|?] w1 Hf;
  transport Hf;
  clear Hf.

Tactic Notation "wp_skip" "as" ident(x) := wp_skip_in registry_stem x.
Tactic Notation "wp_skip" := let x := fresh "x" in wp_skip_in registry_stem x.
Tactic Notation "wp_skip" "in" constr(K) "as" ident(x) := wp_skip_in K x.
Tactic Notation "wp_skip" "in" constr(K) :=
  let x := fresh "x" in wp_skip_in K x.

Ltac inv_done :=
  match goal with
  | Hs : files ?w !! sequence_file = Some (json_dump (json_of_registry ?data))
    |- invariant ?w => by exists data
  | Hs : stored ?w ?data |- invariant ?w => by exists data
  end.

Ltac inv_frame :=
  apply wp_invariant_frame; [solve [solve_frame]|inv_done].

Lemma add_account_invariant E w : invariant w → invariant (add_account E w).2.
Proof.
  intros (data & Hs & Hok).
  change (wp (add_account E) (λ _ w', invariant w') w).
  unfold add_account.
  wp_skip; [|inv_done].
  apply wp_try.
  eapply wp_mono with (Q := λ _ w', invariant w').
  2:{ intros [b|e] wt Hinv; [done|].
      destruct (is_Exception e); [|done].
      apply wp_invariant_frame; [solve_frame|done]. }
  wp_skip as current_config; [|inv_done].
  destruct (negb (truthy current_config)); [inv_frame|].
  destruct (validate_claude_config current_config) as [is_valid message].
  destruct (negb is_valid); [inv_frame|].
  wp_skip; [|inv_done].
  wp_skip; [|inv_done].
  wp_skip; [|inv_done].
  wp_skip; [|inv_done].
  apply wp_bind.
  eapply wp_run; [by apply get_next_account_number_stored|].
  wp_skip; [|inv_done].
  apply wp_bind.
  eapply wp_run; [by apply load_sequence_stored|].
  wp_skip; [|inv_done].
  eapply wp_bind, wp_mono; [apply save_sequence_spec|].
  cbn beta. intros r ws [_ [(-> & _ & Hnew)|(-> & _ & Hkeep)]].
  - apply wp_invariant_frame; [solve_frame|].
    eexists. split; [done|].
    apply (registry_ok_add data); [done|]. by eexists _, _, _, _.
  - exists data. split; [|done]. by apply (stored_keep _ _ _ Hkeep).
Qed.

Lemma load_sequence_or_report_stored w data :
  stored w data → load_sequence_or_report w = (Ret (Some data), w).
Proof.
  intros H. unfold load_sequence_or_report, try_except, bind.
  by rewrite (load_sequence_stored _ _ H).
Qed.

Lemma wp_lift {A} (r : res A) (Q : res A → world → Prop) w :
  Q r w → wp (lift r) Q w.
Proof. done. Qed.

(** The guarded [save_sequence] at the end of a switch or a removal. *)
Lemma wp_save_sequence_guarded E data msg (Q : res bool → world → Prop) w :
  (∀ w', untouched (λ s, s ≠ Sequence) w w' → write_succeeds E sequence_file →
         stored w' data → Q (Ret true) w') →
  (∀ w', untouched (λ s, s ≠ Sequence) w w' → ¬ write_succeeds E sequence_file →
         files w' !! sequence_file = files w !! sequence_file →
         Q (Ret false) w') →
  wp (try_except
        (save_sequence E data ;; ret true)
        (λ e, if is_Exception e
              then Some (print (msg +:+ exn_str e) ;; ret false)
              else None)) Q w.
Proof.
  intros Hyes Hno. apply wp_try, wp_bind.
  eapply wp_mono; [apply save_sequence_spec|]. cbn beta.
  intros r w' [Hf [(-> & Hsucc & Hnew)|(-> & Hfail & Hkeep)]].
  - by apply Hyes.
  - cbn. apply Hno; [|done|done].
    intros q Hq. by apply Hf.
Qed.

Lemma switch_to_account_invariant E t w :
  invariant w → invariant (switch_to_account E t w).2.
Proof.
  intros (data & Hs & Hok).
  change (wp (switch_to_account E t) (λ _ w', invariant w') w).
  unfold switch_to_account.
  apply wp_bind.
  eapply wp_run; [by apply load_sequence_or_report_stored|].
  apply wp_bind, wp_lift.
  destruct (resolve_account data t) as [[n|]|] eqn:Hres; [|inv_frame|inv_done].
  apply resolve_account_elem in Hres; [|done].
  wp_skip as present; [|inv_done].
  destruct (negb present); [inv_frame|].
  wp_skip as proceed; [|inv_done].
  destruct (negb proceed); [inv_frame|].
  wp_skip as target_config; [|inv_done].
  destruct (is_none target_config); [inv_frame|].
  destruct (validate_claude_config target_config) as [is_valid message].
  destruct (negb is_valid); [inv_frame|].
  wp_skip; [|inv_done].
  wp_skip as applied; [|inv_done].
  destruct (negb applied); [inv_frame|].
  wp_skip as updated; [|inv_done].
  apply wp_bind, wp_save_sequence_guarded.
  - intros w' _ _ Hnew. cbn.
    apply wp_invariant_frame; [solve [solve_frame]|].
    eexists. split; [done|]. by apply registry_ok_activate.
  - intros w' _ _ Hkeep. exists data. split; [|done].
    by apply (stored_keep _ _ _ Hkeep).
Qed.

Lemma switch_to_next_account_invariant E w :
  invariant w → invariant (switch_to_next_account E w).2.
Proof.
  intros (data & Hs & Hok).
  change (wp (switch_to_next_account E) (λ _ w', invariant w') w).
  unfold switch_to_next_account.
  apply wp_bind.
  eapply wp_run; [by apply load_sequence_stored|].
  cbv beta iota zeta.
  destruct (sequence data) as [|first rest] eqn:Hseq; [inv_frame|].
  apply wp_bind, wp_lift.
  destruct (next_in_sequence _ _) as [next_account|]; [|inv_done].
  apply switch_to_account_invariant. by exists data.
Qed.

Lemma remove_account_invariant E t w :
  invariant w → invariant (remove_account E t w).2.
Proof.
  intros (data & Hs & Hok).
  change (wp (remove_account E t) (λ _ w', invariant w') w).
  unfold remove_account.
  apply wp_bind.
  eapply wp_run; [by apply load_sequence_or_report_stored|].
  apply wp_bind, wp_lift.
  destruct (resolve_account data t) as [[n|]|] eqn:Hres; [|inv_frame|inv_done].
  apply resolve_account_elem in Hres; [|done].
  wp_skip as account_email; [|inv_done].
  wp_skip; [|inv_done].
  wp_skip as response; [|inv_done].
  destruct (negb _); [inv_frame|].
  wp_skip as updated; [|inv_done].
  apply wp_bind, wp_save_sequence_guarded.
  - intros w' _ _ Hnew. cbn.
    apply wp_invariant_frame; [solve [solve_frame]|].
    eexists. split; [done|]. by apply (registry_ok_remove data n).
  - intros w' _ _ Hkeep. exists data. split; [|done].
    by apply (stored_keep _ _ _ Hkeep).
Qed.

Lemma main_invariant E args w : invariant w → invariant (main E args w).2.
Proof.
  intros Hinv. pose proof Hinv as (data & Hs & Hok).
  unfold main, bind at 1. rewrite (init_stored E w data Hs).
  destruct args as [| |t|t].
  - unfold bind. pose proof (add_account_invariant E w Hinv) as H.
    by destruct (add_account E w) as [[b|e] w'].
  - unfold bind. pose proof (switch_to_next_account_invariant E w Hinv) as H.
    by destruct (switch_to_next_account E w) as [[b|e] w'].
  - destruct (String.eqb t ""); [done|].
    unfold bind. pose proof (switch_to_account_invariant E (TStr t) w Hinv) as H.
    by destruct (switch_to_account E (TStr t) w) as [[b|e] w'].
  - destruct (String.eqb t ""); [done|].
    unfold bind. pose proof (remove_account_invariant E (TStr t) w Hinv) as H.
    by destruct (remove_account E (TStr t) w) as [[b|e] w'].
Qed.

Lemma reachable_invariant w : reachable w → invariant w.
Proof.
  induction 1 as [w [t Ht]|E args w _ IH|w w' _ IH Hout].
  - exists (Registry 0 (JStr t) [] []). split; [done|apply registry_ok_initial].
  - by apply main_invariant.
  - eapply invariant_untouched; [|done].
    intros q Hq. apply Hout; destruct q as [s sfx]; simpl in Hq;
      rewrite Hq; discriminate.
Qed.

(** * Scenarios *)

(** An empty registry, then "add current" with [a@x.com] logged in. *)
Example scenario_add_current :
  stored first_run (Registry 0 (JStr "2025-01-01T09:00:00") [] []) ∧
  stored one_account
    (Registry 1 (JStr "2025-01-03T09:00:00") [1]
       (firstn 1 (accounts three_registry))) ∧
  files one_account !! configs_file 1 = Some (json_dump config_a) ∧
  files one_account !! credentials_file 1 = Some (json_dump config_a).
Proof. split_and!; vm_compute; reflexivity. Qed.

(** Two profiles, the second active: "switch next" wraps around to the
    first and puts its backup in place of the live config. *)
Example scenario_switch_next :
  (switch_to_next_account quiet two_accounts).1 = Ret true ∧
  (activeAccountNumber <$>
     option_ret (load_sequence (switch_to_next_account quiet two_accounts).2).1)
    = Some 1 ∧
  files (switch_to_next_account quiet two_accounts).2 !! claude_config_file
    = Some (json_dump config_a).
Proof. split_and!; vm_compute; reflexivity. Qed.

(** Removing the active profile 2 of [1; 2] leaves [1] active and deletes
    both backup files of profile 2. *)
Example scenario_remove_active :
  let w := (remove_account quiet (TStr "2") (type_lines ["y"] two_accounts)).2 in
  (sequence <$> option_ret (load_sequence w).1) = Some [1] ∧
  (activeAccountNumber <$> option_ret (load_sequence w).1) = Some 1 ∧
  files w !! configs_file 2 = None ∧
  files w !! credentials_file 2 = None.
Proof. split_and!; vm_compute; reflexivity. Qed.

(** Declining the confirmation leaves every file as it was. *)
Example scenario_remove_declined :
  (remove_account quiet (TStr "2") (type_lines ["n"] two_accounts)).1
    = Ret false ∧
  files (remove_account quiet (TStr "2") (type_lines ["n"] two_accounts)).2
    = files two_accounts.
Proof. split; vm_compute; reflexivity. Qed.

(** The rename onto the live config fails: the switch reports it and the
    registry keeps its time stamp. *)
Example scenario_live_write_fails :
  (switch_to_account live_config_locked (TStr "1") one_account).1 = Ret false ∧
  list.last (stdout (switch_to_account live_config_locked (TStr "1") one_account).2)
    = Some "ERROR: Failed to save new Claude Code configuration." ∧
  (load_sequence (switch_to_account live_config_locked (TStr "1") one_account).2).1
    = (load_sequence one_account).1.
Proof. split_and!; vm_compute; reflexivity. Qed.

(** * The claims *)

(** ** C1: allocation of identifiers *)

Lemma get_next_account_number_run w data :
  (load_sequence w).1 = Ret data →
  (get_next_account_number w).1 = Ret (next_id data).
Proof.
  unfold get_next_account_number, bind, next_id.
  destruct (load_sequence w) as [r w']. simpl. intros ->.
  by destruct (sequence data).
Qed.

(** C1, as amended.  [get_next_account_number] returns 1 for an empty
    sequence and otherwise the greatest identifier of the current sequence
    plus one: a value strictly greater than every identifier now in the
    sequence.  Nothing remembers identifiers that were removed. *)
Theorem C1_next_id_exceeds_current_sequence w data :
  (load_sequence w).1 = Ret data →
  ∃ n, (get_next_account_number w).1 = Ret n ∧
       (∀ m, m ∈ sequence data → m < n) ∧
       (sequence data = [] → n = 1) ∧
       (sequence data ≠ [] → n - 1 ∈ sequence data).
Proof.
  intros Hload. exists (next_id data). split_and!.
  - by apply get_next_account_number_run.
  - intros m. apply next_id_greater.
  - unfold next_id. by intros ->.
  - unfold next_id. destruct (sequence data) as [|x l]; [done|]. intros _.
    replace (max_list x l + 1 - 1) with (max_list x l) by lia.
    apply max_list_elem.
Qed.

Lemma C1_next_id_witness :
  (load_sequence three_accounts).1 = Ret three_registry ∧
  ∃ n, (get_next_account_number three_accounts).1 = Ret n ∧
       (∀ m, m ∈ [1; 2; 3] → m < n).
Proof.
  assert ((load_sequence three_accounts).1 = Ret three_registry) as Hload
    by (vm_compute; reflexivity).
  split; [exact Hload|].
  destruct (C1_next_id_exceeds_current_sequence _ _ Hload) as (n & Hn & Hgt & _).
  exists n. split; [exact Hn|exact Hgt].
Defined.

(** C1, the counterexample.  The registry held the identifiers 1, 2 and 3;
    after profile 3 was removed the next identifier is 3 again, not 4. *)
Lemma C1_identifier_reused_after_removal :
  (∃ data, (load_sequence three_accounts).1 = Ret data ∧
           sequence data = [1; 2; 3]) ∧
  (∃ data, (load_sequence third_removed).1 = Ret data ∧
           sequence data = [1; 2]) ∧
  (get_next_account_number third_removed).1 = Ret 3 ∧
  (get_next_account_number third_removed).1 ≠ Ret 4.
Proof.
  split_and!.
  - eexists. split; vm_compute; reflexivity.
  - eexists. split; vm_compute; reflexivity.
  - vm_compute. reflexivity.
  - vm_compute. discriminate.
Qed.

(** ** C10: what [save_config_file] accepts *)

Lemma first_missing_none (d : dict) :
  first_missing required_oauth_fields d = None ↔
  Dict.contains "emailAddress" d = true ∧ Dict.contains "accountUuid" d = true.
Proof.
  unfold required_oauth_fields. simpl.
  destruct (Dict.contains "emailAddress" d), (Dict.contains "accountUuid" d);
    simpl; split; try done; by intros [? ?].
Qed.

Lemma dict_get_contains key (d : dict) :
  Dict.contains key d =
  match Dict.get key d with
  | Some _ => true
  | None => false
  end.
Proof.
  induction d as [|[k v] d IH]; simpl; [done|].
  by destruct (String.eqb k key).
Qed.

Lemma valid_config_identity data : valid_config data ↔ has_identity data.
Proof.
  unfold valid_config, has_identity, validate_claude_config. split.
  - destruct data as [| | | | |d]; simpl; try done.
    rewrite dict_get_contains.
    destruct (Dict.get "oauthAccount" d) as [[| | | | |o]|] eqn:Hget; simpl; try done.
    destruct (Dict.contains "emailAddress" o) eqn:He; simpl; [|done].
    destruct (Dict.contains "accountUuid" o) eqn:Hu; simpl; [|done].
    intros _. by exists d, o.
  - intros (d & o & -> & Hget & He & Hu).
    rewrite dict_get_contains, Hget.
    cbn [negb]. by rewrite (proj2 (first_missing_none o) (conj He Hu)).
Qed.

(** C10.  [save_config_file] returns [True] only for a payload that is a
    dictionary with an 'oauthAccount' dictionary holding both 'emailAddress'
    and 'accountUuid', and then the file holds that payload; for any other
    payload it returns [False] and no file changes. *)
Theorem C10_save_config_file_requires_identity E p data w :
  ((save_config_file E p data w).1 = Ret true →
   has_identity data ∧
   files (save_config_file E p data w).2 !! p = Some (json_dump data)) ∧
  (¬ has_identity data →
   (save_config_file E p data w).1 = Ret false ∧
   files (save_config_file E p data w).2 = files w).
Proof.
  rewrite <- valid_config_identity. unfold valid_config, save_config_file.
  destruct (validate_claude_config data) as [[] msg]; simpl.
  - split; [|done]. intros Hret. split; [done|]. revert Hret.
    unfold try_except, bind, open_json_dump, path_replace, set_files.
    destruct (write_to E (with_suffix p dot_tmp)); simpl; try done.
    rewrite lookup_insert_eq.
    destruct (replace_to E p); simpl; [|done].
    intros _. by rewrite lookup_insert_eq.
  - split; [done|]. intros _. split; reflexivity.
Qed.

Lemma C10_save_config_file_witness :
  ¬ has_identity (JDict [("oauthAccount", JDict [("emailAddress", JStr "a@x.com")])]) ∧
  (save_config_file quiet claude_config_file
     (JDict [("oauthAccount", JDict [("emailAddress", JStr "a@x.com")])])
     one_account).1 = Ret false ∧
  files (save_config_file quiet claude_config_file
           (JDict [("oauthAccount", JDict [("emailAddress", JStr "a@x.com")])])
           one_account).2 = files one_account.
Proof.
  assert (¬ has_identity
            (JDict [("oauthAccount", JDict [("emailAddress", JStr "a@x.com")])]))
    as Hbad.
  { intros (d & o & [= <-] & [= <-] & _ & Hu). vm_compute in Hu. discriminate. }
  split; [exact Hbad|].
  exact (proj2 (C10_save_config_file_requires_identity
                  quiet claude_config_file _ one_account) Hbad).
Defined.

(** ** C9: the order of the encodings *)

Lemma load_config_file_from_spec encodings p w f :
  files w !! p = Some f →
  load_config_file_from encodings p w =
  match first_decoding encodings f with
  | Parsed j => (Ret j, w)
  | ParseFails => (Ret JNull, printed w ("ERROR: Invalid JSON in " +:+ path_str p))
  | DecodeFails =>
      (Ret JNull,
       printed w ("ERROR: Could not read " +:+ path_str p +:+
                  " with any of the attempted encodings: " +:+ encodings_repr))
  end.
Proof.
  intros Hf. induction encodings as [|e rest IH]; [done|].
  cbn [load_config_file_from first_decoding].
  unfold try_except, open_json_load. rewrite Hf.
  by destruct (json_load e f).
Qed.

Lemma load_config_file_read p w :
  (load_config_file p w).1 = Ret (read_config (files w !! p)) ∧
  files (load_config_file p w).2 = files w.
Proof.
  unfold load_config_file, read_config.
  destruct (files w !! p) as [f|] eqn:Hf.
  - rewrite (load_config_file_from_spec _ _ _ _ Hf).
    by destruct (first_decoding encodings_to_try f).
  - unfold encodings_to_try. cbn [load_config_file_from].
    unfold try_except, open_json_load. by rewrite Hf.
Qed.

Lemma wp_load_config_file p (Q : res json → world → Prop) w :
  (∀ w', files w' = files w → Q (Ret (read_config (files w !! p))) w') →
  wp (load_config_file p) Q w.
Proof.
  intros H. unfold wp. destruct (load_config_file_read p w) as [-> Hfiles].
  by apply H.
Qed.

Lemma get_claude_config_live w cfg :
  files w !! claude_config_file = Some (json_dump cfg) →
  is_none cfg = false →
  (get_claude_config w).1 = Ret cfg.
Proof.
  intros Hlive Hcfg. unfold get_claude_config, bind at 1, exists_.
  rewrite bool_decide_eq_true_2 by (by rewrite Hlive).
  unfold bind at 1.
  destruct (load_config_file_read claude_config_file w) as [Hr Hfiles].
  destruct (load_config_file claude_config_file w) as [r w1].
  simpl in Hr, Hfiles. subst r. rewrite Hlive. cbn [read_config].
  unfold encodings_to_try. cbn [first_decoding json_load json_dump as_utf_8].
  by rewrite Hcfg.
Qed.

Lemma registry_of_data_raise data e :
  registry_of_data data = Raise e → e = Unmodelled.
Proof.
  unfold registry_of_data. repeat case_match; by intros [= <-].
Qed.

Lemma check_required_raise fields place data e :
  check_required fields place data = Raise e →
  e = TypeError ∨ ∃ msg, e = ValueError msg.
Proof.
  induction fields as [|field fields IH]; simpl; [done|].
  unfold rbind. destruct (py_in field data) as [[]|e'] eqn:Hin; simpl.
  - done.
  - intros [= <-]. right. by eexists.
  - intros [= <-]. left. destruct data; simpl in Hin; by simplify_eq.
Qed.

Lemma validate_sequence_data_raise place data e :
  validate_sequence_data place data = Raise e →
  e = TypeError ∨ e = KeyError ∨ ∃ msg, e = ValueError msg.
Proof.
  unfold validate_sequence_data, rbind.
  destruct (check_required _ _ _) as [[]|e'] eqn:Hc.
  - unfold getitem. repeat case_match; intros ?; simplify_eq; eauto.
  - intros [= <-]. apply check_required_raise in Hc as [->|[msg ->]]; eauto.
Qed.

(** What [load_sequence] makes of a document that was decoded and parsed. *)
Lemma load_sequence_from_spec encodings w f :
  files w !! sequence_file = Some f →
  load_sequence_from encodings w =
  match first_decoding encodings f with
  | Parsed data =>
      match validate_sequence_data "sequence file" data with
      | Ret _ => (registry_of_data data, w)
      | Raise (ValueError msg) =>
          (Raise (ValueError msg), printed w ("ERROR: " +:+ msg))
      | Raise e => (Raise e, w)
      end
  | ParseFails =>
      (Raise JSONDecodeError,
       printed w ("ERROR: Invalid JSON in " +:+ path_str sequence_file))
  | DecodeFails =>
      (Raise UnicodeDecodeError,
       printed w ("ERROR: Could not read " +:+ path_str sequence_file +:+
                  " with any of the attempted encodings: " +:+ encodings_repr))
  end.
Proof.
  intros Hf. induction encodings as [|e rest IH]; [done|].
  cbn [load_sequence_from first_decoding].
  unfold try_except, bind, open_json_load. rewrite Hf.
  destruct (json_load e f) as [| |data]; [done|done|].
  unfold lift.
  destruct (validate_sequence_data "sequence file" data) as [[]|e'] eqn:Hv.
  - destruct (registry_of_data data) as [r|err] eqn:Hr; [done|].
    by apply registry_of_data_raise in Hr as ->.
  - by apply validate_sequence_data_raise in Hv as [->|[->|[msg ->]]].
Qed.

(** C9.  Both readers attempt utf-8, utf-8-sig, latin-1, cp1252 in this
    order and settle on the first encoding that decodes.  A JSON syntax
    error under that encoding ends the read at once ([load_config_file]
    returns [None], [load_sequence] raises [JSONDecodeError]); when no
    encoding decodes, the read ends with a different diagnostic
    ([load_sequence] raises [UnicodeDecodeError]). *)
Theorem C9_encodings_tried_in_order w p f :
  files w !! p = Some f →
  encodings_to_try = [utf_8; utf_8_sig; latin_1; cp1252] ∧
  load_config_file p w =
    match first_decoding [utf_8; utf_8_sig; latin_1; cp1252] f with
    | Parsed j => (Ret j, w)
    | ParseFails =>
        (Ret JNull, printed w ("ERROR: Invalid JSON in " +:+ path_str p))
    | DecodeFails =>
        (Ret JNull,
         printed w ("ERROR: Could not read " +:+ path_str p +:+
                    " with any of the attempted encodings: " +:+ encodings_repr))
    end ∧
  (p = sequence_file →
   load_sequence w =
     match first_decoding [utf_8; utf_8_sig; latin_1; cp1252] f with
     | Parsed data =>
         match validate_sequence_data "sequence file" data with
         | Ret _ => (registry_of_data data, w)
         | Raise (ValueError msg) =>
             (Raise (ValueError msg), printed w ("ERROR: " +:+ msg))
         | Raise e => (Raise e, w)
         end
     | ParseFails =>
         (Raise JSONDecodeError,
          printed w ("ERROR: Invalid JSON in " +:+ path_str sequence_file))
     | DecodeFails =>
         (Raise UnicodeDecodeError,
          printed w ("ERROR: Could not read " +:+ path_str sequence_file +:+
                     " with any of the attempted encodings: " +:+ encodings_repr))
     end) ∧
  @Raise registry UnicodeDecodeError ≠ Raise JSONDecodeError ∧
  "ERROR: Could not read " +:+ path_str p +:+
    " with any of the attempted encodings: " +:+ encodings_repr
  ≠ "ERROR: Invalid JSON in " +:+ path_str p.
Proof.
  intros Hf. split_and!; [done| | |done|].
  - by apply load_config_file_from_spec.
  - intros ->. by apply load_sequence_from_spec.
  - intros [=].
Qed.

Lemma C9_encodings_witness :
  files legacy_backup !! configs_file 1 = Some (latin_1_file config_a) ∧
  load_config_file (configs_file 1) legacy_backup = (Ret config_a, legacy_backup).
Proof.
  assert (files legacy_backup !! configs_file 1 = Some (latin_1_file config_a))
    as Hf by (vm_compute; reflexivity).
  split; [exact Hf|].
  exact (proj1 (proj2 (C9_encodings_tried_in_order _ _ _ Hf))).
Defined.

(** ** C7: the next profile in the cycle *)

Lemma list_index_Some x l i :
  list_index x l = Some i ↔
  l !! i = Some x ∧ ∀ j, (j < i)%nat → (l !! j) ≠ Some x.
Proof.
  revert i. induction l as [|y l IH]; intros i; simpl.
  - split; [done|]. by intros [? _].
  - destruct (Z.eqb_spec y x) as [->|Hne].
    + split.
      * intros [= <-]. split; [done|]. intros j Hj. lia.
      * intros [Hi Hfirst]. destruct i as [|i]; [done|].
        exfalso. apply (Hfirst 0%nat); [lia|done].
    + destruct (list_index x l) as [i'|] eqn:Hidx; simpl.
      * split.
        -- intros [= <-]. destruct (proj1 (IH i') eq_refl) as [Hi Hfirst].
           split; [done|]. intros [|j] Hj; simpl; [congruence|].
           apply Hfirst. lia.
        -- intros [Hi Hfirst]. destruct i as [|i]; simpl in Hi; [congruence|].
           f_equal. assert (Some i' = Some i) as [= ->]; [|done].
           apply IH. split; [done|]. intros j Hj.
           apply (Hfirst (S j)). lia.
      * split; [done|]. intros [Hi Hfirst].
        destruct i as [|i]; simpl in Hi; [congruence|].
        assert (None = Some i) as [=]. apply IH. split; [done|].
        intros j Hj. apply (Hfirst (S j)). lia.
Qed.

Lemma list_index_None x l : list_index x l = None ↔ x ∉ l.
Proof.
  induction l as [|y l IH]; simpl.
  - split; [intros _; apply not_elem_of_nil|done].
  - rewrite not_elem_of_cons. destruct (Z.eqb_spec y x) as [->|Hne].
    + split; [done|]. by intros [? _].
    + destruct (list_index x l); simpl.
      * split; [done|]. intros [_ Hx]. by apply IH in Hx.
      * split; [|done]. intros _. split; [done|]. by apply IH.
Qed.

Lemma load_sequence_from_ret encodings w data w' :
  load_sequence_from encodings w = (Ret data, w') → w' = w.
Proof.
  induction encodings as [|e rest IH]; [done|].
  cbn [load_sequence_from]. unfold try_except, bind, open_json_load, lift.
  repeat case_match; simplify_eq; try done; unfold bind, print, raise;
    intros; simplify_eq; auto.
Qed.

Lemma load_sequence_run w data :
  (load_sequence w).1 = Ret data → load_sequence w = (Ret data, w).
Proof.
  destruct (load_sequence w) as [r w'] eqn:Hl. simpl. intros ->.
  by apply load_sequence_from_ret in Hl as ->.
Qed.

Lemma switch_to_next_account_unfold E w data :
  load_sequence w = (Ret data, w) →
  switch_to_next_account E w =
  match sequence data with
  | [] => (print "No accounts registered." ;; ret false) w
  | _ :: _ =>
      (next_account <-
         lift (next_in_sequence (activeAccountNumber data) (sequence data)) ;;
       switch_to_account E (TInt next_account)) w
  end.
Proof.
  intros H. unfold switch_to_next_account. unfold bind at 1. rewrite H.
  by destruct (sequence data).
Qed.

(** C7.  With an empty sequence [switch_to_next_account] fails and writes
    no file.  Otherwise it is [switch_to_account] on [sequence[(i+1) % len]],
    where [i] is the first position of the active number in the sequence,
    or on [sequence[0]] when the active number is not in the sequence. *)
Theorem C7_switch_to_next_targets_successor E w data :
  (load_sequence w).1 = Ret data →
  (sequence data = [] →
   (switch_to_next_account E w).1 = Ret false ∧
   files (switch_to_next_account E w).2 = files w) ∧
  (sequence data ≠ [] →
   ∃ next_account,
     switch_to_next_account E w = switch_to_account E (TInt next_account) w ∧
     ((∃ i, sequence data !! i = Some (activeAccountNumber data) ∧
            (∀ j, (j < i)%nat →
                  (sequence data !! j) ≠ Some (activeAccountNumber data)) ∧
            (sequence data !! ((i + 1) mod length (sequence data))%nat)
              = Some next_account) ∨
      ((activeAccountNumber data ∉ sequence data) ∧
       (sequence data !! 0%nat) = Some next_account))).
Proof.
  intros Hload%load_sequence_run.
  rewrite (switch_to_next_account_unfold E w data Hload). split.
  - by intros ->.
  - intros Hne. destruct (sequence data) as [|first rest] eqn:Hseq; [done|].
    rewrite <- Hseq. unfold bind, lift, next_in_sequence.
    destruct (list_index (activeAccountNumber data) (sequence data))
      as [i|] eqn:Hidx.
    + apply list_index_Some in Hidx as [Hi Hfirst].
      assert ((i + 1) mod length (sequence data) < length (sequence data))%nat
        as Hlt.
      { apply Nat.mod_upper_bound. rewrite Hseq. simpl. lia. }
      apply lookup_lt_is_Some in Hlt as [next Hnext].
      exists next. unfold list_item. rewrite Hnext. split; [done|].
      left. by exists i.
    + apply list_index_None in Hidx.
      exists first. unfold list_item. rewrite Hseq. simpl. split; [done|].
      right. split; [by rewrite <- Hseq|done].
Qed.

Lemma C7_switch_to_next_witness :
  (load_sequence two_accounts).1 =
    Ret (Registry 2 (JStr "2025-01-05T09:00:00") [1; 2]
           (firstn 2 (accounts three_registry))) ∧
  switch_to_next_account quiet two_accounts =
    switch_to_account quiet (TInt 1) two_accounts.
Proof.
  assert ((load_sequence two_accounts).1 =
            Ret (Registry 2 (JStr "2025-01-05T09:00:00") [1; 2]
                   (firstn 2 (accounts three_registry)))) as Hload
    by (vm_compute; reflexivity).
  split; [exact Hload|].
  destruct (proj2 (C7_switch_to_next_targets_successor quiet _ _ Hload))
    as (next & Heq & [(i & Hi & _ & Hnext)|[Hnot _]]).
  - simpl. discriminate.
  - destruct i as [|[|i]]; simpl in Hi; try discriminate.
    simpl in Hnext. injection Hnext as <-. exact Heq.
  - exfalso. apply Hnot. simpl. apply list_elem_of_further, list_elem_of_here.
Defined.

(** ** C3 and C4: the registry invariants *)

Lemma reachable_stored w :
  reachable w → ∃ data, stored w data ∧ registry_ok data.
Proof. apply reachable_invariant. Qed.

(** C3.  After every add, switch or remove, started from the initial
    registry, the integers in [sequence] are exactly the integer-parsed
    keys of [accounts] (every key parses), [sequence] has no duplicates
    and every identifier is at least 1. *)
Theorem C3_sequence_matches_account_keys w :
  reachable w →
  ∃ data,
    load_sequence w = (Ret data, w) ∧
    (∀ k, k ∈ Dict.keys (accounts data) → ∃ n, int k = Some n) ∧
    (∀ n, n ∈ sequence data ↔
          ∃ k, k ∈ Dict.keys (accounts data) ∧ int k = Some n) ∧
    NoDup (sequence data) ∧
    (∀ n, n ∈ sequence data → 1 ≤ n).
Proof.
  intros (data & Hs & [Hkeys Hnodup Hpos _ _])%reachable_stored.
  exists data. split_and!.
  - by apply load_sequence_stored.
  - intros k. rewrite Hkeys. intros (n & -> & _)%list_elem_of_fmap.
    exists n. apply int_str.
  - intros n. rewrite Hkeys. split.
    + intros Hn. exists (str n). split; [by apply str_elem|apply int_str].
    + intros (k & (m & -> & Hm)%list_elem_of_fmap & Hint).
      rewrite int_str in Hint. by simplify_eq.
  - done.
  - intros n Hn. by apply (proj1 (list.Forall_forall _ _) Hpos).
Qed.

Lemma C3_sequence_witness :
  reachable two_accounts ∧
  ∃ data,
    load_sequence two_accounts = (Ret data, two_accounts) ∧
    (∀ n, n ∈ sequence data ↔
          ∃ k, k ∈ Dict.keys (accounts data) ∧ int k = Some n).
Proof.
  assert (reachable two_accounts) as Hreach.
  { apply reach_command.
    apply (reach_outside one_account).
    - apply reach_command, reach_initial.
      exists "2025-01-01T09:00:00". vm_compute. reflexivity.
    - intros q Hmain Halt. unfold log_in. simpl.
      apply lookup_insert_ne. intros Heq. apply Hmain. symmetry. exact Heq. }
  split; [exact Hreach|].
  destruct (C3_sequence_matches_account_keys _ Hreach)
    as (data & Hload & _ & Hkeys & _).
  exists data. split; [exact Hload|exact Hkeys].
Defined.

Ltac wp_fails :=
  by (unfold wp, bind, print, ret; simpl).

Lemma remove_account_saved E t w data n w' :
  stored w data → resolve_account data t = Ret (Some n) →
  remove_account E t w = (Ret true, w') →
  ∃ updated, stored w' (set_lastUpdated (JStr updated) (removed n data)).
Proof.
  intros Hs Hres Hrun.
  assert (wp (remove_account E t)
            (λ r w', r = Ret true →
               ∃ updated,
                 stored w' (set_lastUpdated (JStr updated) (removed n data))) w)
    as Hwp.
  { unfold remove_account.
    apply wp_bind.
    eapply wp_run; [by apply load_sequence_or_report_stored|].
    apply wp_bind, wp_lift. rewrite Hres.
    wp_skip as account_email; [|done].
    wp_skip; [|done].
    wp_skip as response; [|done].
    destruct (negb _); [wp_fails|].
    wp_skip as updated; [|done].
    apply wp_bind, wp_save_sequence_guarded.
    - intros wa _ _ Hnew. cbn.
      eapply wp_mono; [apply (wp_frame registry_stem); solve [solve_frame]|].
      intros r wb Hf _. exists updated.
      by apply (stored_untouched _ _ _ Hf).
    - intros wa _ _ _. cbn. done. }
  unfold wp in Hwp. rewrite Hrun in Hwp. by apply Hwp.
Qed.

Lemma removed_spec data n :
  n ∈ sequence data → Dict.contains (str n) (accounts data) = true →
  activeAccountNumber data = n →
  sequence (removed n data) = list_remove n (sequence data) ∧
  activeAccountNumber (removed n data) =
    match sequence (removed n data) with
    | first :: _ => first
    | [] => 0
    end.
Proof.
  intros Hn Hc Ha. unfold removed.
  rewrite bool_decide_eq_true_2 by done. simpl accounts. rewrite Hc.
  simpl activeAccountNumber. rewrite Ha, Z.eqb_refl. simpl sequence.
  by destruct (list_remove n (sequence data)).
Qed.



(** ** The backup of a profile *)

Lemma untouched_weaken (K K' : stem → Prop) w w' :
  (∀ s, K' s → K s) → untouched K w w' → untouched K' w w'.
Proof. intros HK H q Hq. apply H. auto. Qed.

Lemma backup_account_spec E n c w :
  wp (backup_account E n c c)
     (λ r w',
        untouched (λ s, s ≠ Configs n ∧ s ≠ Credentials n) w w' ∧
        ((r = Ret true ∧
          write_succeeds E (configs_file n) ∧
          write_succeeds E (credentials_file n) ∧
          files w' !! configs_file n = Some (json_dump c) ∧
          files w' !! credentials_file n = Some (json_dump c)) ∨
         r = Ret false)) w.
Proof.
  unfold backup_account. destruct (n <=? 0).
  { apply wp_print_ret. split; [by apply untouched_same|by right]. }
  eapply wp_bind, wp_mono;
    [apply (save_config_file_spec E (configs_file n)); reflexivity|].
  cbn beta. intros r1 w1 [Hf1 Hcase1].
  assert (untouched (λ s, s ≠ Configs n ∧ s ≠ Credentials n) w w1) as Hu1.
  { eapply untouched_weaken; [|exact Hf1]. by intros s [? ?]. }
  assert (∀ b1 b2 w2,
            untouched (λ s, s ≠ (credentials_file n).1) w1 w2 →
            (b1 = true → b2 = true →
             write_succeeds E (configs_file n) ∧
             write_succeeds E (credentials_file n) ∧
             files w2 !! configs_file n = Some (json_dump c) ∧
             files w2 !! credentials_file n = Some (json_dump c)) →
            wp (ret (b1 && b2))
               (λ r w',
                  untouched (λ s, s ≠ Configs n ∧ s ≠ Credentials n) w w' ∧
                  ((r = Ret true ∧
                    write_succeeds E (configs_file n) ∧
                    write_succeeds E (credentials_file n) ∧
                    files w' !! configs_file n = Some (json_dump c) ∧
                    files w' !! credentials_file n = Some (json_dump c)) ∨
                   r = Ret false)) w2) as Hend.
  { intros b1 b2 w2 Hf2 Hboth. apply wp_ret. split.
    - eapply untouched_trans; [exact Hu1|].
      eapply untouched_weaken; [|exact Hf2]. by intros s [? ?].
    - destruct b1, b2; [left; split; [done|by apply Hboth]|by right..]. }
  assert (∃ b1, r1 = Ret b1 ∧
                (b1 = true → write_succeeds E (configs_file n) ∧
                             files w1 !! configs_file n = Some (json_dump c)))
    as (b1 & -> & H1).
  { destruct Hcase1 as [(-> & _ & ? & ?)|(-> & _)]; eexists; by split. }
  eapply wp_bind, wp_mono;
    [apply (save_config_file_spec E (credentials_file n)); reflexivity|].
  cbn beta. intros r2 w2 [Hf2 Hcase2].
  assert (∃ b2, r2 = Ret b2 ∧
                (b2 = true → write_succeeds E (credentials_file n) ∧
                             files w2 !! credentials_file n = Some (json_dump c)))
    as (b2 & -> & H2).
  { destruct Hcase2 as [(-> & _ & ? & ?)|(-> & _)]; eexists; by split. }
  apply Hend; [done|].
  intros Hb1 Hb2. destruct (H1 Hb1) as [Hs1 Hfile1].
  destruct (H2 Hb2) as [Hs2 Hfile2].
  split_and!; try done. rewrite <- Hfile1. by apply Hf2.
Qed.

(** ** C5: the registry is committed after the live config *)

Lemma switch_to_account_outcome E t w :
  wp (switch_to_account E t) (switch_outcome E (files w !! sequence_file)) w.
Proof.
  remember (files w !! sequence_file) as kept eqn:Hkept.
  symmetry in Hkept.
  assert (∀ w1 (r : res bool), files w1 !! sequence_file = kept →
            r ≠ Ret true → switch_outcome E kept r w1) as Hfail.
  { intros w1 r H1 H2. by left. }
  unfold switch_to_account.
  wp_skip as loaded; [|by apply Hfail].
  destruct loaded as [data|]; [|by apply wp_ret, Hfail].
  apply wp_bind, wp_lift.
  destruct (resolve_account data t) as [[n|]|];
    [|by apply wp_print_ret, Hfail|by apply Hfail].
  wp_skip as present; [|by apply Hfail].
  destruct (negb present); [by apply wp_print_ret, Hfail|].
  wp_skip as proceed; [|by apply Hfail].
  destruct (negb proceed); [by apply wp_ret, Hfail|].
  wp_skip as target_config; [|by apply Hfail].
  destruct (is_none target_config); [by apply wp_print_ret, Hfail|].
  destruct (validate_claude_config target_config) as [is_valid message].
  destruct (negb is_valid); [by apply wp_print_ret, Hfail|].
  wp_skip; [|by apply Hfail].
  eapply wp_bind, wp_mono;
    [apply (save_config_file_spec E claude_config_file); reflexivity|].
  cbn beta.
  intros r wa [Hf [(-> & Hvalid & Hsucc & Hlive)|(-> & _ & _ & _)]];
    transport Hf; clear Hf.
  - cbn [negb].
    wp_skip in (λ s, s = ClaudeConfig) as updated; [|by right; eauto].
    apply wp_bind, wp_save_sequence_guarded.
    + intros wb Hf _ _. cbn. transport Hf.
      eapply wp_mono;
        [apply (wp_frame (λ s, s = ClaudeConfig)); solve [solve_frame]|].
      intros r wc Hf'. transport Hf'. right. eauto.
    + intros wb Hf _ _. cbn. transport Hf. right. eauto.
  - cbn [negb]. by apply wp_print_ret, Hfail.
Qed.

Lemma valid_config_not_none cfg : valid_config cfg → is_none cfg = false.
Proof. by destruct cfg. Qed.

Lemma get_claude_config_returns w :
  ∃ j w', get_claude_config w = (Ret j, w').
Proof.
  assert (∀ p w0, ∃ j w', load_config_file p w0 = (Ret j, w')) as Hload.
  { intros p w0. destruct (load_config_file_read p w0) as [Hr _].
    destruct (load_config_file p w0) as [r w']. simpl in Hr. subst r. eauto. }
  assert (∀ (present : bool) p w0,
            ∃ j w', (if present then load_config_file p else ret JNull) w0
                    = (Ret j, w')) as Hif.
  { intros [] p w0; [apply Hload|by eexists _, _]. }
  unfold get_claude_config, bind, exists_.
  destruct (Hif (bool_decide (is_Some (files w !! claude_config_file)))
              claude_config_file w) as (j1 & w1 & ->).
  destruct (negb (is_none j1)); [by eexists _, _|].
  destruct (Hif (bool_decide (is_Some (files w1 !! claude_alt_config_file)))
              claude_alt_config_file w1) as (j2 & w2 & ->).
  destruct (negb (is_none j2)); by eexists _, _.
Qed.

Lemma backup_current_returns E data w :
  ∃ w', backup_current E data w = (Ret tt, w').
Proof.
  unfold backup_current, try_except, bind at 1.
  destruct (get_claude_config_returns w) as (j & w1 & ->).
  destruct (truthy j); [|by eexists].
  destruct (0 <? activeAccountNumber data); [|by eexists].
  unfold bind.
  pose proof (backup_account_spec E (activeAccountNumber data) j w1)
    as [_ Hcase].
  destruct (backup_account E (activeAccountNumber data) j j w1) as [r w2].
  simpl in Hcase. destruct Hcase as [(-> & _)|Hr]; [|subst r]; by eexists.
Qed.

(** With a registered target, a valid backup and the liveness check
    passed, a live config that cannot be written makes the switch return
    [False]. *)
Lemma switch_to_account_write_failure E t w data n :
  (load_sequence w).1 = Ret data →
  resolve_account data t = Ret (Some n) →
  is_Some (files w !! configs_file n) →
  valid_config (read_config (files w !! configs_file n)) →
  (confirm_not_running E w).1 = Ret true →
  ¬ write_succeeds E claude_config_file →
  (switch_to_account E t w).1 = Ret false.
Proof.
  intros Hload%load_sequence_run Hres Hbackup Hvalid Hconfirm Hlocked.
  change (wp (switch_to_account E t) (λ r _, r = Ret false) w).
  unfold switch_to_account.
  apply wp_bind. eapply wp_run.
  { unfold load_sequence_or_report, try_except, bind. by rewrite Hload. }
  apply wp_bind, wp_lift. rewrite Hres.
  apply wp_bind. eapply wp_run; [reflexivity|].
  rewrite bool_decide_eq_true_2 by done. cbn [negb].
  apply wp_bind.
  pose proof (frame_confirm_not_running (λ _, True) E w) as Hframe.
  destruct (confirm_not_running E w) as [r1 w1] eqn:Hc.
  simpl in Hconfirm, Hframe. subst r1.
  eapply wp_run; [exact Hc|]. cbn [negb].
  apply wp_bind, wp_load_config_file. intros w2 _.
  rewrite (Hframe (configs_file n) I).
  rewrite (valid_config_not_none _ Hvalid).
  unfold valid_config in Hvalid.
  destruct (validate_claude_config _) as [is_valid message] eqn:Hv.
  simpl in Hvalid. subst is_valid. cbn [negb].
  apply wp_bind.
  destruct (backup_current_returns E data w2) as [w3 Hb].
  eapply wp_run; [exact Hb|].
  eapply wp_bind, wp_mono;
    [apply (save_config_file_spec E claude_config_file); reflexivity|].
  cbn beta. intros r w4 [_ [(-> & _ & Hsucc & _)|(-> & _)]]; [done|].
  by apply wp_print_ret.
Qed.

(** C5.  When the write of the live config fails, [switch_to_account] does
    not succeed and the registry file is what it was; with a registered
    target, a valid backup and the liveness check passed, it returns
    [False].  Whenever the call changes the registry file, the write of
    the live config had succeeded and the live config holds a valid
    payload. *)
Theorem C5_registry_commits_after_live_write E t w :
  (¬ write_succeeds E claude_config_file →
   (switch_to_account E t w).1 ≠ Ret true ∧
   files (switch_to_account E t w).2 !! sequence_file =
     files w !! sequence_file) ∧
  (∀ data n,
     (load_sequence w).1 = Ret data →
     resolve_account data t = Ret (Some n) →
     is_Some (files w !! configs_file n) →
     (load_config_file (configs_file n) w).1 = Ret (read_config (files w !! configs_file n)) ∧
     (valid_config (read_config (files w !! configs_file n)) →
      (confirm_not_running E w).1 = Ret true →
      ¬ write_succeeds E claude_config_file →
      (switch_to_account E t w).1 = Ret false)) ∧
  (files (switch_to_account E t w).2 !! sequence_file ≠
     files w !! sequence_file →
   write_succeeds E claude_config_file ∧
   ∃ cfg, valid_config cfg ∧
          files (switch_to_account E t w).2 !! claude_config_file =
            Some (json_dump cfg)).
Proof.
  split_and!.
  - intros Hlocked.
    pose proof (switch_to_account_outcome E t w) as [[Hkept Hres]|[Hsucc _]];
      [done|by destruct Hlocked].
  - intros data n Hload Hres Hbackup. split; [apply load_config_file_read|].
    intros Hvalid Hconfirm Hlocked.
    by eapply switch_to_account_write_failure.
  - intros Hne.
    pose proof (switch_to_account_outcome E t w) as [[Hkept _]|Hdone];
      [by destruct Hne|done].
Qed.

Lemma C5_registry_commits_witness :
  ¬ write_succeeds live_config_locked claude_config_file ∧
  (switch_to_account live_config_locked (TStr "1") one_account).1 = Ret false ∧
  (switch_to_account live_config_locked (TStr "1") one_account).1 ≠ Ret true ∧
  files (switch_to_account live_config_locked (TStr "1") one_account).2
    !! sequence_file = files one_account !! sequence_file.
Proof.
  assert (¬ write_succeeds live_config_locked claude_config_file) as Hlocked.
  { intros [_ Hreplace]. vm_compute in Hreplace. discriminate. }
  split; [exact Hlocked|].
  destruct (C5_registry_commits_after_live_write
              live_config_locked (TStr "1") one_account)
    as (Hkeep & Hfalse & _).
  split; [|exact (Hkeep Hlocked)].
  refine (proj2 (Hfalse (Registry 1 (JStr "2025-01-03T09:00:00") [1]
                           (firstn 1 (accounts three_registry))) 1 _ _ _)
            _ _ Hlocked).
  - vm_compute. reflexivity.
  - vm_compute. reflexivity.
  - vm_compute. eexists. reflexivity.
  - vm_compute. reflexivity.
  - vm_compute. reflexivity.
Defined.

(** ** C6: [add_account] succeeds only with registry and backup *)

Lemma add_account_outcome E w :
  wp (add_account E) (add_outcome E (files w !! sequence_file)) w.
Proof.
  remember (files w !! sequence_file) as kept eqn:Hkept.
  symmetry in Hkept.
  assert (∀ w1 (r : res bool), files w1 !! sequence_file = kept →
            r ≠ Ret true → add_outcome E kept r w1) as Hfail.
  { intros w1 r H1 H2. by left. }
  unfold add_account.
  wp_skip; [|by apply Hfail].
  apply wp_try.
  eapply wp_mono with
    (Q := λ r w', match r with
                  | Ret b => add_outcome E kept (Ret b) w'
                  | Raise e => files w' !! sequence_file = kept
                  end).
  2:{ intros [b|e] wt Hq; [done|].
      destruct (is_Exception e); [|by apply Hfail].
      by apply wp_print_ret, Hfail. }
  wp_skip as current_config; [|done].
  destruct (negb (truthy current_config)); [by apply wp_print_ret, Hfail|].
  destruct (validate_claude_config current_config) as [is_valid message].
  destruct (negb is_valid); [by apply wp_print_ret, Hfail|].
  wp_skip as oauth_account; [|done].
  wp_skip as email; [|done].
  wp_skip as uuid; [|done].
  wp_skip as display_name; [|done].
  wp_skip as account_number; [|done].
  wp_skip as added; [|done].
  wp_skip as data; [|done].
  wp_skip as updated; [|done].
  eapply wp_bind, wp_mono; [apply save_sequence_spec|].
  cbn beta. intros r wa [Hf [(-> & Hsucc & Hnew)|(-> & _ & Hsame)]].
  - clear Hkept.
    eapply wp_bind, wp_mono; [apply backup_account_spec|].
    cbn beta. intros r wb [Hfb Hcase]. transport Hfb.
    assert (∀ line, add_outcome E kept r (printed wb line)) as Hout.
    { intros line. right. eexists _, current_config.
      split_and!; [done|exact Hnew|].
      destruct Hcase as [(Hr & ? & ? & ? & ?)|Hr]; subst r; [left|by right].
      by split_and!. }
    destruct Hcase as [(Hr & _)|Hr]; subst r; apply wp_print_ret, Hout.
  - congruence.
Qed.

Lemma json_of_registry_inj data1 data2 :
  json_of_registry data1 = json_of_registry data2 → data1 = data2.
Proof.
  intros H. assert (Ret data1 = Ret data2) as [= ->]; [|done].
  by rewrite <- !registry_of_json_of_registry, H.
Qed.

Lemma json_dump_inj j1 j2 : json_dump j1 = json_dump j2 → j1 = j2.
Proof. unfold json_dump. congruence. Qed.

Lemma stored_agree w data1 data2 :
  stored w data1 → stored w data2 → data1 = data2.
Proof.
  unfold stored. intros H1 H2. rewrite H1 in H2.
  apply json_of_registry_inj, json_dump_inj. congruence.
Qed.

(** C6.  [add_account] returns [True] only when the registry was saved and
    both copies of the backup, config and credentials, were written.  When
    the registry was saved and a copy of the backup is not written, it
    returns [False]. *)
Theorem C6_add_account_needs_registry_and_backup E w :
  ((add_account E w).1 = Ret true →
   ∃ data cfg,
     write_succeeds E sequence_file ∧
     write_succeeds E (configs_file (activeAccountNumber data)) ∧
     write_succeeds E (credentials_file (activeAccountNumber data)) ∧
     stored (add_account E w).2 data ∧
     files (add_account E w).2 !! configs_file (activeAccountNumber data) =
       Some (json_dump cfg) ∧
     files (add_account E w).2 !! credentials_file (activeAccountNumber data) =
       Some (json_dump cfg)) ∧
  (∀ data,
     stored (add_account E w).2 data →
     files (add_account E w).2 !! sequence_file ≠ files w !! sequence_file →
     ¬ (write_succeeds E (configs_file (activeAccountNumber data)) ∧
        write_succeeds E (credentials_file (activeAccountNumber data))) →
     (add_account E w).1 = Ret false).
Proof.
  pose proof (add_account_outcome E w)
    as [[Hkept Hres]|(data & cfg & Hseq & Hnew & Hcase)].
  - split; [done|]. by intros data _ Hne.
  - split.
    + intros Htrue. exists data, cfg.
      destruct Hcase as [(_ & ? & ? & ? & ?)|Hfalse]; [done|congruence].
    + intros data' Hnew' _ Hnot.
      rewrite (stored_agree _ _ _ Hnew' Hnew) in Hnot.
      destruct Hcase as [(_ & ? & ? & _)|Hfalse]; [|done].
      exfalso. by apply Hnot.
Qed.

Lemma C6_add_account_witness :
  stored (add_account credentials_full first_run).2
    (Registry 1 (JStr "2025-01-03T09:00:00") [1]
       (firstn 1 (accounts three_registry))) ∧
  (add_account credentials_full first_run).1 = Ret false.
Proof.
  assert (stored (add_account credentials_full first_run).2
            (Registry 1 (JStr "2025-01-03T09:00:00") [1]
               (firstn 1 (accounts three_registry)))) as Hnew
    by (vm_compute; reflexivity).
  split; [exact Hnew|].
  apply (proj2 (C6_add_account_needs_registry_and_backup
                  credentials_full first_run) _ Hnew).
  - vm_compute. discriminate.
  - intros [_ [Hopen _]]. vm_compute in Hopen. discriminate.
Defined.

(** ** C8: switching to the profile that is already active *)

Lemma switch_to_active_saved E t w data n w' :
  (load_sequence w).1 = Ret data →
  resolve_account data t = Ret (Some n) →
  switch_to_account E t w = (Ret true, w') →
  ∃ updated,
    is_none (read_config (files w !! configs_file n)) = false ∧
    stored w' (set_lastUpdated (JStr updated) (set_activeAccountNumber n data)) ∧
    files w' !! claude_config_file =
      Some (json_dump (read_config (files w !! configs_file n))).
Proof.
  intros Hload%load_sequence_run Hres Hrun.
  remember (read_config (files w !! configs_file n)) as cfg eqn:Hcfg.
  assert (wp (switch_to_account E t)
            (λ r wf, r = Ret true →
               ∃ updated,
                 is_none cfg = false ∧
                 stored wf (set_lastUpdated (JStr updated)
                              (set_activeAccountNumber n data)) ∧
                 files wf !! claude_config_file = Some (json_dump cfg)) w)
    as Hwp.
  { unfold switch_to_account.
    apply wp_bind. eapply wp_run.
    { unfold load_sequence_or_report, try_except, bind. by rewrite Hload. }
    apply wp_bind, wp_lift. rewrite Hres.
    remember (files w !! configs_file n) as backup eqn:Hbackup.
    symmetry in Hbackup.
    wp_skip in (λ s, s = Configs n) as present; [|done].
    destruct (negb present); [wp_fails|].
    wp_skip in (λ s, s = Configs n) as proceed; [|done].
    destruct (negb proceed); [wp_fails|].
    apply wp_bind, wp_load_config_file. intros wa _.
    rewrite Hbackup, <- Hcfg. clear Hbackup.
    destruct (is_none cfg) eqn:Hnone; [wp_fails|].
    destruct (validate_claude_config cfg) as [is_valid message].
    destruct (negb is_valid); [wp_fails|].
    wp_skip; [|done].
    eapply wp_bind, wp_mono;
      [apply (save_config_file_spec E claude_config_file); reflexivity|].
    cbn beta.
    intros r wb [Hf [(-> & _ & _ & Hlive)|(-> & _)]]; [|wp_fails].
    cbn [negb].
    wp_skip in (λ s, s = ClaudeConfig) as updated; [|done].
    apply wp_bind, wp_save_sequence_guarded.
    - intros wc Hfc _ Hnew. cbn. transport Hfc.
      eapply wp_mono;
        [apply (wp_frame (λ s, s = Sequence ∨ s = ClaudeConfig));
         solve [solve_frame]|].
      intros r wd Hfd _. transport Hfd. by exists updated.
    - intros wc _ _ _. cbn. done. }
  unfold wp in Hwp. rewrite Hrun in Hwp. by apply Hwp.
Qed.




(** ** C2: looking a profile up by email *)

(** C2 fails on the code.  [add_account] stores the address under the key
    'email'; the lookup reads the key 'emailAddress'.  After [a@x.com] was
    registered from the live config, both [switch_to_account] and
    [remove_account] answer that the account is not found. *)
Theorem C2_email_lookup_misses_registered_profile :
  (get_claude_config first_run).1 = Ret config_a ∧
  (∃ data, (load_sequence one_account).1 = Ret data ∧
           accounts data =
             [("1", JDict [("email", JStr "a@x.com"); ("uuid", JStr "u1");
                           ("displayName", JStr "Unknown");
                           ("added", JStr "2025-01-02T09:00:00")])] ∧
           resolve_account data (TStr "a@x.com") = Ret None ∧
           resolve_account data (TStr "A@X.COM") = Ret None) ∧
  switch_to_account quiet (TStr "a@x.com") one_account =
    (Ret false, printed one_account "ERROR: Account 'a@x.com' not found.") ∧
  remove_account quiet (TStr "a@x.com") one_account =
    (Ret false, printed one_account "ERROR: Account 'a@x.com' not found.").
Proof.
  split_and!.
  - vm_compute. reflexivity.
  - eexists. split_and!; vm_compute; reflexivity.
  - vm_compute. reflexivity.
  - vm_compute. reflexivity.
Qed.

(** The miss is general: a record built by [add_account] has no
    'emailAddress', so in every reachable registry the lookup by a
    non-empty, non-numeric target finds nothing. *)
Lemma find_by_email_records acc wanted :
  Forall (λ kv : string * json, account_record kv.2) acc →
  wanted ≠ "" →
  find_by_email acc wanted = Ret None.
Proof.
  intros Hrec Hwanted. induction Hrec as [|[k v] acc Hv _ IH]; [done|].
  destruct Hv as (e & u & d & a & Hv). simpl in Hv. subst v.
  cbn [find_by_email py_get Dict.get]. simpl.
  destruct wanted; [done|]. exact IH.
Qed.

Lemma email_lookup_never_resolves w t :
  reachable w → isdigit t = false → lower t ≠ "" →
  ∃ data, load_sequence w = (Ret data, w) ∧
          resolve_account data (TStr t) = Ret None.
Proof.
  intros (data & Hs & Hok)%reachable_stored Hdigit Hlower.
  exists data. split; [by apply load_sequence_stored|].
  unfold resolve_account. simpl. rewrite Hdigit.
  apply find_by_email_records; [by destruct Hok|done].
Qed.

(** * Further properties of the code *)

(** ** The two writers and the two readers *)

Lemma untouched_all w w' : untouched (λ _, True) w w' → files w' = files w.
Proof. intros H. apply map_eq. intros q. by apply H. Qed.

Lemma frame_read_only {A} (m : M A) : frame (λ _, True) m → read_only m.
Proof. intros H w. apply untouched_all, H. Qed.

Lemma first_decoding_json_dump j :
  first_decoding encodings_to_try (json_dump j) = Parsed j.
Proof. reflexivity. Qed.

Lemma load_config_file_dumped p w j :
  files w !! p = Some (json_dump j) → load_config_file p w = (Ret j, w).
Proof.
  intros Hf. unfold load_config_file.
  by rewrite (load_config_file_from_spec _ _ _ _ Hf), first_decoding_json_dump.
Qed.

Lemma save_config_file_true E p data w :
  (save_config_file E p data w).1 = Ret true →
  valid_config data ∧
  write_succeeds E p ∧
  files (save_config_file E p data w).2 =
    <[p := json_dump data]>
      (delete (with_suffix p dot_tmp)
         (<[with_suffix p dot_tmp := json_dump data]> (files w))).
Proof.
  unfold valid_config, write_succeeds, save_config_file.
  destruct (validate_claude_config data) as [[] msg]; simpl; [|done].
  unfold try_except, bind, open_json_dump, path_replace, set_files.
  destruct (write_to E (with_suffix p dot_tmp)); simpl; try done.
  rewrite lookup_insert_eq.
  by destruct (replace_to E p).
Qed.

(** X1.  What [save_sequence] wrote, [load_sequence] reads back: after a
    save that did not raise, the next load returns the saved registry and
    prints nothing. *)
Theorem save_sequence_then_load E data w :
  (save_sequence E data w).1 = Ret tt →
  load_sequence (save_sequence E data w).2 =
    (Ret data, (save_sequence E data w).2).
Proof.
  intros Hret. apply load_sequence_stored.
  pose proof (save_sequence_spec E data w) as [_ [(_ & _ & Hs)|(Hr & _)]];
    [done|congruence].
Qed.

Lemma save_sequence_then_load_witness :
  (save_sequence quiet three_registry empty_world).1 = Ret tt ∧
  load_sequence (save_sequence quiet three_registry empty_world).2 =
    (Ret three_registry, (save_sequence quiet three_registry empty_world).2).
Proof.
  assert ((save_sequence quiet three_registry empty_world).1 = Ret tt) as Hret
    by (vm_compute; reflexivity).
  split; [exact Hret|].
  exact (save_sequence_then_load quiet three_registry empty_world Hret).
Defined.

(** X2.  What [save_config_file] wrote, [load_config_file] reads back:
    after a save that returned [True], loading the same path returns the
    payload that was saved and prints nothing. *)
Theorem save_config_file_then_load E p data w :
  (save_config_file E p data w).1 = Ret true →
  load_config_file p (save_config_file E p data w).2 =
    (Ret data, (save_config_file E p data w).2).
Proof.
  intros (_ & _ & Hfiles)%save_config_file_true.
  apply load_config_file_dumped. rewrite Hfiles. apply lookup_insert_eq.
Qed.

Lemma save_config_file_then_load_witness :
  (save_config_file quiet (configs_file 7) config_b empty_world).1 = Ret true ∧
  load_config_file (configs_file 7)
    (save_config_file quiet (configs_file 7) config_b empty_world).2 =
    (Ret config_b, (save_config_file quiet (configs_file 7) config_b empty_world).2).
Proof.
  assert ((save_config_file quiet (configs_file 7) config_b empty_world).1
          = Ret true) as Hret by (vm_compute; reflexivity).
  split; [exact Hret|].
  exact (save_config_file_then_load quiet (configs_file 7) config_b
           empty_world Hret).
Defined.

(** X3.  [save_sequence] replaces the registry in one step.  Either it
    returns, the registry file holds the new document and no temporary
    file is left; or it raises [IOError] and the registry file is what it
    was, whatever was written to the temporary file.  No other file is
    touched. *)
Theorem save_sequence_atomic E data w :
  (((save_sequence E data w).1 = Ret tt ∧
    stored (save_sequence E data w).2 data ∧
    files (save_sequence E data w).2 !! with_suffix sequence_file dot_tmp = None)
   ∨
   ((save_sequence E data w).1 = Raise IOError ∧
    files (save_sequence E data w).2 !! sequence_file =
      files w !! sequence_file)) ∧
  (∀ q : path, q.1 ≠ Sequence →
     files (save_sequence E data w).2 !! q = files w !! q).
Proof.
  split.
  - assert (with_suffix sequence_file dot_tmp ≠ sequence_file) as Hne
      by by apply tmp_ne.
    unfold save_sequence, try_except, bind, lift, stored.
    rewrite validate_json_of_registry.
    unfold open_json_dump, path_replace, set_files.
    destruct (write_to E (with_suffix sequence_file dot_tmp)) eqn:Hw; cbn.
    + rewrite lookup_insert_eq.
      destruct (replace_to E sequence_file) eqn:Hr; cbn.
      * left. split_and!; [done|by rewrite lookup_insert_eq|].
        rewrite lookup_insert_ne by done. apply lookup_delete_eq.
      * right. split; [done|]. by rewrite lookup_insert_ne.
    + right. by split.
    + right. split; [done|]. by rewrite lookup_insert_ne.
  - intros q Hq.
    by apply (frame_save_sequence (λ s, s ≠ Sequence) E data
                ltac:(by intros ?) w q).
Qed.

(** X4.  An I/O failure in [save_config_file] (the temporary file cannot be
    opened or written, or the rename fails) gives [False] and leaves the
    destination with its previous content; at most the temporary sibling
    differs afterwards. *)
Theorem save_config_file_io_failure E p data w :
  p.2 = dot_json → valid_config data → ¬ write_succeeds E p →
  (save_config_file E p data w).1 = Ret false ∧
  files (save_config_file E p data w).2 !! p = files w !! p ∧
  (∀ q : path, q ≠ with_suffix p dot_tmp →
     files (save_config_file E p data w).2 !! q = files w !! q).
Proof.
  intros Hp Hvalid Hfail. pose proof (tmp_ne p Hp) as Hne.
  revert Hvalid Hfail. unfold valid_config, write_succeeds, save_config_file.
  destruct (validate_claude_config data) as [[] msg]; simpl; [|done].
  intros _ Hfail.
  unfold try_except, bind, open_json_dump, path_replace, set_files.
  destruct (write_to E (with_suffix p dot_tmp)) eqn:Hw; cbn.
  - rewrite lookup_insert_eq.
    destruct (replace_to E p) eqn:Hr; cbn; [by destruct Hfail|].
    split_and!; [done|by rewrite lookup_insert_ne|].
    intros q Hq. by rewrite lookup_insert_ne.
  - by split_and!.
  - split_and!; [done|by rewrite lookup_insert_ne|].
    intros q Hq. by rewrite lookup_insert_ne.
Qed.

Lemma save_config_file_io_failure_witness :
  valid_config config_a ∧
  ¬ write_succeeds live_config_locked claude_config_file ∧
  (save_config_file live_config_locked claude_config_file config_a
     token_refreshed).1 = Ret false ∧
  files (save_config_file live_config_locked claude_config_file config_a
           token_refreshed).2 !! claude_config_file =
    files token_refreshed !! claude_config_file.
Proof.
  assert (valid_config config_a) as Hvalid by (vm_compute; reflexivity).
  assert (¬ write_succeeds live_config_locked claude_config_file) as Hlocked.
  { intros [_ Hreplace]. vm_compute in Hreplace. discriminate. }
  split; [exact Hvalid|]. split; [exact Hlocked|].
  destruct (save_config_file_io_failure live_config_locked claude_config_file
              config_a token_refreshed eq_refl Hvalid Hlocked)
    as (Hret & Hkeep & _).
  split; [exact Hret|exact Hkeep].
Defined.

Lemma check_required_dict fields place d :
  check_required fields place (JDict d) =
  match first_missing fields d with
  | Some field =>
      Raise (ValueError
               ("Missing required field '" +:+ field +:+ "' in " +:+ place))
  | None => Ret tt
  end.
Proof.
  induction fields as [|field fields IH]; simpl; [done|].
  by destruct (Dict.contains field d).
Qed.

Lemma load_sequence_parsed w f data :
  files w !! sequence_file = Some f →
  first_decoding encodings_to_try f = Parsed data →
  load_sequence w =
  match validate_sequence_data "sequence file" data with
  | Ret _ => (registry_of_data data, w)
  | Raise (ValueError msg) =>
      (Raise (ValueError msg), printed w ("ERROR: " +:+ msg))
  | Raise e => (Raise e, w)
  end.
Proof.
  intros Hf Hd. unfold load_sequence.
  by rewrite (load_sequence_from_spec _ _ _ Hf), Hd.
Qed.

(** X5.  A registry document that lacks a required field is refused:
    [load_sequence] prints the error and raises [ValueError] naming the
    first missing field in the order activeAccountNumber, lastUpdated,
    sequence, accounts.  No file changes. *)
Theorem load_sequence_missing_field w f d field :
  files w !! sequence_file = Some f →
  first_decoding encodings_to_try f = Parsed (JDict d) →
  first_missing required_fields d = Some field →
  load_sequence w =
    (Raise (ValueError ("Missing required field '" +:+ field +:+
                        "' in sequence file")),
     printed w ("ERROR: Missing required field '" +:+ field +:+
                "' in sequence file")).
Proof.
  intros Hf Hd Hmiss. rewrite (load_sequence_parsed _ _ _ Hf Hd).
  unfold validate_sequence_data, rbind.
  by rewrite check_required_dict, Hmiss.
Qed.

Lemma load_sequence_missing_field_witness :
  load_sequence registry_without_stamp =
    (Raise (ValueError "Missing required field 'lastUpdated' in sequence file"),
     printed registry_without_stamp
       "ERROR: Missing required field 'lastUpdated' in sequence file").
Proof.
  refine (load_sequence_missing_field registry_without_stamp _ _ "lastUpdated"
            _ _ _).
  - vm_compute. reflexivity.
  - vm_compute. reflexivity.
  - vm_compute. reflexivity.
Defined.

(** X6.  A registry document with all four fields is checked for the
    types of three of them, in this order: a non-integer
    activeAccountNumber, then a sequence that is not a list, then accounts
    that are not a dictionary; [load_sequence] raises [ValueError] with the
    message of the first check that fails. *)
Theorem load_sequence_wrong_type w f d active seq accs :
  files w !! sequence_file = Some f →
  first_decoding encodings_to_try f = Parsed (JDict d) →
  first_missing required_fields d = None →
  Dict.get "activeAccountNumber" d = Some active →
  Dict.get "sequence" d = Some seq →
  Dict.get "accounts" d = Some accs →
  isinstance_int active && isinstance_list seq && isinstance_dict accs = false →
  ∃ msg,
    load_sequence w = (Raise (ValueError msg), printed w ("ERROR: " +:+ msg)) ∧
    msg = if negb (isinstance_int active)
          then "activeAccountNumber must be an integer"
          else if negb (isinstance_list seq)
               then "sequence must be a list"
               else "accounts must be a dictionary".
Proof.
  intros Hf Hd Hmiss Ha Hs Hacc Hbad.
  rewrite (load_sequence_parsed _ _ _ Hf Hd).
  unfold validate_sequence_data, rbind, getitem.
  rewrite check_required_dict, Hmiss, Ha, Hs, Hacc.
  destruct (isinstance_int active); simpl; [|by eexists].
  destruct (isinstance_list seq); simpl; [|by eexists].
  destruct (isinstance_dict accs); simpl; [done|by eexists].
Qed.

Lemma load_sequence_wrong_type_witness :
  load_sequence registry_with_bad_sequence =
    (Raise (ValueError "sequence must be a list"),
     printed registry_with_bad_sequence "ERROR: sequence must be a list").
Proof.
  destruct (load_sequence_wrong_type registry_with_bad_sequence _ _
              (JInt 0) (JStr "1,2") (JDict [])
              ltac:(vm_compute; reflexivity) ltac:(vm_compute; reflexivity)
              ltac:(vm_compute; reflexivity) ltac:(vm_compute; reflexivity)
              ltac:(vm_compute; reflexivity) ltac:(vm_compute; reflexivity)
              ltac:(vm_compute; reflexivity))
    as (msg & Hload & Hmsg).
  rewrite Hload, Hmsg. reflexivity.
Defined.

(** ** An unreadable registry *)

Lemma load_sequence_read_only : read_only load_sequence.
Proof. apply frame_read_only, frame_load_sequence. Qed.

Lemma load_sequence_or_report_failure w e :
  (load_sequence w).1 = Raise e →
  is_ValueError e || is_FileNotFoundError e = true →
  load_sequence_or_report w =
    (Ret None,
     printed (load_sequence w).2 "ERROR: Could not load account sequence data.").
Proof.
  intros Hl Hcatch. unfold load_sequence_or_report, try_except, bind.
  destruct (load_sequence w) as [r w1]. simpl in Hl. subst r.
  by rewrite Hcatch.
Qed.



(** ** The live config *)

Lemma get_claude_config_value w :
  (get_claude_config w).1 = Ret (live_config (files w)).
Proof.
  assert (∀ p w0,
            ∃ w1, (if bool_decide (is_Some (files w0 !! p))
                   then load_config_file p else ret JNull) w0
                  = (Ret (read_config (files w0 !! p)), w1) ∧
                  files w1 = files w0) as Hread.
  { intros p w0. case_bool_decide as Hp.
    - destruct (load_config_file_read p w0) as [Hr Hfiles].
      destruct (load_config_file p w0) as [r w1]. simpl in Hr, Hfiles.
      subst r. by exists w1.
    - exists w0. split; [|done].
      destruct (files w0 !! p) eqn:Hlook; [|done].
      exfalso. apply Hp. by eexists. }
  unfold get_claude_config, bind, exists_, live_config. cbn zeta.
  destruct (Hread claude_config_file w) as (w1 & -> & Hfiles1).
  destruct (negb (is_none (read_config (files w !! claude_config_file))));
    [done|].
  destruct (Hread claude_alt_config_file w1) as (w2 & -> & Hfiles2).
  rewrite Hfiles1.
  by destruct (negb (is_none (read_config (files w !! claude_alt_config_file)))).
Qed.

Lemma get_claude_config_read_only : read_only get_claude_config.
Proof. apply frame_read_only, frame_get_claude_config. Qed.

Lemma wp_get_claude_config (Q : res json → world → Prop) w :
  (∀ w', files w' = files w → Q (Ret (live_config (files w))) w') →
  wp get_claude_config Q w.
Proof.
  intros H. unfold wp. rewrite get_claude_config_value.
  apply H, get_claude_config_read_only.
Qed.


(** ** [add_account] *)

Lemma valid_config_shape cfg :
  valid_config cfg →
  truthy cfg = true ∧
  validate_claude_config cfg = (true, "Config is valid") ∧
  getitem cfg "oauthAccount" = Ret (JDict (oauth_account_of cfg)).
Proof.
  intros (d & o & -> & Hget & He & Hu)%valid_config_identity.
  split_and!.
  - by destruct d.
  - unfold validate_claude_config. rewrite dict_get_contains, Hget.
    cbn [negb]. by rewrite (proj2 (first_missing_none o) (conj He Hu)).
  - unfold getitem, oauth_account_of. by rewrite Hget.
Qed.

Lemma save_config_file_succeeds E p data w :
  p.2 = dot_json → valid_config data → write_succeeds E p →
  (save_config_file E p data w).1 = Ret true ∧
  files (save_config_file E p data w).2 !! p = Some (json_dump data) ∧
  untouched (λ s, s ≠ p.1) w (save_config_file E p data w).2.
Proof.
  intros Hp Hvalid Hsucc.
  pose proof (save_config_file_spec E p data w Hp)
    as [Hf [(Hr & _ & _ & Hfile)|(_ & _ & Hno & _)]].
  - done.
  - by destruct (Hno Hvalid).
Qed.

Lemma backup_account_succeeds E n c w :
  0 < n → valid_config c →
  write_succeeds E (configs_file n) → write_succeeds E (credentials_file n) →
  (backup_account E n c c w).1 = Ret true ∧
  files (backup_account E n c c w).2 !! configs_file n = Some (json_dump c) ∧
  files (backup_account E n c c w).2 !! credentials_file n = Some (json_dump c) ∧
  untouched (λ s, s ≠ Configs n ∧ s ≠ Credentials n) w
    (backup_account E n c c w).2.
Proof.
  intros Hn Hvalid Hs1 Hs2.
  pose proof (backup_account_spec E n c w) as [Hf Hcase].
  assert ((backup_account E n c c w).1 = Ret true) as Htrue.
  { unfold backup_account. destruct (Z.leb_spec n 0) as [?|_]; [lia|].
    unfold bind.
    destruct (save_config_file_succeeds E (configs_file n) c w eq_refl
                Hvalid Hs1) as (Hr1 & _ & _).
    destruct (save_config_file E (configs_file n) c w) as [r1 w1].
    simpl in Hr1. subst r1.
    destruct (save_config_file_succeeds E (credentials_file n) c w1 eq_refl
                Hvalid Hs2) as (Hr2 & _ & _).
    destruct (save_config_file E (credentials_file n) c w1) as [r2 w2].
    simpl in Hr2. by subst r2. }
  destruct Hcase as [(_ & _ & _ & ? & ?)|Hfalse]; [done|congruence].
Qed.

(** X9.  Without a valid live config (no file, unreadable files, or a
    document without the identity section) [add_account] returns [False]
    and changes no file: nothing is registered. *)
Theorem add_account_rejects_invalid_config E w :
  ¬ valid_config (live_config (files w)) →
  (add_account E w).1 = Ret false ∧ files (add_account E w).2 = files w.
Proof.
  intros Hbad.
  change (wp (add_account E) (λ r w', r = Ret false ∧ files w' = files w) w).
  unfold add_account.
  apply wp_bind. eapply wp_run; [reflexivity|].
  apply wp_try, wp_bind, wp_get_claude_config. intros w1 Hfiles.
  cbn [files] in *.
  destruct (negb (truthy (live_config (files w))));
    [by apply wp_print_ret|].
  revert Hbad. unfold valid_config.
  destruct (validate_claude_config (live_config (files w))) as [[] msg];
    simpl; [done|]. intros _.
  by apply wp_print_ret.
Qed.

Lemma add_account_rejects_witness :
  ¬ valid_config (live_config (files empty_world)) ∧
  (add_account quiet empty_world).1 = Ret false ∧
  files (add_account quiet empty_world).2 = files empty_world.
Proof.
  assert (¬ valid_config (live_config (files empty_world))) as Hbad.
  { intros H. vm_compute in H. discriminate. }
  split; [exact Hbad|].
  exact (add_account_rejects_invalid_config quiet empty_world Hbad).
Defined.

Lemma stored_same_files w w' data :
  files w' = files w → stored w data → stored w' data.
Proof. unfold stored. by intros ->. Qed.

Lemma wp_datetime_now E (Q : res string → world → Prop) w :
  (∀ t w', files w' = files w → Q (Ret t) w') → wp (datetime_now E) Q w.
Proof. intros H. by apply H. Qed.

(** A clock reading: the files stay, the facts about them move on. *)
Ltac wp_now t :=
  apply wp_bind, wp_datetime_now;
  let Hf := fresh "Hf" in
  let w1 := fresh "w" in
  intros t w1 Hf;
  apply (untouched_same (λ _ : stem, True)) in Hf;
  transport Hf;
  clear Hf.



(** ** [switch_to_account] *)

(** One step of a run that writes no file. *)
Ltac wp_read_as x :=
  eapply wp_bind, wp_mono;
    [apply (wp_frame (λ _ : stem, True)); solve [solve_frame]|];
  cbn beta;
  let Hf := fresh "Hf" in
  let w1 := fresh "w" in
  intros [x|?] w1 Hf;
  transport Hf;
  repeat match goal with
    | Hs : files ?w = _ |- _ =>
        match type of Hf with
        | untouched _ w _ => rewrite <- (untouched_all _ _ Hf) in Hs
        end
    end;
  clear Hf.

Tactic Notation "wp_read" "as" ident(x) := wp_read_as x.
Tactic Notation "wp_read" := let x := fresh "x" in wp_read_as x.

Lemma load_sequence_or_report_run w data :
  (load_sequence w).1 = Ret data →
  load_sequence_or_report w = (Ret (Some data), w).
Proof.
  intros Hload%load_sequence_run.
  unfold load_sequence_or_report, try_except, bind. by rewrite Hload.
Qed.

(** X11.  A target that does not resolve, or that resolves to a profile
    whose backup file is absent, unreadable or without identity section,
    cannot be switched to: [switch_to_account] does not succeed and
    changes no file.  In the first case it returns [False] after the
    message that the account was not found. *)
Theorem switch_to_account_requires_valid_backup E t w data :
  (load_sequence w).1 = Ret data →
  (resolve_account data t = Ret None →
   switch_to_account E t w =
     (Ret false,
      printed w ("ERROR: Account '" +:+ target_str t +:+ "' not found."))) ∧
  (∀ n, resolve_account data t = Ret (Some n) →
        ¬ valid_config (read_config (files w !! configs_file n)) →
        (switch_to_account E t w).1 ≠ Ret true ∧
        files (switch_to_account E t w).2 = files w).
Proof.
  intros Hload%load_sequence_or_report_run. split.
  - intros Hres. unfold switch_to_account, bind at 1. rewrite Hload.
    unfold bind at 1, lift. by rewrite Hres.
  - intros n Hres Hbad.
    remember (files w) as fs eqn:Hfs. symmetry in Hfs.
    remember (files w !! configs_file n) as backup eqn:Hbackup.
    symmetry in Hbackup.
    assert (files w !! configs_file n = fs !! configs_file n) as Hsame
      by by rewrite Hfs.
    rewrite Hbackup in Hsame. clear Hbackup. subst backup.
    change (wp (switch_to_account E t)
              (λ r w', r ≠ Ret true ∧ files w' = fs) w).
    unfold switch_to_account.
    apply wp_bind. eapply wp_run; [exact Hload|].
    apply wp_bind, wp_lift. rewrite Hres.
    wp_read as present; [|done].
    destruct (negb present); [by apply wp_print_ret|].
    wp_read as proceed; [|done].
    destruct (negb proceed); [by apply wp_ret|].
    apply wp_bind, wp_load_config_file. intros wa Hfa.
    rewrite Hfs in Hfa. rewrite Hfs.
    destruct (is_none (read_config (fs !! configs_file n)));
      [by apply wp_print_ret|].
    revert Hbad. unfold valid_config.
    destruct (validate_claude_config (read_config (fs !! configs_file n)))
      as [[] msg]; simpl; [done|]. intros _.
    by apply wp_print_ret.
Qed.

Lemma switch_to_account_requires_witness :
  (load_sequence one_account).1 =
    Ret (Registry 1 (JStr "2025-01-03T09:00:00") [1]
           (firstn 1 (accounts three_registry))) ∧
  switch_to_account quiet (TStr "5") one_account =
    (Ret false, printed one_account "ERROR: Account '5' not found.").
Proof.
  assert ((load_sequence one_account).1 =
            Ret (Registry 1 (JStr "2025-01-03T09:00:00") [1]
                   (firstn 1 (accounts three_registry)))) as Hload
    by (vm_compute; reflexivity).
  split; [exact Hload|].
  apply (proj1 (switch_to_account_requires_valid_backup quiet (TStr "5")
                  one_account _ Hload)).
  vm_compute. reflexivity.
Defined.



(** ** Targets given by number *)

Lemma all_digits_uint d :
  all_chars is_digit (NilEmpty.string_of_uint d) = true.
Proof. induction d; simpl; auto. Qed.

Lemma isdigit_str z : 0 ≤ z → isdigit (str z) = true.
Proof.
  intros Hz. unfold str.
  destruct z as [|p|p]; [done| |lia].
  cbn [Z.to_int NilZero.string_of_int].
  pose proof (all_digits_uint (Pos.to_uint p)) as Hall.
  pose proof (Unsigned.to_uint_nonnil p) as Hnil.
  unfold NilZero.string_of_uint, isdigit.
  destruct (Pos.to_uint p); try done.
Qed.

Lemma target_int_str t n : target_str t = str n → target_int t = Ret n.
Proof.
  destruct t as [s|z]; simpl.
  - intros ->. by rewrite int_str.
  - by intros ->%str_inj.
Qed.

Lemma resolve_account_number data t n :
  0 ≤ n → target_str t = str n →
  resolve_account data t =
    Ret (if bool_decide (n ∈ sequence data) then Some n else None).
Proof.
  intros Hn Ht. unfold resolve_account.
  rewrite Ht, (isdigit_str _ Hn), (target_int_str _ _ Ht). simpl.
  by case_bool_decide.
Qed.



(** ** The backup of the outgoing profile *)

Lemma backup_account_copies E n c w :
  0 < n → valid_config c →
  (write_succeeds E (configs_file n) →
   files (backup_account E n c c w).2 !! configs_file n =
     Some (json_dump c)) ∧
  (write_succeeds E (credentials_file n) →
   files (backup_account E n c c w).2 !! credentials_file n =
     Some (json_dump c)).
Proof.
  intros Hn Hvalid.
  change (wp (backup_account E n c c)
            (λ _ w',
               (write_succeeds E (configs_file n) →
                files w' !! configs_file n = Some (json_dump c)) ∧
               (write_succeeds E (credentials_file n) →
                files w' !! credentials_file n = Some (json_dump c))) w).
  unfold backup_account. destruct (Z.leb_spec n 0) as [?|_]; [lia|].
  eapply wp_bind, wp_mono;
    [apply (save_config_file_spec E (configs_file n)); reflexivity|].
  cbn beta. intros r wa [_ Ha].
  assert (∃ b, r = Ret b ∧
               (write_succeeds E (configs_file n) →
                files wa !! configs_file n = Some (json_dump c)))
    as (b & -> & Hconfig).
  { destruct Ha as [(-> & _ & _ & H)|(-> & _ & H & _)].
    - by exists true.
    - exists false. split; [done|]. intros Hs. by destruct (H Hvalid). }
  eapply wp_bind, wp_mono;
    [apply (save_config_file_spec E (credentials_file n)); reflexivity|].
  cbn beta. intros r wb [Hfb Hb].
  assert (∃ b', r = Ret b' ∧
                (write_succeeds E (credentials_file n) →
                 files wb !! credentials_file n = Some (json_dump c)))
    as (b' & -> & Hcred).
  { destruct Hb as [(-> & _ & _ & H)|(-> & _ & H & _)].
    - by exists true.
    - exists false. split; [done|]. intros Hs. by destruct (H Hvalid). }
  apply wp_ret. split; [|done].
  intros Hs. rewrite (Hfb (configs_file n)); [by apply Hconfig|].
  simpl. discriminate.
Qed.

Lemma backup_current_copies E data w :
  0 < activeAccountNumber data →
  valid_config (live_config (files w)) →
  write_succeeds E (configs_file (activeAccountNumber data)) →
  files (backup_current E data w).2 !! configs_file (activeAccountNumber data)
    = Some (json_dump (live_config (files w))).
Proof.
  intros Ha Hvalid Hs.
  change (wp (backup_current E data)
            (λ _ w', files w' !! configs_file (activeAccountNumber data)
                     = Some (json_dump (live_config (files w)))) w).
  unfold backup_current. apply wp_try.
  apply wp_bind, wp_get_claude_config. intros wa _.
  destruct (valid_config_shape _ Hvalid) as (-> & _ & _).
  destruct (Z.ltb_spec 0 (activeAccountNumber data)) as [_|?]; [|lia].
  apply wp_bind. unfold wp.
  pose proof (backup_account_spec E (activeAccountNumber data)
                (live_config (files w)) wa) as [_ Hcase].
  pose proof (backup_account_copies E (activeAccountNumber data)
                (live_config (files w)) wa Ha Hvalid) as [Hcopy _].
  destruct (backup_account E (activeAccountNumber data)
              (live_config (files w)) (live_config (files w)) wa) as [r wb].
  simpl in Hcase, Hcopy. simpl.
  destruct Hcase as [(-> & _)| ->]; by apply Hcopy.
Qed.

(** X14.  [backup_account] makes its two copies independently.  With a
    number that is not positive it writes nothing and returns [False].
    Otherwise, for a valid payload, it returns [True] exactly when both
    writes go through, and each copy whose write goes through holds the
    payload afterwards, also when the other one failed. *)
Theorem backup_account_copies_independently E n c w :
  (n ≤ 0 →
   (backup_account E n c c w).1 = Ret false ∧
   files (backup_account E n c c w).2 = files w) ∧
  (0 < n → valid_config c →
   ((backup_account E n c c w).1 = Ret true ↔
    write_succeeds E (configs_file n) ∧
    write_succeeds E (credentials_file n)) ∧
   (write_succeeds E (configs_file n) →
    files (backup_account E n c c w).2 !! configs_file n =
      Some (json_dump c)) ∧
   (write_succeeds E (credentials_file n) →
    files (backup_account E n c c w).2 !! credentials_file n =
      Some (json_dump c))).
Proof.
  split.
  - intros Hn. unfold backup_account.
    by destruct (Z.leb_spec n 0) as [_|?]; [|lia].
  - intros Hn Hvalid.
    destruct (backup_account_copies E n c w Hn Hvalid) as [Hconfig Hcred].
    split_and!; [|done|done]. split.
    + intros Htrue.
      pose proof (backup_account_spec E n c w) as [_ Hcase].
      destruct Hcase as [(_ & H1 & H2 & _)|Hfalse]; [done|].
      unfold wp in Hfalse. congruence.
    + intros [H1 H2]. by apply backup_account_succeeds.
Qed.

Lemma backup_account_copies_witness :
  (backup_account credentials_full 1 config_a config_a empty_world).1
    ≠ Ret true ∧
  files (backup_account credentials_full 1 config_a config_a empty_world).2
    !! configs_file 1 = Some (json_dump config_a).
Proof.
  destruct (proj2 (backup_account_copies_independently credentials_full 1
                     config_a empty_world))
    as (Hiff & Hconfig & _); [lia|vm_compute; reflexivity|].
  split.
  - intros Htrue. apply Hiff in Htrue as [_ [Hopen _]].
    vm_compute in Hopen. discriminate.
  - apply Hconfig. split; vm_compute; reflexivity.
Defined.

Lemma switch_saves_outgoing E t w data n w' :
  (load_sequence w).1 = Ret data →
  resolve_account data t = Ret (Some n) →
  0 < activeAccountNumber data →
  valid_config (live_config (files w)) →
  write_succeeds E (configs_file (activeAccountNumber data)) →
  switch_to_account E t w = (Ret true, w') →
  files w' !! configs_file (activeAccountNumber data) =
    Some (json_dump (live_config (files w))).
Proof.
  intros Hload%load_sequence_or_report_run Hres Ha Hvalid Hs Hrun.
  remember (files w) as fs eqn:Hfs. symmetry in Hfs.
  assert (wp (switch_to_account E t)
            (λ r wf, r = Ret true →
               files wf !! configs_file (activeAccountNumber data) =
                 Some (json_dump (live_config fs))) w) as Hwp.
  { unfold switch_to_account.
    apply wp_bind. eapply wp_run; [exact Hload|].
    apply wp_bind, wp_lift. rewrite Hres.
    wp_read as present; [|done].
    destruct (negb present); [wp_fails|].
    wp_read as proceed; [|done].
    destruct (negb proceed); [wp_fails|].
    apply wp_bind, wp_load_config_file. intros wa Hfa.
    rewrite Hfs in Hfa.
    destruct (is_none _); [wp_fails|].
    destruct (validate_claude_config _) as [is_valid message].
    destruct (negb is_valid); [wp_fails|].
    apply wp_bind.
    destruct (backup_current_returns E data wa) as [wb Hb].
    pose proof (backup_current_copies E data wa Ha) as Hcopy.
    rewrite Hfa, Hb in Hcopy. specialize (Hcopy Hvalid Hs). simpl in Hcopy.
    eapply wp_run; [exact Hb|].
    eapply wp_bind, wp_mono;
      [apply (save_config_file_spec E claude_config_file); reflexivity|].
    cbn beta.
    intros r wc [Hf [(-> & _)|(-> & _)]]; [|wp_fails].
    transport Hf. clear Hf. cbn [negb].
    wp_now updated.
    apply wp_bind, wp_save_sequence_guarded.
    - intros wd Hfd _ _. cbn. transport Hfd.
      eapply wp_mono;
        [apply (wp_frame (λ s, s = Configs (activeAccountNumber data)));
         solve [solve_frame]|].
      intros r we Hfe _. by transport Hfe.
    - intros wd _ _ _. cbn. done. }
  unfold wp in Hwp. rewrite Hrun in Hwp. by apply Hwp.
Qed.

(** X15.  A successful switch first saves the live config of the
    outgoing profile: when the registry names an active profile, the live
    config is valid and the backup copy can be written, the backup file of
    the outgoing profile holds afterwards the live config as it was when
    the call began. *)
Theorem switch_to_account_saves_outgoing E t w data n w' :
  (load_sequence w).1 = Ret data →
  resolve_account data t = Ret (Some n) →
  0 < activeAccountNumber data →
  valid_config (live_config (files w)) →
  write_succeeds E (configs_file (activeAccountNumber data)) →
  switch_to_account E t w = (Ret true, w') →
  (load_config_file (configs_file (activeAccountNumber data)) w').1 =
    Ret (live_config (files w)).
Proof.
  intros Hload Hres Ha Hvalid Hs Hrun.
  rewrite (load_config_file_dumped _ _ (live_config (files w))); [done|].
  by eapply switch_saves_outgoing.
Qed.

Lemma switch_to_account_saves_outgoing_witness :
  (load_config_file (configs_file 1)
     (switch_to_account quiet (TStr "2")
        (log_in config_a_refreshed
           (switch_to_account quiet (TStr "1") two_accounts).2)).2).1 =
  Ret config_a_refreshed.
Proof.
  apply (switch_to_account_saves_outgoing quiet (TStr "2")
           (log_in config_a_refreshed
              (switch_to_account quiet (TStr "1") two_accounts).2)
           (Registry 1 (JStr "2025-01-06T09:00:00") [1; 2]
              (firstn 2 (accounts three_registry))) 2).
  - vm_compute. reflexivity.
  - vm_compute. reflexivity.
  - simpl. lia.
  - vm_compute. reflexivity.
  - split; vm_compute; reflexivity.
  - vm_compute. reflexivity.
Defined.

Lemma switch_to_account_resolved E t w data w' :
  (load_sequence w).1 = Ret data →
  switch_to_account E t w = (Ret true, w') →
  ∃ n, resolve_account data t = Ret (Some n).
Proof.
  intros Hload%load_sequence_or_report_run.
  unfold switch_to_account, bind at 1. rewrite Hload.
  unfold bind at 1, lift.
  destruct (resolve_account data t) as [[n|]|e]; [eauto| |].
  - unfold bind, print, ret. simpl. by intros [=].
  - by intros [=].
Qed.

(** X16.  Switching away from a profile and back restores its live
    config.  When a switch away from the active profile [a] succeeds with
    the backup copy of [a] written, then, whatever the host application
    does to the live config in between, a later successful switch to [a]
    by number leaves the live config as it was before the first switch,
    with [a] active again and sequence and accounts unchanged. *)
Theorem switch_away_and_back_restores_live_config
    E1 E2 t1 t2 w data n w1 w1' w2 :
  (load_sequence w).1 = Ret data →
  resolve_account data t1 = Ret (Some n) →
  0 < activeAccountNumber data →
  valid_config (live_config (files w)) →
  write_succeeds E1 (configs_file (activeAccountNumber data)) →
  switch_to_account E1 t1 w = (Ret true, w1) →
  outside_change w1 w1' →
  target_str t2 = str (activeAccountNumber data) →
  switch_to_account E2 t2 w1' = (Ret true, w2) →
  (get_claude_config w2).1 = Ret (live_config (files w)) ∧
  ∃ updated,
    stored w2 (Registry (activeAccountNumber data) (JStr updated)
                 (sequence data) (accounts data)).
Proof.
  intros Hload Hres Ha Hvalid Hs Hrun1 Hout Ht2 Hrun2.
  pose proof (switch_saves_outgoing _ _ _ _ _ _ Hload Hres Ha Hvalid Hs Hrun1)
    as Hcopy.
  destruct (switch_to_active_saved _ _ _ _ _ _ Hload Hres Hrun1)
    as (updated1 & _ & Hstored1 & _).
  rewrite <- (Hout (configs_file (activeAccountNumber data))) in Hcopy by done.
  unfold stored in Hstored1.
  rewrite <- (Hout sequence_file) in Hstored1 by done.
  assert ((load_sequence w1').1 =
            Ret (set_lastUpdated (JStr updated1)
                   (set_activeAccountNumber n data))) as Hload1
    by by rewrite (load_sequence_stored _ _ Hstored1).
  destruct (switch_to_account_resolved _ _ _ _ _ Hload1 Hrun2) as [m Hm].
  rewrite (resolve_account_number _ _ (activeAccountNumber data)) in Hm
    by (done || lia).
  assert (m = activeAccountNumber data) as -> by by case_bool_decide; simplify_eq.
  assert (resolve_account
            (set_lastUpdated (JStr updated1) (set_activeAccountNumber n data))
            t2 = Ret (Some (activeAccountNumber data))) as Hres2.
  { rewrite (resolve_account_number _ _ (activeAccountNumber data))
      by (done || lia). exact Hm. }
  destruct (switch_to_active_saved _ _ _ _ _ _ Hload1 Hres2 Hrun2)
    as (updated2 & Hnone & Hstored2 & Hlive).
  rewrite Hcopy in Hnone, Hlive. cbn [read_config] in Hnone, Hlive.
  rewrite first_decoding_json_dump in Hnone, Hlive.
  split.
  - by apply get_claude_config_live.
  - exists updated2. exact Hstored2.
Qed.

Lemma switch_away_and_back_witness :
  live_config (files refreshed_on_first) = config_a_refreshed ∧
  (get_claude_config
     (switch_to_account quiet (TStr "1")
        (switch_to_account quiet (TStr "2") refreshed_on_first).2).2).1 =
  Ret (live_config (files refreshed_on_first)).
Proof.
  split; [vm_compute; reflexivity|].
  assert ((load_sequence refreshed_on_first).1 =
            Ret (Registry 1 (JStr "2025-01-06T09:00:00") [1; 2]
                   (firstn 2 (accounts three_registry)))) as Hload
    by (vm_compute; reflexivity).
  assert (resolve_account
            (Registry 1 (JStr "2025-01-06T09:00:00") [1; 2]
               (firstn 2 (accounts three_registry)))
            (TStr "2") = Ret (Some 2)) as Hres
    by (vm_compute; reflexivity).
  assert (switch_to_account quiet (TStr "2") refreshed_on_first =
            (Ret true,
             (switch_to_account quiet (TStr "2") refreshed_on_first).2))
    as Hrun1 by (vm_compute; reflexivity).
  assert (switch_to_account quiet (TStr "1")
            (switch_to_account quiet (TStr "2") refreshed_on_first).2 =
            (Ret true,
             (switch_to_account quiet (TStr "1")
                (switch_to_account quiet (TStr "2")
                   refreshed_on_first).2).2)) as Hrun2
    by (vm_compute; reflexivity).
  refine (proj1 (switch_away_and_back_restores_live_config
                   quiet quiet (TStr "2") (TStr "1") refreshed_on_first
                   _ 2 _ _ _ Hload Hres _ _ _ Hrun1 _ _ Hrun2)).
  - simpl. lia.
  - vm_compute. reflexivity.
  - split; reflexivity.
  - intros q _ _. reflexivity.
  - reflexivity.
Defined.

(** ** What a switch needs to succeed *)

Lemma dict_get_Forall (P : string * json → Prop) key (d : dict) v :
  Forall P d → Dict.get key d = Some v → ∃ k, P (k, v).
Proof.
  induction 1 as [|[k v'] d Hv _ IH]; simpl; [done|].
  destruct (String.eqb k key); [|done]. intros [= ->]. eauto.
Qed.

Lemma account_field_defined data n key :
  registry_ok data →
  ∃ j, (info <~ py_get (JDict (accounts data)) (str n) (JDict []) ;;
        py_get info key (JStr "Unknown")) = Ret j.
Proof.
  intros [_ _ _ _ Hrec]. cbn [py_get rbind].
  destruct (Dict.get (str n) (accounts data)) as [v|] eqn:Hget; simpl.
  - destruct (dict_get_Forall _ _ _ _ Hrec Hget)
      as (k & e & u & d & a & Hv). simpl in Hv. subst v. simpl. eauto.
  - eauto.
Qed.

(** X17.  The backup of the outgoing profile is best effort.  With a
    registry in good order, a target whose backup file holds a valid
    payload, the liveness check passed and the writes of the live config
    and of the registry going through, [switch_to_account] returns [True]
    whether or not the backup copies of the outgoing profile can be
    written. *)
Theorem switch_to_account_succeeds_without_backup E t w data n :
  (load_sequence w).1 = Ret data →
  registry_ok data →
  resolve_account data t = Ret (Some n) →
  valid_config (read_config (files w !! configs_file n)) →
  (confirm_not_running E w).1 = Ret true →
  write_succeeds E claude_config_file →
  write_succeeds E sequence_file →
  (switch_to_account E t w).1 = Ret true.
Proof.
  intros Hload%load_sequence_or_report_run Hok Hres Hvalid Hconfirm
    Hlive Hseq.
  assert (is_Some (files w !! configs_file n)) as Hbackup.
  { destruct (files w !! configs_file n); [eauto|]. by simpl in Hvalid. }
  change (wp (switch_to_account E t) (λ r _, r = Ret true) w).
  unfold switch_to_account.
  apply wp_bind. eapply wp_run; [exact Hload|].
  apply wp_bind, wp_lift. rewrite Hres.
  apply wp_bind. eapply wp_run; [reflexivity|].
  rewrite bool_decide_eq_true_2 by done. cbn [negb].
  apply wp_bind.
  pose proof (frame_confirm_not_running (λ _, True) E w) as Hframe.
  destruct (confirm_not_running E w) as [r1 w1] eqn:Hc.
  simpl in Hconfirm, Hframe. subst r1.
  eapply wp_run; [exact Hc|]. cbn [negb].
  apply wp_bind, wp_load_config_file. intros w2 _.
  rewrite (Hframe (configs_file n) I).
  rewrite (valid_config_not_none _ Hvalid).
  pose proof Hvalid as Hv. unfold valid_config in Hv.
  destruct (validate_claude_config _) as [is_valid message].
  simpl in Hv. subst is_valid. cbn [negb].
  apply wp_bind.
  destruct (backup_current_returns E data w2) as [w3 Hb].
  eapply wp_run; [exact Hb|].
  eapply wp_bind, wp_mono;
    [apply (save_config_file_spec E claude_config_file); reflexivity|].
  cbn beta. intros r w4 [_ [(-> & _)|(-> & _ & Hno & _)]];
    [|by destruct (Hno Hvalid)].
  cbn [negb]. wp_now updated.
  apply wp_bind, wp_save_sequence_guarded.
  - intros w6 _ _ _. cbn [negb].
    cbn [accounts set_lastUpdated set_activeAccountNumber].
    destruct (account_field_defined data n "email" Hok) as [j Hj].
    apply wp_bind, wp_lift. rewrite Hj. by apply wp_print_ret.
  - intros w6 _ Hno _. by destruct Hno.
Qed.

Lemma switch_to_account_succeeds_without_backup_witness :
  ¬ write_succeeds backups_locked (configs_file 2) ∧
  (switch_to_account backups_locked (TStr "1") two_accounts).1 = Ret true.
Proof.
  split.
  - intros [Hopen _]. vm_compute in Hopen. discriminate.
  - apply (switch_to_account_succeeds_without_backup backups_locked (TStr "1")
             two_accounts
             (Registry 2 (JStr "2025-01-05T09:00:00") [1; 2]
                (firstn 2 (accounts three_registry))) 1).
    + vm_compute. reflexivity.
    + split; simpl.
      * reflexivity.
      * apply NoDup_cons_2; [|apply NoDup_singleton].
        rewrite not_elem_of_cons. split; [done|apply not_elem_of_nil].
      * repeat constructor; lia.
      * right. set_solver.
      * repeat constructor; simpl; by eexists _, _, _, _.
    + vm_compute. reflexivity.
    + vm_compute. reflexivity.
    + vm_compute. reflexivity.
    + split; vm_compute; reflexivity.
    + split; vm_compute; reflexivity.
Defined.

(** ** The liveness check *)

Lemma confirm_not_running_running E w :
  tasklist_runs E = true → tasklist_shows_claude E = true →
  (confirm_not_running E w).1 =
    match stdin w with
    | [] => Raise EOFError
    | line :: _ => Ret (String.eqb (lower line) "y")
    end.
Proof.
  intros Hr Hs.
  unfold confirm_not_running, confirm_after_probe_failure, try_except, bind,
    is_claude_running, print, input, ret.
  rewrite Hr, Hs. simpl.
  destruct (stdin w) as [|line rest]; simpl; [done|].
  by destruct (String.eqb (lower line) "y").
Qed.

(** X18.  When the host application is found running, the switch asks
    before going on.  Any answer whose lower case is not [y] cancels it:
    [switch_to_account] returns [False].  With no input left the prompt
    of the handler raises [EOFError], which nothing catches.  In both
    cases no file is changed. *)
Theorem switch_to_account_asks_when_running E t w data n :
  (load_sequence w).1 = Ret data →
  resolve_account data t = Ret (Some n) →
  is_Some (files w !! configs_file n) →
  tasklist_runs E = true → tasklist_shows_claude E = true →
  match stdin w with
  | [] => (switch_to_account E t w).1 = Raise EOFError
  | line :: _ =>
      lower line ≠ "y" → (switch_to_account E t w).1 = Ret false
  end ∧
  (match stdin w with [] => True | line :: _ => lower line ≠ "y" end →
   files (switch_to_account E t w).2 = files w).
Proof.
  intros Hload%load_sequence_or_report_run Hres Hbackup Hr Hs.
  pose proof (confirm_not_running_running E w Hr Hs) as Hconfirm.
  pose proof (frame_confirm_not_running (λ _, True) E w) as Hframe.
  apply untouched_all in Hframe.
  destruct (switch_to_account E t w) as [r' w'] eqn:Hrun.
  unfold switch_to_account, bind at 1 in Hrun. rewrite Hload in Hrun.
  unfold bind at 1, lift in Hrun. rewrite Hres in Hrun.
  unfold bind at 1, exists_ in Hrun.
  rewrite bool_decide_eq_true_2 in Hrun by done.
  cbn [negb] in Hrun. unfold bind at 1 in Hrun.
  destruct (confirm_not_running E w) as [r w1]. simpl in Hconfirm, Hframe.
  destruct (stdin w) as [|line rest]; subst r; simpl.
  - by simplify_eq.
  - split; intros Hline%String.eqb_neq; rewrite Hline in Hrun;
      cbn [negb] in Hrun; unfold ret in Hrun; by simplify_eq.
Qed.

Lemma switch_to_account_asks_witness :
  (switch_to_account claude_running (TStr "1") two_accounts).1
    = Raise EOFError ∧
  (switch_to_account claude_running (TStr "1")
     (type_lines ["n"] two_accounts)).1 = Ret false.
Proof.
  split.
  - refine (proj1 (switch_to_account_asks_when_running claude_running
                     (TStr "1") two_accounts
                     (Registry 2 (JStr "2025-01-05T09:00:00") [1; 2]
                        (firstn 2 (accounts three_registry))) 1
                     _ _ _ eq_refl eq_refl)).
    + vm_compute. reflexivity.
    + vm_compute. reflexivity.
    + vm_compute. eexists. reflexivity.
  - refine (proj1 (switch_to_account_asks_when_running claude_running
                     (TStr "1") (type_lines ["n"] two_accounts)
                     (Registry 2 (JStr "2025-01-05T09:00:00") [1; 2]
                        (firstn 2 (accounts three_registry))) 1
                     _ _ _ eq_refl eq_refl) _).
    + vm_compute. reflexivity.
    + vm_compute. reflexivity.
    + vm_compute. eexists. reflexivity.
    + vm_compute. discriminate.
Defined.

(** ** [remove_account] *)

(** X19.  [remove_account] changes no file and does not succeed unless
    the next line of input reads [y] in lower case: a target that is not
    found, any other answer and the end of input all leave every file as
    it was. *)
Theorem remove_account_needs_confirmation E t w data :
  (load_sequence w).1 = Ret data →
  match stdin w with [] => True | line :: _ => lower line ≠ "y" end →
  (remove_account E t w).1 ≠ Ret true ∧
  files (remove_account E t w).2 = files w.
Proof.
  intros Hload%load_sequence_or_report_run Hstdin.
  change (wp (remove_account E t)
            (λ r w', r ≠ Ret true ∧ files w' = files w) w).
  unfold remove_account.
  apply wp_bind. eapply wp_run; [exact Hload|].
  apply wp_bind, wp_lift.
  destruct (resolve_account data t) as [[n|]|e];
    [|by apply wp_print_ret|done].
  apply wp_bind, wp_lift.
  destruct (info <~ py_get (JDict (accounts data)) (str n) (JDict []) ;;
            py_get info "emailAddress" (JStr "Unknown")) as [email|e];
    [|done].
  apply wp_bind. eapply wp_run; [reflexivity|].
  apply wp_bind. unfold wp, input. cbn [stdin files].
  destruct (stdin w) as [|line rest]; simpl; [done|].
  apply String.eqb_neq in Hstdin. by rewrite Hstdin.
Qed.

Lemma remove_account_needs_confirmation_witness :
  (remove_account quiet (TStr "1") (type_lines ["yes"] two_accounts)).1
    ≠ Ret true ∧
  files (remove_account quiet (TStr "1") (type_lines ["yes"] two_accounts)).2
    = files (type_lines ["yes"] two_accounts).
Proof.
  apply (remove_account_needs_confirmation quiet (TStr "1")
           (type_lines ["yes"] two_accounts)
           (Registry 2 (JStr "2025-01-05T09:00:00") [1; 2]
              (firstn 2 (accounts three_registry)))).
  - vm_compute. reflexivity.
  - vm_compute. discriminate.
Defined.

Lemma wp_unlink_if E p (Q : res unit → world → Prop) w :
  (files w !! p = None → Q (Ret tt) w) →
  (is_Some (files w !! p) → unlink_at E p = true →
   Q (Ret tt) (set_files (delete p (files w)) w)) →
  (is_Some (files w !! p) → unlink_at E p = false → Q (Raise IOError) w) →
  wp (if bool_decide (is_Some (files w !! p)) then unlink E p else ret tt) Q w.
Proof.
  intros Hnone Hdel Hfail. case_bool_decide as Hp.
  - unfold wp, unlink. destruct Hp as [f Hp]. rewrite Hp.
    destruct (unlink_at E p) eqn:Hu; simpl.
    + apply Hdel; [by rewrite Hp|done].
    + apply Hfail; [by rewrite Hp|done].
  - apply wp_ret, Hnone. by apply eq_None_not_Some.
Qed.

(** What the best-effort removal of the backups leaves behind. *)
Lemma unlink_backups_spec E n w :
  wp (unlink_backups E n)
     (λ r w',
        r = Ret tt ∧
        untouched (λ s, s ≠ Configs n ∧ s ≠ Credentials n) w w' ∧
        (unlink_at E (configs_file n) = true →
         unlink_at E (credentials_file n) = true →
         files w' !! configs_file n = None ∧
         files w' !! credentials_file n = None) ∧
        (is_Some (files w !! configs_file n) →
         unlink_at E (configs_file n) = false →
         files w' = files w)) w.
Proof.
  assert (∀ q : path, q.1 ≠ Configs n → configs_file n ≠ q) as Hc
    by (intros q Hq <-; by apply Hq).
  assert (∀ q : path, q.1 ≠ Credentials n → credentials_file n ≠ q) as Hd
    by (intros q Hq <-; by apply Hq).
  assert (credentials_file n ≠ configs_file n) as Hne by done.
  assert (configs_file n ≠ credentials_file n) as Hne' by done.
  assert (∀ f : option file, is_Some f → f = None → False) as Hno
    by (intros f [x ->]; done).
  unfold unlink_backups. apply wp_try.
  apply wp_bind. eapply wp_run; [reflexivity|].
  apply wp_bind, wp_unlink_if.
  - intros H1. apply wp_bind. eapply wp_run; [reflexivity|].
    apply wp_unlink_if.
    + intros H2. split_and!; [done|apply untouched_refl|done|].
      intros Hsome _. by destruct (Hno _ Hsome).
    + intros H2 Hu2. split_and!; [done| | |].
      * intros q [Hq1 Hq2]. simpl. by rewrite lookup_delete_ne by auto.
      * intros _ _. simpl. split.
        -- by rewrite lookup_delete_ne by done.
        -- by rewrite lookup_delete_eq.
      * intros Hsome _. by destruct (Hno _ Hsome).
    + intros H2 Hu2. cbn. unfold wp, print. simpl. split_and!; [done|by apply untouched_same| |].
      * intros _ Hu. congruence.
      * intros Hsome _. by destruct (Hno _ Hsome).
  - intros H1 Hu1. apply wp_bind. eapply wp_run; [reflexivity|].
    set (w1 := set_files (delete (configs_file n) (files w)) w).
    assert (files w1 !! configs_file n = None) as Hgone
      by (simpl; by rewrite lookup_delete_eq).
    assert (∀ q, configs_file n ≠ q → files w1 !! q = files w !! q) as Hkept
      by (intros q Hq; simpl; by rewrite lookup_delete_ne).
    clearbody w1.
    apply wp_unlink_if.
    + intros H2. split_and!; [done| |done|].
      * intros q [Hq1 Hq2]. auto.
      * intros _ Hu. congruence.
    + intros H2 Hu2. split_and!; [done| | |].
      * intros q [Hq1 Hq2]. simpl. rewrite lookup_delete_ne by auto. auto.
      * intros _ _. simpl. split.
        -- by rewrite lookup_delete_ne by done.
        -- by rewrite lookup_delete_eq.
      * intros _ Hu. congruence.
    + intros H2 Hu2. cbn. unfold wp, print. simpl. split_and!; [done| | |].
      * intros q [Hq1 Hq2]. simpl. auto.
      * intros _ Hu. congruence.
      * intros _ Hu. congruence.
  - intros H1 Hu1. cbn. unfold wp, print. simpl. split_and!; [done|by apply untouched_same| |done].
    intros Hu. congruence.
Qed.

Lemma removed_registered data n :
  registry_ok data → n ∈ sequence data →
  removed n data =
    Registry (if activeAccountNumber data =? n
              then default 0 (head (list_remove n (sequence data)))
              else activeAccountNumber data)
             (lastUpdated data)
             (list_remove n (sequence data))
             (Dict.del (str n) (accounts data)).
Proof.
  intros Hok Hin.
  assert (Dict.contains (str n) (accounts data) = true) as Hcontains.
  { apply dict_contains_keys. rewrite (ok_keys _ Hok). by apply str_elem. }
  destruct data as [active updated seq accs].
  cbn [accounts sequence activeAccountNumber lastUpdated] in *.
  unfold removed. cbn [sequence]. rewrite bool_decide_eq_true_2 by done.
  cbn [accounts set_sequence]. rewrite Hcontains.
  unfold set_accounts, set_sequence, set_activeAccountNumber.
  cbn [activeAccountNumber sequence accounts lastUpdated].
  destruct (active =? n); [|done].
  by destruct (list_remove n seq).
Qed.



(** X21.  Deleting the backup files is best effort.  With a registry in
    good order, a registered target, the answer [y] and the write of the
    registry going through, [remove_account] returns [True] whether or
    not the files can be deleted; when deleting the configs copy is
    refused, both backup files are left as they were, the credentials
    copy not even being tried. *)
Theorem remove_account_succeeds_without_unlink E t w data n line rest :
  (load_sequence w).1 = Ret data →
  registry_ok data →
  resolve_account data t = Ret (Some n) →
  stdin w = line :: rest →
  lower line = "y" →
  write_succeeds E sequence_file →
  (remove_account E t w).1 = Ret true ∧
  (is_Some (files w !! configs_file n) →
   unlink_at E (configs_file n) = false →
   files (remove_account E t w).2 !! configs_file n =
     files w !! configs_file n ∧
   files (remove_account E t w).2 !! credentials_file n =
     files w !! credentials_file n).
Proof.
  intros Hload%load_sequence_or_report_run Hok Hres Hstdin Hline Hseq.
  change (wp (remove_account E t)
            (λ r wf,
               r = Ret true ∧
               (is_Some (files w !! configs_file n) →
                unlink_at E (configs_file n) = false →
                files wf !! configs_file n = files w !! configs_file n ∧
                files wf !! credentials_file n =
                  files w !! credentials_file n)) w).
  unfold remove_account.
  apply wp_bind. eapply wp_run; [exact Hload|].
  apply wp_bind, wp_lift. rewrite Hres.
  destruct (account_field_defined data n "emailAddress" Hok) as [j Hj].
  apply wp_bind, wp_lift. rewrite Hj.
  apply wp_bind. eapply wp_run; [reflexivity|].
  apply wp_bind. eapply wp_run.
  { unfold input. cbn [stdin]. rewrite Hstdin. reflexivity. }
  cbn beta iota. rewrite Hline. cbn [String.eqb Ascii.eqb negb].
  apply wp_bind. eapply wp_run; [reflexivity|].
  apply wp_bind, wp_save_sequence_guarded.
  - intros wa Hfa _ _. cbn [negb].
    eapply wp_bind, wp_mono; [apply unlink_backups_spec|].
    cbn beta. intros r wb (-> & _ & _ & Hkeep).
    apply wp_print_ret. split; [done|]. intros Hsome Hu.
    cbn [files printed].
    rewrite Hkeep; [|by rewrite (Hfa (configs_file n))|done].
    by rewrite (Hfa (configs_file n)), (Hfa (credentials_file n)).
  - intros wa _ Hno _. by destruct Hno.
Qed.

Lemma remove_account_succeeds_without_unlink_witness :
  (remove_account unlink_denied (TStr "3")
     (type_lines ["Y"] three_accounts)).1 = Ret true ∧
  files (remove_account unlink_denied (TStr "3")
           (type_lines ["Y"] three_accounts)).2 !! configs_file 3 =
    files (type_lines ["Y"] three_accounts) !! configs_file 3.
Proof.
  assert (registry_ok three_registry) as Hok.
  { split; simpl.
    - reflexivity.
    - apply NoDup_cons_2; [|apply NoDup_cons_2; [|apply NoDup_singleton]].
      + rewrite !not_elem_of_cons. split_and!; [done|done|apply not_elem_of_nil].
      + rewrite not_elem_of_cons. split; [done|apply not_elem_of_nil].
    - repeat constructor; lia.
    - right. rewrite !elem_of_cons. auto.
    - repeat constructor; simpl; by eexists _, _, _, _. }
  destruct (remove_account_succeeds_without_unlink unlink_denied (TStr "3")
              (type_lines ["Y"] three_accounts) three_registry 3 "Y" [])
    as [Htrue Hkept].
  - vm_compute. reflexivity.
  - exact Hok.
  - vm_compute. reflexivity.
  - reflexivity.
  - vm_compute. reflexivity.
  - split; vm_compute; reflexivity.
  - split; [exact Htrue|]. apply Hkept.
    + vm_compute. eexists. reflexivity.
    + reflexivity.
Defined.

(** ** The cycle of [switch_to_next_account] *)

Lemma list_item_lookup (l : list Z) i x : l !! i = Some x → list_item l i = Ret x.
Proof. unfold list_item. by intros ->. Qed.

Lemma next_in_sequence_at seq i x :
  NoDup seq → seq !! i = Some x →
  next_in_sequence x seq = list_item seq ((i + 1) mod length seq).
Proof.
  intros Hnd Hi. unfold next_in_sequence.
  assert (list_index x seq = Some i) as ->; [|done].
  apply list_index_Some. split; [done|].
  intros j Hj Hx. pose proof (NoDup_lookup _ _ _ _ Hnd Hi Hx). lia.
Qed.

Lemma next_n_at seq k : ∀ i x,
  NoDup seq → seq !! i = Some x →
  next_n k seq x = list_item seq ((i + k) mod length seq).
Proof.
  induction k as [|k IH]; intros i x Hnd Hi.
  - pose proof (lookup_lt_Some _ _ _ Hi) as Hlt.
    rewrite Nat.add_0_r, Nat.mod_small by done.
    by rewrite (list_item_lookup _ _ _ Hi).
  - pose proof (lookup_lt_Some _ _ _ Hi) as Hlt.
    cbn [next_n]. rewrite (next_in_sequence_at _ _ _ Hnd Hi).
    assert ((i + 1) mod length seq < length seq)%nat as Hnext
      by (apply Nat.mod_upper_bound; lia).
    destruct (lookup_lt_is_Some_2 _ _ Hnext) as [y Hy].
    rewrite (list_item_lookup _ _ _ Hy). cbn [rbind].
    rewrite (IH _ _ Hnd Hy), Nat.Div0.add_mod_idemp_l.
    do 2 f_equal. lia.
Qed.

(** X22.  On a sequence without duplicates the successor that
    [switch_to_next_account] computes runs through one cycle: from any
    member every member is reached in fewer steps than the sequence is
    long, and after as many steps as the sequence is long the walk is
    back where it began. *)
Theorem next_in_sequence_cycles seq a :
  NoDup seq → a ∈ seq →
  next_n (length seq) seq a = Ret a ∧
  ∀ b, b ∈ seq → ∃ k, (k < length seq)%nat ∧ next_n k seq a = Ret b.
Proof.
  intros Hnd [i Hi]%list_elem_of_lookup.
  pose proof (lookup_lt_Some _ _ _ Hi) as Hlt.
  split.
  - rewrite (next_n_at _ _ _ _ Hnd Hi).
    replace (i + length seq)%nat with (i + 1 * length seq)%nat by lia.
    rewrite Nat.Div0.mod_add, Nat.mod_small by done.
    by apply list_item_lookup.
  - intros b [j Hj]%list_elem_of_lookup.
    pose proof (lookup_lt_Some _ _ _ Hj) as Hltj.
    exists ((j + length seq - i) mod length seq)%nat. split.
    + apply Nat.mod_upper_bound. lia.
    + rewrite (next_n_at _ _ _ _ Hnd Hi), Nat.Div0.add_mod_idemp_r.
      replace (i + (j + length seq - i))%nat
        with (j + 1 * length seq)%nat by lia.
      rewrite Nat.Div0.mod_add, Nat.mod_small by done.
      by apply list_item_lookup.
Qed.

Lemma next_in_sequence_cycles_witness :
  next_n 3 [1; 2; 3] 2 = Ret 2 ∧
  ∃ k, (k < 3)%nat ∧ next_n k [1; 2; 3] 2 = Ret 1.
Proof.
  assert (NoDup [1; 2; 3]) as Hnd.
  { apply NoDup_cons_2; [|apply NoDup_cons_2; [|apply NoDup_singleton]].
    - rewrite !not_elem_of_cons. split_and!; [done|done|apply not_elem_of_nil].
    - rewrite not_elem_of_cons. split; [done|apply not_elem_of_nil]. }
  assert (2 ∈ [1; 2; 3]) as H2 by (rewrite !elem_of_cons; auto).
  destruct (next_in_sequence_cycles [1; 2; 3] 2 Hnd H2) as [Hback Hall].
  split; [exact Hback|]. apply Hall. rewrite !elem_of_cons. auto.
Defined.

(** ** The first run *)

(** X23.  [__init__] creates the registry only when it is missing.  An
    existing registry file is left alone whatever it holds.  A missing
    one is written in place, without a temporary file: when the write goes
    through, the new registry loads as the empty registry stamped with the
    current time; when the file cannot be opened, [IOError] is raised and
    nothing is written.  No other file is touched. *)
Theorem init_creates_registry_once E w :
  (is_Some (files w !! sequence_file) → __init__ E w = (Ret tt, w)) ∧
  (files w !! sequence_file = None →
   (write_to E sequence_file = WriteOk →
    (__init__ E w).1 = Ret tt ∧
    (load_sequence (__init__ E w).2).1 =
      Ret (Registry 0 (JStr (now E (clock w))) [] []) ∧
    files (__init__ E w).2 !! with_suffix sequence_file dot_tmp =
      files w !! with_suffix sequence_file dot_tmp) ∧
   (write_to E sequence_file = OpenFails →
    (__init__ E w).1 = Raise IOError ∧
    files (__init__ E w).2 = files w)) ∧
  (∀ q, q ≠ sequence_file → files (__init__ E w).2 !! q = files w !! q).
Proof.
  split_and!.
  - intros Hsome. unfold __init__, bind, exists_.
    by rewrite bool_decide_eq_true_2.
  - intros Hnone.
    unfold __init__, bind, exists_, datetime_now, open_json_dump.
    rewrite bool_decide_eq_false_2 by (rewrite Hnone; by intros [? ?]).
    cbn [negb files]. split.
    + intros ->. split_and!; [done| |].
      * rewrite (load_sequence_stored _ (Registry 0 (JStr (now E (clock w))) [] []));
          [done|].
        unfold stored. simpl. by rewrite lookup_insert_eq.
      * simpl. by rewrite lookup_insert_ne.
    + by intros ->.
  - intros q Hq.
    unfold __init__, bind, exists_, datetime_now, open_json_dump.
    case_bool_decide; [done|]. cbn [negb files].
    destruct (write_to E sequence_file); simpl; [|done|];
      by rewrite lookup_insert_ne.
Qed.

Lemma init_creates_registry_witness :
  (__init__ quiet empty_world).1 = Ret tt ∧
  (load_sequence (__init__ quiet empty_world).2).1 =
    Ret (Registry 0 (JStr "2025-01-01T09:00:00") [] []).
Proof.
  destruct (proj1 (proj1 (proj2 (init_creates_registry_once quiet empty_world))
                     eq_refl) eq_refl) as (Hret & Hload & _).
  split; [exact Hret|exact Hload].
Defined.

(** ** The listing *)

Lemma frame_list_rows K a accs seq : frame K (list_rows a accs seq).
Proof. induction seq as [|n seq IH]; simpl; solve_frame. Qed.
#[local] Hint Resolve frame_list_rows : frames.

Lemma frame_list_accounts K : frame K list_accounts.
Proof. unfold list_accounts. solve_frame. Qed.
#[local] Hint Resolve frame_list_accounts : frames.

Lemma init_frame E w q :
  q ≠ sequence_file → files (__init__ E w).2 !! q = files w !! q.
Proof.
  intros Hq.
  unfold __init__, bind, exists_, datetime_now, open_json_dump.
  case_bool_decide; [done|]. cbn [negb files].
  destruct (write_to E sequence_file); simpl; [|done|];
    by rewrite lookup_insert_ne.
Qed.

(** X24.  [--list] comes first in [main]: when it is given, no other
    option is acted on and the run changes no file, apart from the
    registry that the constructor creates when it is missing. *)
Theorem main_list_changes_nothing E args w :
  arg_list args = true →
  (is_Some (files w !! sequence_file) →
   files (main_cli E args w).2 = files w) ∧
  (∀ q, q ≠ sequence_file →
        files (main_cli E args w).2 !! q = files w !! q).
Proof.
  intros Hlist.
  assert (∀ w0, files (list_accounts w0).2 = files w0) as Hro
    by (apply frame_read_only, frame_list_accounts).
  unfold main_cli, bind. rewrite Hlist. split.
  - intros Hsome.
    assert (__init__ E w = (Ret tt, w)) as ->; [|by rewrite Hro].
    unfold __init__, bind, exists_. by rewrite bool_decide_eq_true_2.
  - intros q Hq. pose proof (init_frame E w q Hq) as Hinit.
    destruct (__init__ E w) as [[[]|e] w0]; simpl in Hinit; [|done].
    by rewrite Hro.
Qed.

Lemma main_list_changes_nothing_witness :
  files (main_cli quiet list_and_add first_run).2 = files first_run.
Proof.
  apply (proj1 (main_list_changes_nothing quiet list_and_add first_run
                  eq_refl)).
  vm_compute. eexists. reflexivity.
Defined.

Lemma format_left_cases j width :
  (formattable j ∧ ∃ s, format_left j width = Ret s) ∨
  (¬ formattable j ∧ format_left j width = Raise TypeError).
Proof. destruct j; simpl; eauto. Qed.

Lemma list_row_cases a accs n :
  Forall (λ kv : string * json, isinstance_dict kv.2 = true) accs →
  (Forall formattable (row_fields accs n) ∧ ∃ row, list_row a accs n = Ret row) ∨
  (¬ Forall formattable (row_fields accs n) ∧ list_row a accs n = Raise TypeError).
Proof.
  intros Hdict. unfold list_row, row_fields. cbn [py_get rbind].
  assert (∃ d, default (JDict []) (Dict.get (str n) accs) = JDict d ∧
               match Dict.get (str n) accs with
               | Some (JDict d') => d'
               | _ => []
               end = d) as (d & -> & ->).
  { destruct (Dict.get (str n) accs) as [v|] eqn:Hget; simpl; [|eauto].
    destruct (dict_get_Forall _ _ _ _ Hdict Hget) as [k Hv]. simpl in Hv.
    destruct v; try done. eauto. }
  cbn [py_get rbind].
  destruct (format_left_cases
              (default (JStr "Unknown") (Dict.get "displayName" d)) 20)
    as [[F1 [s1 ->]]|[F1 ->]];
  destruct (format_left_cases
              (default (JStr "Unknown") (Dict.get "email" d)) 30)
    as [[F2 [s2 ->]]|[F2 ->]];
  destruct (format_left_cases
              (default (JStr "Unknown") (Dict.get "uuid" d)) 36)
    as [[F3 [s3 ->]]|[F3 ->]];
  cbn [rbind].
  all: try (right; split; [|done];
            intros H; apply list.Forall_cons in H as [? H];
            apply list.Forall_cons in H as [? H];
            apply list.Forall_cons in H as [? _]; done).
  left. split; [|by eexists].
  apply list.Forall_cons; split; [done|].
  apply list.Forall_cons; split; [done|].
  apply list.Forall_cons; split; [done|]. apply Forall_nil_2.
Qed.

Lemma list_rows_cases a accs seq : ∀ w,
  Forall (λ kv : string * json, isinstance_dict kv.2 = true) accs →
  (Forall (λ n, Forall formattable (row_fields accs n)) seq ∧
   (list_rows a accs seq w).1 = Ret tt) ∨
  (¬ Forall (λ n, Forall formattable (row_fields accs n)) seq ∧
   (list_rows a accs seq w).1 = Raise TypeError).
Proof.
  induction seq as [|n seq IH]; intros w Hdict.
  - left. by split.
  - cbn [list_rows]. unfold bind at 1, lift.
    destruct (list_row_cases a accs n Hdict) as [[Hn [row ->]]|[Hn ->]].
    + unfold bind at 1, print.
      destruct (IH (World (files w) (stdin w) (stdout w ++ [row]) (clock w))
                  Hdict) as [[Hseq Hr]|[Hseq Hr]].
      * left. split; [by apply list.Forall_cons|done].
      * right. split; [|done]. by intros [_ H]%list.Forall_cons.
    + right. split; [|done]. by intros [H _]%list.Forall_cons.
Qed.

(** X25.  The listing formats three values of each record, and a value
    that is neither a string nor a number cannot be formatted.  For a
    registry whose records are dictionaries, [list_accounts] returns
    normally exactly when the display name, the address and the identifier
    of every profile of the sequence can be formatted; otherwise it raises
    [TypeError].  A live config whose address is null passes the
    validation, so [add_account] registers it and the listing fails from
    then on. *)
Theorem list_accounts_needs_formattable_fields w data :
  (load_sequence w).1 = Ret data →
  Forall (λ kv : string * json, isinstance_dict kv.2 = true) (accounts data) →
  ((list_accounts w).1 = Ret tt ↔
   Forall (λ n, Forall formattable (row_fields (accounts data) n))
     (sequence data)) ∧
  ((list_accounts w).1 = Ret tt ∨ (list_accounts w).1 = Raise TypeError).
Proof.
  intros Hload%load_sequence_or_report_run Hdict.
  assert (list_accounts w =
            match sequence data with
            | [] => print "No accounts registered yet." w
            | _ :: _ =>
                list_rows (activeAccountNumber data) (accounts data)
                  (sequence data)
                  (World (files w) (stdin w)
                     ((stdout w ++ [list_header]) ++ [replicate_char "-" 90])
                     (clock w))
            end) as ->.
  { unfold list_accounts, bind at 1. rewrite Hload.
    by destruct (sequence data). }
  destruct (sequence data) as [|n seq] eqn:Hseq.
  - split; [|by left]. split; [by constructor|done].
  - destruct (list_rows_cases (activeAccountNumber data) (accounts data)
                (n :: seq)
                (World (files w) (stdin w)
                   ((stdout w ++ [list_header]) ++ [replicate_char "-" 90])
                   (clock w)) Hdict) as [[Hall Hr]|[Hall Hr]].
    + split; [|by left]. by split.
    + split; [|by right]. split; [|done].
      intros Hret. rewrite Hr in Hret. discriminate.
Qed.

Lemma list_accounts_null_email_witness :
  valid_config config_null_email ∧
  (list_accounts null_email_registered).1 = Raise TypeError.
Proof.
  split; [vm_compute; reflexivity|].
  destruct (list_accounts_needs_formattable_fields null_email_registered
              (Registry 1 (JStr "2025-01-03T09:00:00") [1]
                 [("1", JDict [("email", JNull); ("uuid", JStr "u9");
                               ("displayName", JStr "Unknown");
                               ("added", JStr "2025-01-02T09:00:00")])]))
    as [Hiff [Hret|Hraise]].
  - vm_compute. reflexivity.
  - repeat constructor.
  - apply Hiff in Hret. exfalso.
    apply list.Forall_cons in Hret as [Hrow _].
    apply list.Forall_cons in Hrow as [_ Hrow].
    apply list.Forall_cons in Hrow as [Hemail _].
    exact Hemail.
  - exact Hraise.
Defined.

(** ** Targets given by address *)

Lemma lower_empty t : lower t = "" → t = "".
Proof. by destruct t. Qed.





(** ** The command line *)

(** X28.  Every run of [main] ends with the registry in good order: when
    the registry is in good order before the run, or is missing and can be
    created, it is in good order after the run, whichever options are
    given. *)
Theorem main_cli_keeps_registry_in_order E args w :
  invariant w ∨
  (files w !! sequence_file = None ∧ write_to E sequence_file = WriteOk) →
  invariant (main_cli E args w).2.
Proof.
  intros Hstart.
  assert (∃ w0, __init__ E w = (Ret tt, w0) ∧ invariant w0)
    as (w0 & Hinit & Hinv).
  { destruct Hstart as [Hinv|[Hnone Hwrite]].
    - exists w. split; [|done]. destruct Hinv as (data & Hs & _).
      by apply (init_stored E w data).
    - unfold __init__, bind, exists_, datetime_now, open_json_dump.
      rewrite bool_decide_eq_false_2 by (rewrite Hnone; by intros [? ?]).
      cbn [negb files]. rewrite Hwrite. eexists. split; [done|].
      exists (Registry 0 (JStr (now E (clock w))) [] []).
      split; [|apply registry_ok_initial].
      unfold stored. simpl. by rewrite lookup_insert_eq. }
  unfold main_cli, bind at 1. rewrite Hinit.
  destruct (arg_list args).
  { eapply invariant_untouched; [apply frame_list_accounts|done]. }
  destruct (arg_add_account args).
  { unfold bind. pose proof (add_account_invariant E w0 Hinv) as H.
    by destruct (add_account E w0) as [[b|e] w']. }
  destruct (arg_switch args).
  { unfold bind. pose proof (switch_to_next_account_invariant E w0 Hinv) as H.
    by destruct (switch_to_next_account E w0) as [[b|e] w']. }
  destruct (given (arg_switch_to args)).
  { unfold bind.
    pose proof (switch_to_account_invariant E
                  (TStr (default "" (arg_switch_to args))) w0 Hinv) as H.
    by destruct (switch_to_account E _ w0) as [[b|e] w']. }
  destruct (given (arg_remove_account args)); [|done].
  unfold bind.
  pose proof (remove_account_invariant E
                (TStr (default "" (arg_remove_account args))) w0 Hinv) as H.
  by destruct (remove_account E _ w0) as [[b|e] w'].
Qed.

Lemma main_cli_first_run_witness :
  invariant (main_cli quiet (CliArgs false true false None None)
               empty_world).2.
Proof.
  apply main_cli_keeps_registry_in_order. right. split; reflexivity.
Defined.

(** ** When the registry cannot be saved *)

(** X29.  [add_account] saves the registry before it writes the backup.
    When the live config is valid but the registry cannot be saved, the
    call returns [False], the registry file is what it was, and no backup
    file is written: nothing outside the registry and its temporary
    sibling is changed. *)
Theorem add_account_registry_failure E w data :
  stored w data →
  valid_config (live_config (files w)) →
  ¬ write_succeeds E sequence_file →
  (add_account E w).1 = Ret false ∧
  files (add_account E w).2 !! sequence_file = files w !! sequence_file ∧
  ∀ q : path,
    q.1 ≠ Sequence → files (add_account E w).2 !! q = files w !! q.
Proof.
  intros Hs Hvalid Hno.
  remember (live_config (files w)) as cfg eqn:Hcfgdef.
  destruct (valid_config_shape cfg Hvalid) as (Htruthy & Hval & Hoauth).
  remember (files w) as fs eqn:Hfs. symmetry in Hfs.
  change (wp (add_account E)
            (λ r w',
               r = Ret false ∧
               files w' !! sequence_file = fs !! sequence_file ∧
               ∀ q : path, q.1 ≠ Sequence → files w' !! q = fs !! q) w).
  unfold add_account.
  apply wp_bind. eapply wp_run; [reflexivity|].
  apply wp_try, wp_bind, wp_get_claude_config. intros wa Hfa.
  cbn [files] in Hfa. cbn [files]. rewrite Hfs, <- Hcfgdef.
  apply (stored_same_files _ _ _ Hfa) in Hs.
  rewrite <- Hfa in Hfs. clear Hfa Hcfgdef.
  rewrite Htruthy, Hval. cbn [negb].
  apply wp_bind, wp_lift. rewrite Hoauth.
  apply wp_bind, wp_lift. cbn [py_get].
  apply wp_bind, wp_lift. cbn [py_get].
  apply wp_bind, wp_lift. cbn [py_get].
  apply wp_bind.
  eapply wp_run; [by apply get_next_account_number_stored|].
  apply wp_bind, wp_datetime_now. intros added wb Hfb.
  apply (stored_same_files _ _ _ Hfb) in Hs. rewrite <- Hfb in Hfs. clear Hfb.
  apply wp_bind.
  eapply wp_run; [by apply load_sequence_stored|].
  apply wp_bind, wp_datetime_now. intros updated wc Hfc.
  rewrite <- Hfc in Hfs. clear Hfc Hs.
  eapply wp_bind, wp_mono; [apply save_sequence_spec|].
  cbn beta. intros r wd [Hf [(_ & Hyes & _)|(-> & _ & Hkeep)]]; [done|].
  cbn. apply wp_print_ret. cbn [files printed]. split_and!; [done| |].
  - by rewrite Hkeep, Hfs.
  - intros q Hq. by rewrite (Hf q Hq), Hfs.
Qed.

Lemma add_account_registry_failure_witness :
  (add_account registry_locked (log_in config_b one_account)).1 = Ret false ∧
  files (add_account registry_locked (log_in config_b one_account)).2
    !! configs_file 2 = None.
Proof.
  destruct (add_account_registry_failure registry_locked
              (log_in config_b one_account)
              (Registry 1 (JStr "2025-01-03T09:00:00") [1]
                 (firstn 1 (accounts three_registry))))
    as (Hret & _ & Hkept).
  - vm_compute. reflexivity.
  - vm_compute. reflexivity.
  - intros [_ Hreplace]. vm_compute in Hreplace. discriminate.
  - split; [exact Hret|]. rewrite Hkept by done. vm_compute. reflexivity.
Defined.

(** X30.  [switch_to_account] writes the live config before it saves the
    registry.  When the target is registered with a valid backup, the
    liveness check passed and the live config was written but the registry
    cannot be saved, the call returns [False] with the live config already
    holding the payload of the target while the registry file still names
    the profile that was active before. *)
Theorem switch_to_account_registry_failure E t w data n :
  (load_sequence w).1 = Ret data →
  resolve_account data t = Ret (Some n) →
  valid_config (read_config (files w !! configs_file n)) →
  (confirm_not_running E w).1 = Ret true →
  write_succeeds E claude_config_file →
  ¬ write_succeeds E sequence_file →
  (switch_to_account E t w).1 = Ret false ∧
  files (switch_to_account E t w).2 !! claude_config_file =
    Some (json_dump (read_config (files w !! configs_file n))) ∧
  files (switch_to_account E t w).2 !! sequence_file =
    files w !! sequence_file.
Proof.
  intros Hload%load_sequence_or_report_run Hres Hvalid Hconfirm Hlive Hseq.
  assert (is_Some (files w !! configs_file n)) as Hbackup.
  { destruct (files w !! configs_file n); [eauto|]. by simpl in Hvalid. }
  remember (files w !! sequence_file) as kept eqn:Hkept. symmetry in Hkept.
  remember (files w !! configs_file n) as backup eqn:Hb. symmetry in Hb.
  remember (read_config backup) as cfg eqn:Hcfg.
  change (wp (switch_to_account E t)
            (λ r wf,
               r = Ret false ∧
               files wf !! claude_config_file = Some (json_dump cfg) ∧
               files wf !! sequence_file = kept) w).
  unfold switch_to_account.
  apply wp_bind. eapply wp_run; [exact Hload|].
  apply wp_bind, wp_lift. rewrite Hres.
  apply wp_bind. eapply wp_run; [reflexivity|].
  rewrite bool_decide_eq_true_2 by (by rewrite Hb). cbn [negb].
  apply wp_bind.
  pose proof (frame_confirm_not_running (λ _, True) E w) as Hframe.
  destruct (confirm_not_running E w) as [r1 w1] eqn:Hc.
  simpl in Hconfirm, Hframe. subst r1.
  eapply wp_run; [exact Hc|]. cbn [negb].
  transport Hframe. clear Hframe.
  apply wp_bind, wp_load_config_file. intros w2 Hf2.
  apply (untouched_same (λ _ : stem, True)) in Hf2.
  rewrite Hb, <- Hcfg. transport Hf2. clear Hf2.
  rewrite (valid_config_not_none _ Hvalid).
  pose proof Hvalid as Hv. unfold valid_config in Hv.
  destruct (validate_claude_config cfg) as [is_valid message].
  simpl in Hv. subst is_valid. cbn [negb].
  apply wp_bind.
  pose proof (frame_backup_current E data w2) as Hf3.
  destruct (backup_current_returns E data w2) as [w3 Hb3].
  rewrite Hb3 in Hf3. simpl in Hf3.
  eapply wp_run; [exact Hb3|].
  apply (lookup_untouched _ _ _ sequence_file _ Hf3) in Hkept; [|done].
  clear Hf3.
  eapply wp_bind, wp_mono;
    [apply (save_config_file_spec E claude_config_file); reflexivity|].
  cbn beta.
  intros r w4 [Hf4 [(-> & _ & _ & Hnew)|(-> & _ & Hno & _)]];
    [|by destruct (Hno Hvalid)].
  apply (lookup_untouched _ _ _ sequence_file _ Hf4) in Hkept; [|done].
  clear Hf4. cbn [negb].
  apply wp_bind, wp_datetime_now. intros updated w5 Hf5.
  rewrite <- Hf5 in Hkept, Hnew. clear Hf5.
  apply wp_bind, wp_save_sequence_guarded.
  - intros w6 _ Hyes _. by destruct Hseq.
  - intros w6 Hf6 _ Hsame. cbn. apply wp_ret. split_and!; [done| |].
    + rewrite (Hf6 claude_config_file); done.
    + by rewrite Hsame.
Qed.

Lemma switch_to_account_registry_failure_witness :
  (switch_to_account registry_locked (TStr "1") two_accounts).1 = Ret false ∧
  files (switch_to_account registry_locked (TStr "1") two_accounts).2
    !! claude_config_file = Some (json_dump config_a).
Proof.
  destruct (switch_to_account_registry_failure registry_locked
              (TStr "1") two_accounts
              (Registry 2 (JStr "2025-01-05T09:00:00") [1; 2]
                 (firstn 2 (accounts three_registry))) 1)
    as (Hret & Hnew & _).
  - vm_compute. reflexivity.
  - vm_compute. reflexivity.
  - vm_compute. reflexivity.
  - vm_compute. reflexivity.
  - split; vm_compute; reflexivity.
  - intros [_ Hreplace]. vm_compute in Hreplace. discriminate.
  - split; [exact Hret|]. rewrite Hnew. vm_compute. reflexivity.
Defined.
